(** * Database-Manager: edit reconciliation and data-access layer

    A shallow embedding of the TypeScript sources of the VS Code
    "Database Manager" extension, together with proofs about the
    statements of its specification.

    The embedding, module by module:
    - [JS]: the fragment of JavaScript values, objects and string
      primitives that the modelled functions use;
    - [Backend]: the calls that reach the database, and the monad in which
      the message handler runs;
    - [Extension]: the table editor of [extension.ts], web view script and
      message handler;
    - [ExtensionPrev]: the earlier variant of the same editor that the
      repository also carries;
    - [ConfigManager]: the profile store ([ConfigManager.ts]), over a heap
      of profile objects;
    - [DatabaseManager]: the connection registry and the MongoDB command
      parser of [executeQuery];
    - [DatabaseServiceImpl]: the adapter service with its retrying
      [connect].

    Then come sample tables and edits, the vocabulary of the statements,
    and the proofs.  Strings are byte strings; numbers are integers. *)

From Stdlib Require Import String Ascii List ZArith Bool Lia.
From stdpp Require Import base gmap strings list pretty.

Local Open Scope string_scope.
Local Open Scope list_scope.

(* ===================================================================== *)
(** * JavaScript values and string primitives *)
(* ===================================================================== *)

Module JS.

(** The values that cross the modelled code: [null], strings and numbers.
    Numbers are the integers a table cell or a row index holds; a missing
    property ([undefined]) is the [None] of a lookup. *)
Inductive value : Type :=
| JUndef
| JNull
| JStr (s : string)
| JNum (n : Z).

(** Strict equality [a === b]. *)
Definition value_eqb (a b : value) : bool :=
  match a, b with
  | JUndef, JUndef => true
  | JNull, JNull => true
  | JStr s, JStr t => String.eqb s t
  | JNum n, JNum m => Z.eqb n m
  | _, _ => false
  end.

(** How a call ends: with an error thrown, or with a result. *)
Inductive outcome (A : Type) : Type :=
| Thrown (msg : string)
| Done (a : A).
Arguments Thrown {A} msg.
Arguments Done {A} a.

(** A plain object, as [Object.entries] enumerates it: own properties in
    insertion order. *)
Definition obj (V : Type) : Type := list (string * V).

Fixpoint get {V} (o : obj V) (k : string) : option V :=
  match o with
  | [] => None
  | (k', v) :: o' => if String.eqb k' k then Some v else get o' k
  end.

(** [o[k]] read as a value: a missing property reads [undefined]. *)
Definition prop (o : obj value) (k : string) : value :=
  match get o k with
  | Some v => v
  | None => JUndef
  end.

(** [o[k] = v]: overwrite in place when the property exists, append
    otherwise. *)
Fixpoint set {V} (o : obj V) (k : string) (v : V) : obj V :=
  match o with
  | [] => [(k, v)]
  | (k', v') :: o' =>
      if String.eqb k' k then (k', v) :: o' else (k', v') :: set o' k v
  end.

Definition keys {V} (o : obj V) : list string := map fst o.

(** [arr.includes(x)] on an array of strings. *)
Definition includes (l : list string) (x : string) : bool :=
  existsb (String.eqb x) l.

(** [arr.join(sep)]. *)
Fixpoint join (sep : string) (l : list string) : string :=
  match l with
  | [] => ""
  | [x] => x
  | x :: l' => x +:+ sep +:+ join sep l'
  end.

(** ['' + v] for a value that is not a string. *)
Definition to_string (v : value) : string :=
  match v with
  | JUndef => "undefined"
  | JNull => "null"
  | JStr s => s
  | JNum n => pretty n
  end.

(** Truthiness of [if (v)]. *)
Definition truthy (v : value) : bool :=
  match v with
  | JUndef => false
  | JNull => false
  | JStr s => negb (String.eqb s "")
  | JNum n => negb (Z.eqb n 0)
  end.

(** [s.replace(/'/g, "''")]. *)
Fixpoint escape_quotes (s : string) : string :=
  match s with
  | EmptyString => EmptyString
  | String c s' =>
      if Ascii.eqb c "'"%char
      then String "'"%char (String "'"%char (escape_quotes s'))
      else String c (escape_quotes s')
  end.

(** The white space of [\s] and [trim()] among the one-byte characters:
    tab, line feed, vertical tab, form feed, carriage return, space. *)
Definition is_space (c : ascii) : bool :=
  let n := nat_of_ascii c in
  Nat.eqb n 9 || Nat.eqb n 10 || Nat.eqb n 11 || Nat.eqb n 12
  || Nat.eqb n 13 || Nat.eqb n 32.

Fixpoint trim_start (s : string) : string :=
  match s with
  | EmptyString => EmptyString
  | String c s' => if is_space c then trim_start s' else s
  end.

(** Drops the trailing white space: a character is kept when it is not
    white space or when something is kept after it. *)
Fixpoint trim_end (s : string) : string :=
  match s with
  | EmptyString => EmptyString
  | String c s' =>
      match trim_end s' with
      | EmptyString => if is_space c then EmptyString else String c EmptyString
      | r => String c r
      end
  end.

Definition trim (s : string) : string := trim_end (trim_start s).

(** [parseInt(s)] on the decimal texts the editor uses as row indices:
    leading white space, an optional sign, then the longest run of digits;
    [None] is [NaN]. *)
Definition digit_of (c : ascii) : option Z :=
  let n := nat_of_ascii c in
  if Nat.leb 48 n && Nat.leb n 57 then Some (Z.of_nat (n - 48)) else None.

Fixpoint digits_from (s : string) (acc : Z) : Z :=
  match s with
  | EmptyString => acc
  | String c s' =>
      match digit_of c with
      | Some d => digits_from s' (10 * acc + d)
      | None => acc
      end
  end.

Definition parse_digits (s : string) : option Z :=
  match s with
  | EmptyString => None
  | String c _ =>
      match digit_of c with
      | Some _ => Some (digits_from s 0)
      | None => None
      end
  end.

Definition parseInt (s : string) : option Z :=
  match trim_start s with
  | String "-"%char s' => option_map Z.opp (parse_digits s')
  | String "+"%char s' => parse_digits s'
  | s' => parse_digits s'
  end.

(** [s.startsWith(p)]. *)
Fixpoint starts_with (p s : string) : bool :=
  match p with
  | EmptyString => true
  | String a p' =>
      match s with
      | EmptyString => false
      | String b s' => Ascii.eqb a b && starts_with p' s'
      end
  end.

(** [s.substring(n)] and [s.substring(a, b)] for [a <= b]. *)
Fixpoint skip (n : nat) (s : string) : string :=
  match n, s with
  | S n', String _ s' => skip n' s'
  | _, _ => s
  end.

Definition substring (a b : nat) (s : string) : string :=
  String.substring a (b - a) s.

(** [s.indexOf(pat)]; [None] is [-1]. *)
Fixpoint index_of (pat s : string) : option nat :=
  if starts_with pat s then Some 0
  else
    match s with
    | EmptyString => None
    | String _ s' => option_map S (index_of pat s')
    end.

(** [s.indexOf(pat, from)]. *)
Definition index_of_from (pat s : string) (from : nat) : option nat :=
  option_map (Nat.add from) (index_of pat (skip from s)).

(** [s.lastIndexOf(c)] for a single character. *)
Fixpoint last_index_of (c : ascii) (s : string) : option nat :=
  match s with
  | EmptyString => None
  | String b s' =>
      match last_index_of c s' with
      | Some i => Some (S i)
      | None => if Ascii.eqb b c then Some 0 else None
      end
  end.

(** [s.includes(pat)]. *)
Definition includes_str (pat s : string) : bool :=
  match index_of pat s with
  | Some _ => true
  | None => false
  end.

(** The first two pieces of [s.split(sep)] for a [sep] that occurs in
    [s]: the text before the first occurrence, and the text from there to
    the next occurrence or to the end. *)
Definition split2 (sep s : string) : string * string :=
  match index_of sep s with
  | None => (s, "")
  | Some i =>
      let rest := skip (i + String.length sep) s in
      (substring 0 i s,
       match index_of sep rest with
       | Some j => substring 0 j rest
       | None => rest
       end)
  end.

(** [s.replace(/\s+/g, ' ')]: every run of white space becomes one space. *)
Fixpoint collapse_go (in_run : bool) (s : string) : string :=
  match s with
  | EmptyString => EmptyString
  | String c s' =>
      if is_space c
      then if in_run then collapse_go true s'
           else String " "%char (collapse_go true s')
      else String c (collapse_go false s')
  end.

Definition collapse_spaces (s : string) : string := collapse_go false s.

End JS.

(* ===================================================================== *)
(** * The backend seen from the editor *)
(* ===================================================================== *)

(** The message handler of the editor reaches the database only through
    [databaseManager.executeQuery], [databaseManager.getMongoConnection]
    and the collection methods of the MongoDB driver.  Each such call is
    recorded; what it answers is up to the backend. *)

Module Backend.
Import JS.

Abbreviation row := (obj value).

Inductive call : Type :=
| ExecuteQuery (q : string)
| GetMongoConnection
| Find (coll : string)
| DeleteOne (coll : string) (filter : row)
| UpdateOne (coll : string) (filter : row) (setdoc : row)
| InsertOne (coll : string) (doc : row).

(** What the web view receives through [panel.webview.postMessage]. *)
Inductive posted : Type :=
| SaveSuccess
| UpdateData (data : list row)
| ErrorMessage (msg : string).

Inductive reply (D : Type) : Type :=
| Throw (msg : string)
| Return (d : D) (rows : list row).
Arguments Throw {D} msg.
Arguments Return {D} d rows.

Record backend : Type := {
  db : Type;
  exec : db -> call -> reply db
}.

Inductive kind : Type := KRead | KDelete | KUpdate | KInsert.

(** The kind of a call; a SQL text is classified by its leading keyword. *)
Definition kind_of (c : call) : kind :=
  match c with
  | ExecuteQuery q =>
      if starts_with "DELETE FROM " q then KDelete
      else if starts_with "UPDATE " q then KUpdate
      else if starts_with "INSERT INTO " q then KInsert
      else KRead
  | GetMongoConnection => KRead
  | Find _ => KRead
  | DeleteOne _ _ => KDelete
  | UpdateOne _ _ _ => KUpdate
  | InsertOne _ _ => KInsert
  end.

Definition is_write (c : call) : bool :=
  match kind_of c with
  | KRead => false
  | _ => true
  end.

Section Monad.
Context (B : backend).

(** The state threaded through a handler run: the database, the calls
    issued so far, and the messages posted to the web view. *)
Record world : Type := World {
  w_db : db B;
  w_log : list call;
  w_out : list posted
}.

Definition M (A : Type) : Type := world -> outcome A * world.

Definition ret {A} (a : A) : M A := fun w => (Done a, w).

Definition bind {A C} (m : M A) (k : A -> M C) : M C :=
  fun w =>
    match m w with
    | (Thrown msg, w') => (Thrown msg, w')
    | (Done a, w') => k a w'
    end.

Definition throw {A} (msg : string) : M A := fun w => (Thrown msg, w).

(** [try { m } catch (error) { h error.message }]. *)
Definition catch {A} (m : M A) (h : string -> M A) : M A :=
  fun w =>
    match m w with
    | (Thrown msg, w') => h msg w'
    | r => r
    end.

(** One call to the backend: logged, then answered or thrown. *)
Definition invoke (c : call) : M (list row) :=
  fun w =>
    let log := w_log w ++ [c] in
    match exec B (w_db w) c with
    | Throw msg => (Thrown msg, World (w_db w) log (w_out w))
    | Return d rows => (Done rows, World d log (w_out w))
    end.

Definition postMessage (p : posted) : M unit :=
  fun w => (Done tt, World (w_db w) (w_log w) (w_out w ++ [p])).

(** [for (const x of l) { body x }]; a [continue] is a body that returns. *)
Fixpoint for_each {A} (l : list A) (body : A -> M unit) : M unit :=
  match l with
  | [] => ret tt
  | x :: l' => bind (body x) (fun _ => for_each l' body)
  end.

End Monad.

Arguments World {B} w_db w_log w_out.
Arguments ret {B A} a.
Arguments bind {B A C} m k.
Arguments throw {B A} msg.
Arguments catch {B A} m h.
Arguments invoke {B} c.
Arguments postMessage {B} p.
Arguments for_each {B A} l body.
Arguments w_db {B} w.
Arguments w_log {B} w.
Arguments w_out {B} w.

Notation "'do' x <- m ; k" := (bind m (fun x => k))
  (at level 10, x pattern, m at level 100, k at level 200).

End Backend.

(* ===================================================================== *)
(** * The table editor of extension.ts *)
(* ===================================================================== *)

Module Extension.
Import JS Backend.

(** ** Shared by the web view script and the message handler *)

Record ColumnMeta : Type := {
  name : string;
  notNull : bool;
  isPrimaryKey : bool
}.

(** What [previewTable] fixes before the panel opens: the backend family,
    the table and its introspected keys and columns. *)
Record context : Type := {
  is_mongodb : bool;
  tableName : string;
  primaryKeys : list string;
  columnsMetadata : list ColumnMeta
}.

(** ** The web view script *)

(** The script's globals and the part of the document it reads on save:
    [modifiedData] (row id to column to text, in [for..in] order),
    [deletedRows], [newRows], and the [tr.new-row] elements with the
    column and text of their data cells. *)
Record webview : Type := {
  modifiedData : obj (obj string);
  deletedRows : list string;
  newRows : list string;
  newRowElements : list (string * list (string * string))
}.

(** [!v || v === 'NULL' || v.trim() === ''] for the text [data[columnName]];
    a column absent from [data] reads [undefined]. *)
Definition blank (v : option string) : bool :=
  match v with
  | None => true
  | Some s => String.eqb s "" || String.eqb s "NULL" || String.eqb (trim s) ""
  end.

(** [validateData(data)]: one error per violated column. *)
Definition validateData (ctx : context) (data : obj string) : list string :=
  flat_map
    (fun column =>
       let columnName := name column in
       let isPrimary := includes (primaryKeys ctx) columnName in
       let isNotNull := notNull column in
       if (isPrimary || isNotNull) && blank (get data columnName)
       then [columnName +:+ " 不能为空"]
       else [])
    (columnsMetadata ctx).

Definition has_errors (errors : list string) : bool :=
  match errors with
  | [] => false
  | _ => true
  end.

(** The first loop of [saveChanges]: every entry of [modifiedData]. *)
Definition validate_modified (ctx : context) (md : obj (obj string)) : bool :=
  existsb (fun entry => has_errors (validateData ctx (snd entry))) md.

(** The body of the second loop for one [tr.new-row]: its cells are copied
    into [modifiedData[rowId]], which is then validated. *)
Definition absorb_new_row (md : obj (obj string))
    (el : string * list (string * string)) : obj (obj string) :=
  let rowId := fst el in
  let base := match get md rowId with Some o => o | None => [] end in
  set md rowId
    (fold_left (fun o cell => set o (fst cell) (snd cell)) (snd el) base).

Fixpoint validate_new (ctx : context) (md : obj (obj string))
    (els : list (string * list (string * string)))
    : bool * obj (obj string) :=
  match els with
  | [] => (false, md)
  | el :: els' =>
      let md1 := absorb_new_row md el in
      let bad :=
        has_errors
          (validateData ctx
             (match get md1 (fst el) with Some o => o | None => [] end)) in
      let '(bad', md2) := validate_new ctx md1 els' in
      (bad || bad', md2)
  end.

(** The message of [vscode.postMessage({command: 'saveChanges', ...})]. *)
Record message : Type := {
  m_modifiedData : obj row;
  m_deletedRows : list string;
  m_newRows : list string
}.

Definition as_row (o : obj string) : row :=
  map (fun kv => (fst kv, JStr (snd kv))) o.

(** [saveChanges()] of the web view: [None] when validation stops the
    save before anything is posted. *)
Definition saveChanges (ctx : context) (st : webview) : option message :=
  let bad1 := validate_modified ctx (modifiedData st) in
  let '(bad2, md) := validate_new ctx (modifiedData st) (newRowElements st) in
  if bad1 || bad2 then None
  else Some {| m_modifiedData := map (fun e => (fst e, as_row (snd e))) md;
               m_deletedRows := deletedRows st;
               m_newRows := newRows st |}.

(** ** The message handler *)

Record deleteOp : Type := {
  d_primaryKeyData : row;
  d_rowData : row
}.

Record updateOp : Type := {
  u_primaryKeyData : row;
  u_updateData : row
}.

(** [result.forEach((row, index) => originalData[index] = row)]. *)
Definition index_rows (rows : list row) : obj row :=
  imap (fun (index : nat) r => (pretty index, r)) rows.

Definition pick_keys (pks : list string) (r : row) : row :=
  fold_left (fun acc pk => set acc pk (prop r pk)) pks [].

Definition build_deletes (ctx : context) (originalData : obj row)
    (msg : message) : list deleteOp :=
  flat_map
    (fun rowId =>
       match get originalData rowId with
       | Some r =>
           [{| d_primaryKeyData := pick_keys (primaryKeys ctx) r;
               d_rowData := r |}]
       | None => []
       end)
    (m_deletedRows msg).

Definition build_updates (ctx : context) (originalData : obj row)
    (msg : message) : list updateOp :=
  flat_map
    (fun entry =>
       let rowId := fst entry in
       if includes (m_newRows msg) rowId then []
       else
         [{| u_primaryKeyData :=
               match get originalData rowId with
               | Some r => pick_keys (primaryKeys ctx) r
               | None => []
               end;
             u_updateData := snd entry |}])
    (m_modifiedData msg).

Definition build_inserts (msg : message) : list row :=
  flat_map
    (fun rowId =>
       match get (m_modifiedData msg) rowId with
       | Some insertData => [insertData]
       | None => []
       end)
    (m_newRows msg).

(** [value === null || value === 'NULL' || value === '']. *)
Definition null_like (v : value) : bool :=
  match v with
  | JNull => true
  | JStr s => String.eqb s "NULL" || String.eqb s ""
  | _ => false
  end.

(** [typeof value === 'string' ? "'" + value.replace(/'/g, "''") + "'" : value]. *)
Definition quoted_escaped (v : value) : string :=
  match v with
  | JStr s => "'" +:+ escape_quotes s +:+ "'"
  | _ => to_string v
  end.

(** [typeof value === 'string' ? "'" + value + "'" : value]. *)
Definition quoted_raw (v : value) : string :=
  match v with
  | JStr s => "'" +:+ s +:+ "'"
  | _ => to_string v
  end.

Definition nonempty (s : string) : bool := negb (String.eqb s "").

(** The [WHERE] text of a delete, over every column of the original row. *)
Definition delete_where (r : row) : string :=
  join " AND "
    (List.filter nonempty
       (map (fun cv =>
               let '(column, v) := cv in
               if null_like v then column +:+ " IS NULL"
               else column +:+ " = " +:+ quoted_escaped v)
          r)).

(** The row that a delete operation is matched back to. *)
Definition find_deleted_row (originalData : obj row) (msg : message)
    (op : deleteOp) : option string :=
  find
    (fun id =>
       existsb
         (fun kv =>
            match get originalData id with
            | Some r => value_eqb (prop r (fst kv)) (snd kv)
            | None => false
            end)
         (d_primaryKeyData op))
    (m_deletedRows msg).

(** The text of the [DELETE] for one operation; [None] where the loop
    [continue]s. *)
Definition delete_query (ctx : context) (originalData : obj row)
    (msg : message) (op : deleteOp) : option string :=
  match find_deleted_row originalData msg op with
  | None => None
  | Some rowId =>
      if String.eqb rowId "" then None
      else
        match get originalData rowId with
        | None => None
        | Some r =>
            let whereConditions := delete_where r in
            if String.eqb whereConditions "" then None
            else Some ("DELETE FROM " +:+ tableName ctx +:+ " WHERE "
                       +:+ whereConditions)
        end
  end.

Definition update_where (ctx : context) (pkd : row) : string :=
  join " AND "
    (List.filter nonempty
       (map (fun cv =>
               let '(column, v) := cv in
               if includes (primaryKeys ctx) column
               then column +:+ " = " +:+ quoted_raw v
               else if null_like v then column +:+ " IS NULL"
               else column +:+ " = " +:+ quoted_raw v)
          pkd)).

Definition update_set (ctx : context) (updateData : row) : string :=
  join ", "
    (map (fun cv =>
            let '(column, v) := cv in
            if includes (primaryKeys ctx) column
            then column +:+ " = " +:+ quoted_raw v
            else match v with
                 | JNull => column +:+ " = NULL"
                 | _ => column +:+ " = " +:+ quoted_raw v
                 end)
       updateData).

Definition update_query (ctx : context) (op : updateOp) : string :=
  "UPDATE " +:+ tableName ctx +:+ " SET " +:+ update_set ctx (u_updateData op)
  +:+ " WHERE " +:+ update_where ctx (u_primaryKeyData op).

(** [value !== undefined && value !== null && value !== 'NULL' &&
    value.toString().trim() !== '']. *)
Definition supplied (v : value) : bool :=
  match v with
  | JUndef => false
  | JNull => false
  | JStr s => negb (String.eqb s "NULL") && negb (String.eqb (trim s) "")
  | JNum n => negb (String.eqb (trim (pretty n)) "")
  end.

(** The column list of an insert: a primary key is kept only when a value
    was supplied for it, every other column is kept. *)
Definition insert_columns (ctx : context) (insertData : row) : list string :=
  List.filter
    (fun col =>
       if includes (primaryKeys ctx) col
       then supplied (prop insertData col)
       else true)
    (keys insertData).

Definition insert_value (v : value) : string :=
  if null_like v then "NULL" else quoted_escaped v.

Definition insert_values (ctx : context) (insertData : row) : list string :=
  map (fun column => insert_value (prop insertData column))
    (insert_columns ctx insertData).

Definition insert_query (ctx : context) (insertData : row) : string :=
  match insert_columns ctx insertData with
  | [] => "INSERT INTO " +:+ tableName ctx +:+ " DEFAULT VALUES"
  | columns =>
      "INSERT INTO " +:+ tableName ctx +:+ " (" +:+ join ", " columns
      +:+ ") VALUES (" +:+ join ", " (insert_values ctx insertData) +:+ ")"
  end.

Definition select_all (ctx : context) : string :=
  "SELECT * FROM " +:+ tableName ctx +:+ " LIMIT 1000".

(** The filter of a MongoDB delete or update: [_id] when it is truthy,
    otherwise every field that is neither null nor empty. *)
Definition mongo_filter (r : row) : row :=
  if truthy (prop r "_id") then [("_id", prop r "_id")]
  else
    fold_left
      (fun acc kv =>
         match snd kv with
         | JNull | JUndef => acc
         | JStr s => if String.eqb s "" then acc else set acc (fst kv) (snd kv)
         | _ => set acc (fst kv) (snd kv)
         end)
      r [].

Section Handler.
Context {B : backend}.

(** The rows of the table as the handler reads them. *)
Definition fetch_rows (ctx : context) : M B (list row) :=
  if is_mongodb ctx
  then do _ <- invoke GetMongoConnection; invoke (Find (tableName ctx))
  else invoke (ExecuteQuery (select_all ctx)).

Definition run_deletes (ctx : context) (originalData : obj row)
    (msg : message) (deletes : list deleteOp) : M B unit :=
  for_each deletes
    (fun op =>
       match delete_query ctx originalData msg op with
       | None => ret tt
       | Some q => do _ <- invoke (ExecuteQuery q); ret tt
       end).

Definition run_updates (ctx : context) (updates : list updateOp) : M B unit :=
  for_each updates
    (fun op => do _ <- invoke (ExecuteQuery (update_query ctx op)); ret tt).

Definition run_inserts (ctx : context) (inserts : list row) : M B unit :=
  for_each inserts
    (fun insertData =>
       do _ <- invoke (ExecuteQuery (insert_query ctx insertData)); ret tt).

Definition run_mongo (ctx : context) (deletes : list deleteOp)
    (updates : list updateOp) (inserts : list row) : M B unit :=
  do _ <- invoke GetMongoConnection;
  do _ <- for_each deletes
            (fun op =>
               do _ <- invoke (DeleteOne (tableName ctx)
                                 (mongo_filter (d_rowData op)));
               ret tt);
  do _ <- for_each updates
            (fun op =>
               do _ <- invoke (UpdateOne (tableName ctx)
                                 (mongo_filter (u_primaryKeyData op))
                                 (u_updateData op));
               ret tt);
  for_each inserts
    (fun insertData =>
       do _ <- invoke (InsertOne (tableName ctx) insertData); ret tt).

(** The writes of one save, in the order of the handler. *)
Definition apply_changes (ctx : context) (originalData : obj row)
    (msg : message) : M B unit :=
  let deletes := build_deletes ctx originalData msg in
  let updates := build_updates ctx originalData msg in
  let inserts := build_inserts msg in
  if is_mongodb ctx then run_mongo ctx deletes updates inserts
  else
    do _ <- run_deletes ctx originalData msg deletes;
    do _ <- run_updates ctx updates;
    run_inserts ctx inserts.

(** [case 'saveChanges'] of [onDidReceiveMessage], with the [catch] that
    reports a failure to the web view. *)
Definition onSaveChanges (ctx : context) (msg : message) : M B unit :=
  catch
    (do rows <- fetch_rows ctx;
     do _ <- apply_changes ctx (index_rows rows) msg;
     do _ <- postMessage SaveSuccess;
     catch
       (do refreshResult <- fetch_rows ctx;
        postMessage (UpdateData refreshResult))
       (fun _ => ret tt))
    (fun error => postMessage (ErrorMessage error)).

(** One save: the web view validates and posts, the handler applies. *)
Definition save_cycle (ctx : context) (st : webview) : M B unit :=
  match saveChanges ctx st with
  | None => ret tt
  | Some msg => onSaveChanges ctx msg
  end.

(** [case 'refreshData'] of [onDidReceiveMessage]: a failure is shown to
    the user and goes no further. *)
Definition onRefreshData (ctx : context) : M B unit :=
  catch
    (do refreshDataResult <- fetch_rows ctx;
     postMessage (UpdateData refreshDataResult))
    (fun _ => ret tt).

End Handler.

(** ** The web view script: what the user's actions do to its globals *)

(** [addNewRow()]: [timestamp] is [Date.now()], [headers] are the texts of
    the header cells but the last one (the action column).  The new
    [tr.new-row] has one empty cell for each. *)
Definition addNewRow (timestamp : Z) (headers : list string) (st : webview)
    : webview :=
  let newRowId := "new-" +:+ pretty timestamp in
  {| modifiedData := modifiedData st;
     deletedRows := deletedRows st;
     newRows := newRows st ++ [newRowId];
     newRowElements :=
       newRowElements st ++ [(newRowId, map (fun column => (column, "")) headers)] |}.

(** [arr.splice(arr.indexOf(x), 1)] for an [x] that [arr] holds. *)
Fixpoint splice_first (x : string) (arr : list string) : list string :=
  match arr with
  | [] => []
  | y :: arr' => if String.eqb y x then arr' else y :: splice_first x arr'
  end.

(** A click on the delete button of the [tr.new-row] at position [i]
    among the [tr.new-row] elements: a row whose id is in [newRows] is
    taken out of the document, any other row is marked deleted and
    hidden. *)
Definition deleteClickNew (i : nat) (st : webview) : webview :=
  match newRowElements st !! i with
  | None => st
  | Some (rowId, _) =>
      if String.eqb rowId "" then st
      else if includes (newRows st) rowId then
        {| modifiedData := modifiedData st; deletedRows := deletedRows st;
           newRows := splice_first rowId (newRows st);
           newRowElements := delete i (newRowElements st) |}
      else
        {| modifiedData := modifiedData st;
           deletedRows := deletedRows st ++ [rowId];
           newRows := newRows st; newRowElements := newRowElements st |}
  end.

(** The check that [finishEditing] makes on the text typed in. *)
Definition refused (ctx : context) (column newValue : string) : bool :=
  let isPrimary := includes (primaryKeys ctx) column in
  let isNotNull :=
    existsb (fun col => String.eqb (name col) column && notNull col)
      (columnsMetadata ctx) in
  (isPrimary || isNotNull) && blank (Some newValue).

(** [modifiedData[rowId][column] = newValue]. *)
Definition record_edit (md : obj (obj string)) (rowId column newValue : string)
    : obj (obj string) :=
  set md rowId
    (set (match get md rowId with Some o => o | None => [] end) column newValue).

(** [finishEditing(input)] for the cell at position [j] of the
    [tr.new-row] at position [i]: the cell takes the text typed in. *)
Definition finishEditingNew (ctx : context) (i j : nat)
    (originalValue newValue : string) (st : webview) : webview :=
  match newRowElements st !! i with
  | None => st
  | Some (rowId, cells) =>
      match cells !! j with
      | None => st
      | Some (column, _) =>
          if refused ctx column newValue then st
          else
            {| modifiedData :=
                 if String.eqb newValue originalValue then modifiedData st
                 else record_edit (modifiedData st) rowId column newValue;
               deletedRows := deletedRows st; newRows := newRows st;
               newRowElements :=
                 <[i := (rowId, <[j := (column, newValue)]> cells)]>
                   (newRowElements st) |}
      end
  end.

End Extension.

(* ===================================================================== *)
(** * The earlier variant of the table editor *)
(* ===================================================================== *)

Module ExtensionPrev.
Import JS Backend.

Record ColumnMeta : Type := {
  name : string;
  notNull : bool;
  isPrimaryKey : bool
}.

Record context : Type := {
  tableName : string;
  primaryKeys : list string;
  columnsMetadata : list ColumnMeta
}.

(** ** The document *)

(** A [td]: whether it carries the class [editable], its [data-column],
    whether [data-is-pk] is ['true'], and its text. *)
Record td : Type := {
  editable : bool;
  column : string;
  isPk : bool;
  textContent : string
}.

(** A [tr] of the table body: [data-row-index], [data-row-id] (absent on
    rows added in the editor) and its cells. *)
Record tr : Type := {
  rowIndex : string;
  rowId : option string;
  cells : list td
}.

(** The script's globals: [modifiedData] is a [Map] from row index to a
    [Map] from column to text or [null]; [deletedRows] is a [Set] of the
    strings that [deleteRow] adds; [newRows] is a [Set] of numbers. *)
Record webview : Type := {
  rows : list tr;
  modifiedData : obj (obj value);
  deletedRows : list value;
  newRows : list Z
}.

(** [document.querySelector('tr[data-row-index="' + i + '"]')]. *)
Definition query_row (st : webview) (i : string) : option tr :=
  find (fun r => String.eqb (rowIndex r) i) (rows st).

(** [row.querySelector('td[data-column="' + c + '"]')]. *)
Definition query_cell (r : tr) (c : string) : option td :=
  find (fun d => String.eqb (column d) c) (cells r).

(** [set.has(x)] with a number: same-value-zero against the members. *)
Definition has_number (s : list value) (n : option Z) : bool :=
  match n with
  | Some z => existsb (value_eqb (JNum z)) s
  | None => false
  end.

Definition new_has (s : list Z) (n : option Z) : bool :=
  match n with
  | Some z => existsb (Z.eqb z) s
  | None => false
  end.

(** [getRowIdentifier(row)]. *)
Definition getRowIdentifier (ctx : context) (r : tr) : row :=
  match primaryKeys ctx with
  | _ :: _ =>
      fold_left
        (fun identifier key =>
           match query_cell r key with
           | Some cell =>
               let v := trim (textContent cell) in
               set identifier key (JStr (if String.eqb v "NULL" then "" else v))
           | None => identifier
           end)
        (primaryKeys ctx) []
  | [] =>
      fold_left
        (fun identifier cell =>
           if editable cell
           then
             let v := trim (textContent cell) in
             set identifier (column cell)
               (if String.eqb v "NULL" then JNull else JStr v)
           else identifier)
        (cells r)
        [("__rowid", match rowId r with Some i => JStr i | None => JUndef end)]
  end.

(** [value === undefined || value === null ||
    value.toString().trim() === '' || value === 'NULL']. *)
Definition blank (v : option value) : bool :=
  match v with
  | None => true
  | Some JUndef => true
  | Some JNull => true
  | Some (JStr s) => String.eqb (trim s) "" || String.eqb s "NULL"
  | Some (JNum n) => String.eqb (trim (pretty n)) ""
  end.

Definition validateData (ctx : context) (data : row) : list string :=
  flat_map
    (fun col =>
       if (isPrimaryKey col || notNull col) && blank (get data (name col))
       then [name col +:+ " 不能为空"]
       else [])
    (columnsMetadata ctx).

(** [columnsMetadata.find(col => col.name === column)?.notNull]. *)
Definition meta_notNull (ctx : context) (c : string) : bool :=
  match find (fun col => String.eqb (name col) c) (columnsMetadata ctx) with
  | Some col => notNull col
  | None => false
  end.

(** [(!value || value === 'NULL') ? null : value]. *)
Definition null_if_empty (v : value) : value :=
  match v with
  | JStr s => if String.eqb s "" || String.eqb s "NULL" then JNull else v
  | JNum n => if Z.eqb n 0 then JNull else v
  | _ => JNull
  end.

(** The [updateData] built from one entry of [modifiedData]. *)
Definition make_updateData (ctx : context) (r : tr) (columns : obj value) : row :=
  fold_left
    (fun updateData cv =>
       let '(c, v) := cv in
       let isPrimaryKey :=
         match query_cell r c with Some cell => isPk cell | None => false end in
       if isPrimaryKey || meta_notNull ctx c
       then set updateData c v
       else set updateData c (null_if_empty v))
    columns [].

(** The [insertData] read from the cells of an added row. *)
Definition make_insertData (ctx : context) (r : tr) : row :=
  fold_left
    (fun insertData cell =>
       if editable cell
       then
         let v := trim (textContent cell) in
         if isPk cell || meta_notNull ctx (column cell)
         then set insertData (column cell) (JStr v)
         else set insertData (column cell) (null_if_empty (JStr v))
       else insertData)
    (cells r) [].

(** The rows that the update loops of [saveChanges] work on. *)
Definition update_rows (ctx : context) (st : webview) : list (tr * row) :=
  flat_map
    (fun entry =>
       let '(i, columns) := entry in
       if new_has (newRows st) (parseInt i) then []
       else
         match query_row st i with
         | None => []
         | Some r =>
             if has_number (deletedRows st) (parseInt i) then []
             else [(r, make_updateData ctx r columns)]
         end)
    (modifiedData st).

(** The rows that the insert loops of [saveChanges] work on. *)
Definition insert_rows (ctx : context) (st : webview) : list row :=
  flat_map
    (fun i =>
       match query_row st (pretty i) with
       | None => []
       | Some r => [make_insertData ctx r]
       end)
    (newRows st).

Definition delete_rows (st : webview) : list tr :=
  flat_map
    (fun i =>
       match query_row st (to_string i) with
       | None => []
       | Some r => [r]
       end)
    (deletedRows st).

Record updateOp : Type := {
  u_primaryKeyData : row;
  u_updateData : row
}.

(** [message.changes]. *)
Record changes : Type := {
  updates : list updateOp;
  deletes : list row;
  inserts : list row
}.

Definition has_errors (errors : list string) : bool :=
  match errors with
  | [] => false
  | _ => true
  end.

(** [saveChanges()] of the web view: [None] when nothing is posted. *)
Definition saveChanges (ctx : context) (st : webview) : option changes :=
  match modifiedData st, deletedRows st, newRows st with
  | [], [], [] => None
  | _, _, _ =>
      let bad1 :=
        existsb (fun ru => has_errors (validateData ctx (snd ru)))
          (update_rows ctx st) in
      let bad2 :=
        existsb (fun d => has_errors (validateData ctx d))
          (insert_rows ctx st) in
      if bad1 || bad2 then None
      else
        Some {| updates :=
                  map (fun ru =>
                         {| u_primaryKeyData := getRowIdentifier ctx (fst ru);
                            u_updateData := snd ru |})
                    (update_rows ctx st);
                deletes := map (getRowIdentifier ctx) (delete_rows st);
                inserts := insert_rows ctx st |}
  end.

(** ** The message handler *)

Definition null_like (v : value) : bool :=
  match v with
  | JNull => true
  | JStr s => String.eqb s "NULL" || String.eqb s ""
  | _ => false
  end.

Definition quoted_raw (v : value) : string :=
  match v with
  | JStr s => "'" +:+ s +:+ "'"
  | _ => to_string v
  end.

Definition nonempty (s : string) : bool := negb (String.eqb s "").

Definition delete_where (primaryKeyData : row) : string :=
  join " AND "
    (List.filter nonempty
       (map (fun cv =>
               let '(c, v) := cv in
               if null_like v then c +:+ " IS NULL"
               else c +:+ " = " +:+ quoted_raw v)
          primaryKeyData)).

Definition delete_query (ctx : context) (primaryKeyData : row) : option string :=
  let whereConditions := delete_where primaryKeyData in
  if String.eqb whereConditions "" then None
  else Some ("DELETE FROM " +:+ tableName ctx +:+ " WHERE " +:+ whereConditions).

Definition update_where (ctx : context) (pkd : row) : string :=
  join " AND "
    (List.filter nonempty
       (map (fun cv =>
               let '(c, v) := cv in
               if includes (primaryKeys ctx) c
               then c +:+ " = " +:+ quoted_raw v
               else if null_like v then c +:+ " IS NULL"
               else c +:+ " = " +:+ quoted_raw v)
          pkd)).

Definition update_set (ctx : context) (updateData : row) : string :=
  join ", "
    (map (fun cv =>
            let '(c, v) := cv in
            if includes (primaryKeys ctx) c
            then c +:+ " = " +:+ quoted_raw v
            else match v with
                 | JNull => c +:+ " = NULL"
                 | _ => c +:+ " = " +:+ quoted_raw v
                 end)
       updateData).

Definition update_query (ctx : context) (op : updateOp) : string :=
  "UPDATE " +:+ tableName ctx +:+ " SET " +:+ update_set ctx (u_updateData op)
  +:+ " WHERE " +:+ update_where ctx (u_primaryKeyData op).

(** The insert drops the column called [id] and nothing else. *)
Definition insert_columns (insertData : row) : list string :=
  List.filter (fun col => negb (String.eqb col "id")) (keys insertData).

Definition insert_values (ctx : context) (insertData : row) : list string :=
  map (fun cv =>
         let '(c, v) := cv in
         if includes (primaryKeys ctx) c then quoted_raw v
         else match v with
              | JNull => "NULL"
              | _ => quoted_raw v
              end)
    (List.filter (fun cv => negb (String.eqb (fst cv) "id")) insertData).

Definition insert_query (ctx : context) (insertData : row) : string :=
  match insert_columns insertData with
  | [] => "INSERT INTO " +:+ tableName ctx +:+ " DEFAULT VALUES"
  | columns =>
      "INSERT INTO " +:+ tableName ctx +:+ " (" +:+ join ", " columns
      +:+ ") VALUES (" +:+ join ", " (insert_values ctx insertData) +:+ ")"
  end.

Definition select_all (ctx : context) : string :=
  "SELECT * FROM " +:+ tableName ctx +:+ " LIMIT 1000".

Section Handler.
Context {B : backend}.

Definition onSaveChanges (ctx : context) (ch : changes) : M B unit :=
  catch
    (do _ <- for_each (deletes ch)
               (fun primaryKeyData =>
                  match delete_query ctx primaryKeyData with
                  | None => ret tt
                  | Some q => do _ <- invoke (ExecuteQuery q); ret tt
                  end);
     do _ <- for_each (updates ch)
               (fun op =>
                  do _ <- invoke (ExecuteQuery (update_query ctx op)); ret tt);
     do _ <- for_each (inserts ch)
               (fun insertData =>
                  do _ <- invoke (ExecuteQuery (insert_query ctx insertData));
                  ret tt);
     do _ <- postMessage SaveSuccess;
     do result <- invoke (ExecuteQuery (select_all ctx));
     postMessage (UpdateData result))
    (fun error => postMessage (ErrorMessage error)).

Definition save_cycle (ctx : context) (st : webview) : M B unit :=
  match saveChanges ctx st with
  | None => ret tt
  | Some ch => onSaveChanges ctx ch
  end.

End Handler.

(** ** The web view script: what the user's actions do *)

(** [set.add(x)]. *)
Definition set_add (s : list value) (x : value) : list value :=
  if existsb (value_eqb x) s then s else s ++ [x].

(** [row.remove()] for the row that
    [document.querySelector('tr[data-row-index="' + i + '"]')] found. *)
Fixpoint remove_row (i : string) (rs : list tr) : list tr :=
  match rs with
  | [] => []
  | r :: rs' =>
      if String.eqb (rowIndex r) i then rs' else r :: remove_row i rs'
  end.

(** [deleteRow(rowIndex)] once the user has confirmed; [rowIndex] is the
    number written into the button of the row. *)
Definition deleteRow (rowIndex : Z) (st : webview) : webview :=
  match query_row st (pretty rowIndex) with
  | None => st
  | Some row =>
      if new_has (newRows st) (parseInt (pretty rowIndex)) then
        {| rows := remove_row (pretty rowIndex) (rows st);
           modifiedData := modifiedData st;
           deletedRows := deletedRows st;
           newRows :=
             match parseInt (pretty rowIndex) with
             | Some n => List.filter (fun m => negb (Z.eqb m n)) (newRows st)
             | None => newRows st
             end |}
      else
        {| rows := rows st;
           modifiedData := modifiedData st;
           deletedRows :=
             set_add (deletedRows st)
               (JStr (match rowId row with
                      | Some id => if String.eqb id "" then pretty rowIndex else id
                      | None => pretty rowIndex
                      end));
           newRows := newRows st |}
  end.

Definition set_text (d : td) (text : string) : td :=
  {| editable := editable d; column := column d; isPk := isPk d;
     textContent := text |}.

(** [finishEditing(input)] for the input in the cell at position [j] of
    the row at position [p] of the table body; [originalValue] is the
    [data-original-value] of the cell, [inputValue] the text typed in. *)
Definition finishEditing (ctx : context) (p j : nat)
    (originalValue inputValue : string) (st : webview) : webview :=
  match rows st !! p with
  | None => st
  | Some row =>
      match cells row !! j with
      | None => st
      | Some cell =>
          let newValue := trim inputValue in
          let constrained := isPk cell || meta_notNull ctx (column cell) in
          if constrained
             && (String.eqb newValue "" || String.eqb newValue "NULL")
          then st
          else
            let shown :=
              if constrained then newValue
              else if String.eqb newValue "" then "NULL" else newValue in
            let stored :=
              if constrained then JStr newValue
              else if String.eqb newValue "NULL" || String.eqb newValue ""
                   then JNull else JStr newValue in
            {| rows :=
                 <[p := {| rowIndex := rowIndex row; rowId := rowId row;
                           cells := <[j := set_text cell shown]> (cells row) |}]>
                   (rows st);
               modifiedData :=
                 if String.eqb newValue originalValue then modifiedData st
                 else
                   set (modifiedData st) (rowIndex row)
                     (set (match get (modifiedData st) (rowIndex row) with
                           | Some columns => columns
                           | None => []
                           end)
                        (column cell) stored);
               deletedRows := deletedRows st;
               newRows := newRows st |}
      end
  end.

End ExtensionPrev.

(* ===================================================================== *)
(** * The profile store (ConfigManager.ts) *)
(* ===================================================================== *)

Module ConfigManager.
Import JS.

Inductive DatabaseType : Type := mysql | sqlite | mongodb | oracle | unsupported.

(** [DatabaseConfig]: every field holds a primitive, so a spread copy
    [{ ...config }] shares nothing with the original. *)
Record DatabaseConfig : Type := {
  type : DatabaseType;
  alias : string;
  host : option string;
  port : option Z;
  username : option string;
  password : option string;
  database : option string;
  filename : option string;
  connectionString : option string;
  sid : option string;
  serviceName : option string
}.

(** Objects live in a heap and are passed by reference. *)
Abbreviation loc := positive.
Abbreviation heap := (gmap loc DatabaseConfig).

(** [{ ...config }]: a new object with the same fields. *)
Definition spread (h : heap) (c : DatabaseConfig) : loc * heap :=
  let l := fresh (dom h) in (l, <[l := c]> h).

(** An assignment to fields of the object at [l]. *)
Definition mutate (l : loc) (f : DatabaseConfig -> DatabaseConfig) (h : heap) : heap :=
  alter f l h.

(** The manager: [configs] is the [Map] from id to (a reference to) a
    profile, in insertion order; [persisted] is the content of the
    configuration file, as the last write that succeeded left it. *)
Record manager : Type := {
  configs : obj loc;
  persisted : list DatabaseConfig
}.

Definition empty : manager := {| configs := []; persisted := [] |}.

Definition type_name (t : DatabaseType) : string :=
  match t with
  | mysql => "mysql"
  | sqlite => "sqlite"
  | mongodb => "mongodb"
  | oracle => "oracle"
  | unsupported => "unsupported"
  end.

(** [s || t] on optional strings: the empty string is falsy. *)
Definition or_else (s : option string) (t : string) : string :=
  match s with
  | Some x => if String.eqb x "" then t else x
  | None => t
  end.

(** [generateConnectionId(config)], with [Date.now()] as [timestamp]. *)
Definition generateConnectionId (timestamp : Z) (c : DatabaseConfig) : string :=
  type_name (type c) +:+ "-" +:+ or_else (host c) (or_else (filename c) "")
  +:+ "-" +:+ or_else (database c) "" +:+ "-" +:+ pretty timestamp.

(** [saveConfigs()]: [writeFile] is handed the profiles by value, as they
    are when [saveConfigs] is called.  [write] is what becomes of
    [writeFile]: it is done, or it throws; then [saveConfigs] shows the
    error to the user and throws it again, and the file is as it was.
    Writes that were started one after the other are taken to settle in
    that order.  (In the earlier variant of the class the write is
    synchronous, so that a failed write throws out of [addConfig] and
    [updateConfig] as well, after the map was changed; with a write that
    succeeds the two variants do the same.) *)
Definition saveConfigs (write : outcome unit) (m : manager) (h : heap)
    : outcome unit * manager :=
  match write with
  | Done _ =>
      (Done tt,
       {| configs := configs m;
          persisted := omap (fun kv => h !! snd kv) (configs m) |})
  | Thrown error => (Thrown error, m)
  end.

(** [addConfig(config)]; [None] only for a reference to no object.  The
    call [this.saveConfigs()] is not awaited: the id is returned whatever
    becomes of the write, and an error of [saveConfigs] reaches no caller.
    [persisted] of the result is the file once that write has settled. *)
Definition addConfig (write : outcome unit) (timestamp : Z) (config : loc)
    (m : manager) (h : heap) : option (string * manager * heap) :=
  match h !! config with
  | None => None
  | Some c =>
      let id := generateConnectionId timestamp c in
      let '(copy, h') := spread h c in
      Some (id,
            snd (saveConfigs write
                   {| configs := set (configs m) id copy;
                      persisted := persisted m |} h'),
            h')
  end.

Definition remove_key {V} (k : string) (o : obj V) : obj V :=
  List.filter (fun kv => negb (String.eqb (fst kv) k)) o.

(** [removeConfig(id)]: the entry is deleted first, then the write is
    awaited; when the write throws, [removeConfig] throws an error of its
    own, with the entry already gone from the map. *)
Definition removeConfig (write : outcome unit) (id : string) (m : manager)
    (h : heap) : outcome bool * manager :=
  match get (configs m) id with
  | Some _ =>
      match saveConfigs write
              {| configs := remove_key id (configs m);
                 persisted := persisted m |} h with
      | (Done _, m') => (Done true, m')
      | (Thrown _, m') => (Thrown "删除配置保存失败", m')
      end
  | None => (Done false, m)
  end.

(** [updateConfig(id, config)]; the write is not awaited, as in
    [addConfig]. *)
Definition updateConfig (write : outcome unit) (id : string) (config : loc)
    (m : manager) (h : heap) : option (bool * manager * heap) :=
  match h !! config with
  | None => None
  | Some c =>
      match get (configs m) id with
      | Some _ =>
          let '(copy, h') := spread h c in
          Some (true,
                snd (saveConfigs write
                       {| configs := set (configs m) id copy;
                          persisted := persisted m |} h'),
                h')
      | None => Some (false, m, h)
      end
  end.

(** [getConfig(id)]: a copy of the stored profile, or [undefined]. *)
Definition getConfig (id : string) (m : manager) (h : heap) : option loc * heap :=
  match get (configs m) id with
  | Some l =>
      match h !! l with
      | Some c => let '(copy, h') := spread h c in (Some copy, h')
      | None => (None, h)
      end
  | None => (None, h)
  end.

(** [getAllConfigs()]: a new [Map] holding a copy of every profile. *)
Fixpoint copy_all (entries : obj loc) (h : heap) : obj loc * heap :=
  match entries with
  | [] => ([], h)
  | (id, l) :: rest =>
      match h !! l with
      | Some c =>
          let '(copy, h1) := spread h c in
          let '(configsCopy, h2) := copy_all rest h1 in
          ((id, copy) :: configsCopy, h2)
      | None => copy_all rest h
      end
  end.

Definition getAllConfigs (m : manager) (h : heap) : obj loc * heap :=
  copy_all (configs m) h.

(** The profile stored under [id], by value. *)
Definition stored (m : manager) (h : heap) (id : string) : option DatabaseConfig :=
  match get (configs m) id with
  | Some l => h !! l
  | None => None
  end.

(** Every stored reference points to an object. *)
Definition allocated (m : manager) (h : heap) : Prop :=
  forall id l, In (id, l) (configs m) -> is_Some (h !! l).

(** [loadConfigs()].  [file] is the [configs] array parsed from the
    file, [None] when reading or parsing throws; [clock i] is what
    [Date.now()] answers for the profile at index [i].  Each parsed profile
    is a new object, put into the map as it is under an id generated at
    load time.  On a failure the map is cleared. *)
Fixpoint load_all (entries : list DatabaseConfig) (i : nat) (clock : nat -> Z)
    (cfgs : obj loc) (h : heap) : obj loc * heap :=
  match entries with
  | [] => (cfgs, h)
  | config :: rest =>
      let '(l, h') := spread h config in
      load_all rest (S i) clock
        (set cfgs (generateConnectionId (clock i) config) l) h'
  end.

Definition loadConfigs (file : option (list DatabaseConfig)) (clock : nat -> Z)
    (m : manager) (h : heap) : manager * heap :=
  match file with
  | Some entries =>
      let '(cfgs, h') := load_all entries 0 clock [] h in
      ({| configs := cfgs; persisted := persisted m |}, h')
  | None => ({| configs := []; persisted := persisted m |}, h)
  end.

End ConfigManager.

(* ===================================================================== *)
(** * The connection registry (DatabaseManager.ts) *)
(* ===================================================================== *)

Module DatabaseManager.
Import JS ConfigManager.

(** A live adapter handle: the driver object that [connect] obtained. *)
Record handle : Type := {
  driver : DatabaseType;
  serial : nat
}.

(** The registry with the profile store it delegates to; [objects] is the
    heap of profile objects. *)
Record registry : Type := {
  connections : gmap string handle;
  connectionStatus : gmap string bool;
  configManager : manager;
  objects : heap
}.

Definition init : registry :=
  {| connections := ∅; connectionStatus := ∅;
     configManager := ConfigManager.empty; objects := ∅ |}.

(** [isConnected(connectionId)]. *)
Definition isConnected (r : registry) (connectionId : string) : bool :=
  match connectionStatus r !! connectionId with
  | Some true => true
  | _ => false
  end.

Definition getConnections (r : registry) : list string :=
  map fst (map_to_list (connections r)).

(** [!s] on an optional string, [!n] on an optional number. *)
Definition missing (s : option string) : bool :=
  match s with
  | Some x => String.eqb x ""
  | None => true
  end.

Definition missing_num (n : option Z) : bool :=
  match n with
  | Some x => Z.eqb x 0
  | None => true
  end.

(** The checks that [connect] makes before it reaches the driver; the
    result is the message of the error thrown, if any. *)
Definition config_error (c : DatabaseConfig) : option string :=
  match type c with
  | mysql =>
      if missing (host c) || missing (username c) || missing (password c)
         || missing (database c) || missing_num (port c)
      then Some "MySQL连接配置不完整" else None
  | sqlite =>
      if missing (filename c) then Some "SQLite连接配置不完整" else None
  | mongodb =>
      if missing (host c) || missing_num (port c)
      then Some "MongoDB连接配置不完整" else None
  | oracle =>
      if (missing (host c) || missing_num (port c) || missing (username c)
          || missing (password c)) && missing (connectionString c)
      then Some "Oracle连接配置不完整"
      else if negb (missing (connectionString c)) then None
      else if negb (missing (sid c)) then None
      else if negb (missing (serviceName c)) then None
      else Some "Oracle连接需要提供SID或ServiceName"
  | unsupported => Some "不支持的数据库类型"
  end.

(** [connect(configOrId)].  [timestamp] is [Date.now()]; [dial] is the
    answer of the driver, should it be reached: the handle, or [None] when
    it throws. *)
Definition connect (configOrId : loc + string) (timestamp : Z)
    (dial : option handle) (r : registry) : outcome bool * registry :=
  let resolved :=
    match configOrId with
    | inr connectionId =>
        match getConfig connectionId (configManager r) (objects r) with
        | (Some configObj, h') =>
            match h' !! configObj with
            | Some config => inr (connectionId, config, h')
            | None => inl ("未找到数据库配置", h')
            end
        | (None, h') => inl ("未找到数据库配置", h')
        end
    | inl config_ref =>
        match objects r !! config_ref with
        | Some config =>
            inr (generateConnectionId timestamp config, config, objects r)
        | None => inl ("未找到数据库配置", objects r)
        end
    end in
  match resolved with
  | inl (msg, h') =>
      (Thrown msg,
       {| connections := connections r;
          connectionStatus := connectionStatus r;
          configManager := configManager r; objects := h' |})
  | inr (connectionId, config, h') =>
      let r' := {| connections := connections r;
                   connectionStatus := connectionStatus r;
                   configManager := configManager r; objects := h' |} in
      match config_error config with
      | Some msg => (Thrown msg, r')
      | None =>
          match dial with
          | None => (Thrown "连接失败", r')
          | Some connection =>
              (Done true,
               {| connections := <[connectionId := connection]> (connections r);
                  connectionStatus := <[connectionId := true]> (connectionStatus r);
                  configManager := configManager r; objects := h' |})
          end
      end
  end.

(** The last step of [disconnect], after the driver closed the handle. *)
Definition forget (connectionId : string) (r : registry) : registry :=
  {| connections := delete connectionId (connections r);
     connectionStatus := <[connectionId := false]> (connectionStatus r);
     configManager := configManager r; objects := objects r |}.

(** [disconnect(connectionId)]; [closed] tells whether the driver closed
    the handle or threw (the error is shown and swallowed). *)
Definition disconnect (connectionId : string) (closed : bool) (r : registry)
    : registry :=
  match connections r !! connectionId with
  | None => r
  | Some _ => if closed then forget connectionId r else r
  end.

(** [removeConfig(connectionId)]: the disconnect is awaited, then the
    answer of the store is the answer, a thrown error included. *)
Definition removeConfig (connectionId : string) (closed : bool)
    (write : outcome unit) (r : registry) : outcome bool * registry :=
  let r1 := disconnect connectionId closed r in
  let '(removed, m') :=
    ConfigManager.removeConfig write connectionId (configManager r1)
      (objects r1) in
  (removed,
   {| connections := connections r1; connectionStatus := connectionStatus r1;
      configManager := m'; objects := objects r1 |}).

(** [updateConfig(connectionId, config)]: the disconnect is started, not
    awaited; it touches the two connection maps only, the profile update
    the store only, so the order of the two does not show. *)
Definition updateConfig (connectionId : string) (config : loc) (closed : bool)
    (write : outcome unit) (r : registry) : outcome bool * registry :=
  let r1 := disconnect connectionId closed r in
  match ConfigManager.updateConfig write connectionId config
          (configManager r1) (objects r1) with
  | Some (updated, m', h') =>
      (Done updated,
       {| connections := connections r1;
          connectionStatus := connectionStatus r1;
          configManager := m'; objects := h' |})
  | None => (Thrown "config", r1)
  end.

(** [addConfig(config)]. *)
Definition addConfig (timestamp : Z) (config : loc) (write : outcome unit)
    (r : registry) : outcome string * registry :=
  match ConfigManager.addConfig write timestamp config
          (configManager r) (objects r) with
  | Some (id, m', h') =>
      (Done id,
       {| connections := connections r; connectionStatus := connectionStatus r;
          configManager := m'; objects := h' |})
  | None => (Thrown "config", r)
  end.

(** [ensureConnected(connectionId)]. *)
Definition ensureConnected (connectionId : string) (timestamp : Z)
    (dial : option handle) (r : registry) : outcome bool * registry :=
  match connectionStatus r !! connectionId with
  | Some true => (Done true, r)
  | _ => connect (inr connectionId) timestamp dial r
  end.

(** The checks of [testConnection(config)], as the method writes them out
    again; its [switch] has no [default] branch. *)
Definition test_error (c : DatabaseConfig) : option string :=
  match type c with
  | mysql =>
      if missing (host c) || missing (username c) || missing (password c)
         || missing (database c) || missing_num (port c)
      then Some "MySQL连接配置不完整" else None
  | sqlite =>
      if missing (filename c) then Some "SQLite连接配置不完整" else None
  | mongodb =>
      if missing (host c) || missing_num (port c)
      then Some "MongoDB连接配置不完整" else None
  | oracle =>
      if (missing (host c) || missing_num (port c) || missing (username c)
          || missing (password c)) && missing (connectionString c)
      then Some "Oracle连接配置不完整"
      else if negb (missing (connectionString c)) then None
      else if negb (missing (sid c)) then None
      else if negb (missing (serviceName c)) then None
      else Some "Oracle连接需要提供SID或ServiceName"
  | unsupported => None
  end.

(** [testConnection(config)]: opens a connection and closes it at once;
    [answers] tells whether the driver did both without throwing.  For a
    type outside the four cases no driver is reached.  The registry is
    not touched. *)
Definition testConnection (config : loc) (answers : bool) (r : registry)
    : outcome bool :=
  match objects r !! config with
  | None => Thrown "config"
  | Some c =>
      match test_error c with
      | Some msg => Thrown msg
      | None =>
          match type c with
          | unsupported => Done true
          | _ => if answers then Done true else Thrown "连接失败"
          end
      end
  end.

(** The first lines of [executeQuery] and of [getMongoConnection]: both a
    handle and a profile must be there. *)
Definition lookup_connection (connectionId : string) (r : registry)
    : outcome (handle * DatabaseConfig) * registry :=
  match getConfig connectionId (configManager r) (objects r) with
  | (config, h') =>
      let r' := {| connections := connections r;
                   connectionStatus := connectionStatus r;
                   configManager := configManager r; objects := h' |} in
      match connections r !! connectionId,
            match config with Some l => h' !! l | None => None end with
      | Some connection, Some c => (Done (connection, c), r')
      | _, _ => (Thrown "未找到数据库连接", r')
      end
  end.

(** [getMongoConnection(connectionId, databaseName)]: the client and the
    name of the database it is asked for. *)
Definition getMongoConnection (connectionId : string)
    (databaseName : option string) (r : registry)
    : outcome (handle * option string) * registry :=
  match lookup_connection connectionId r with
  | (Done (client, c), r') =>
      match type c with
      | mongodb =>
          (Done (client,
                 if missing databaseName then database c else databaseName), r')
      | _ => (Thrown "不是 MongoDB 连接", r')
      end
  | (Thrown msg, r') => (Thrown msg, r')
  end.

(** What can happen to the registry.  [DisconnectCompletes] is the tail of
    a [disconnect] that was started earlier and whose driver call has now
    returned: operations interleave at their [await]s only. *)
Inductive event : Type :=
| Connect (configOrId : loc + string) (timestamp : Z) (dial : option handle)
| Disconnect (connectionId : string) (closed : bool)
| DisconnectCompletes (connectionId : string)
| RemoveConfig (connectionId : string) (closed : bool) (write : outcome unit)
| UpdateConfig (connectionId : string) (config : loc) (closed : bool)
    (write : outcome unit)
| AddConfig (timestamp : Z) (config : loc) (write : outcome unit)
| EnsureConnected (connectionId : string) (timestamp : Z) (dial : option handle)
| NewObject (c : DatabaseConfig).

Definition step (r : registry) (e : event) : registry :=
  match e with
  | Connect t now dial => snd (connect t now dial r)
  | Disconnect id closed => disconnect id closed r
  | DisconnectCompletes id => forget id r
  | RemoveConfig id closed write => snd (removeConfig id closed write r)
  | UpdateConfig id c closed write => snd (updateConfig id c closed write r)
  | AddConfig now c write => snd (addConfig now c write r)
  | EnsureConnected id now dial => snd (ensureConnected id now dial r)
  | NewObject c =>
      {| connections := connections r; connectionStatus := connectionStatus r;
         configManager := configManager r;
         objects := snd (spread (objects r) c) |}
  end.

Definition run (events : list event) (r : registry) : registry :=
  fold_left step events r.

(** ** MongoDB commands in [executeQuery] *)

(** A parsed JSON text. *)
#[local] Unset Elimination Schemes.
Inductive json : Type :=
| JsNull
| JsBool (b : bool)
| JsNumber (n : Z)
| JsString (s : string)
| JsArray (items : list json)
| JsObject (fields : list (string * json)).
#[local] Set Elimination Schemes.

Definition json_truthy (j : json) : bool :=
  match j with
  | JsNull => false
  | JsBool b => b
  | JsNumber n => negb (Z.eqb n 0)
  | JsString s => negb (String.eqb s "")
  | JsArray _ => true
  | JsObject _ => true
  end.

(** [params[i] || dflt]. *)
Definition param_or (params : list json) (i : nat) (dflt : json) : json :=
  match nth_error params i with
  | Some j => if json_truthy j then j else dflt
  | None => dflt
  end.

Definition to_lower (c : ascii) : ascii :=
  let n := nat_of_ascii c in
  if Nat.leb 65 n && Nat.leb n 90 then ascii_of_nat (n + 32) else c.

(** A literal of the pattern against the text, under the [i] flag. *)
Fixpoint starts_with_ci (p s : string) : bool :=
  match p with
  | EmptyString => true
  | String a p' =>
      match s with
      | EmptyString => false
      | String b s' =>
          Ascii.eqb (to_lower a) (to_lower b) && starts_with_ci p' s'
      end
  end.

(** The longest prefix without a dot, and what follows it. *)
Fixpoint span_not_dot (s : string) : string * string :=
  match s with
  | EmptyString => (EmptyString, EmptyString)
  | String c s' =>
      if Ascii.eqb c "."%char then (EmptyString, s)
      else let '(a, b) := span_not_dot s' in (String c a, b)
  end.

Definition supportedOperations : list string :=
  ["find"; "insertOne"; "insertMany"; "updateOne"; "updateMany";
   "deleteOne"; "deleteMany"].

(** The pattern
    [db\.([^\.]+)\.(find|insertOne|insertMany|updateOne|updateMany|deleteOne|deleteMany)]
    with the [i] flag, tried at the start of [s]: the two groups. *)
Definition match_here (s : string) : option (string * string) :=
  if starts_with_ci "db." s then
    let '(collection, rest) := span_not_dot (skip 3 s) in
    match collection, rest with
    | String _ _, String _ after_dot =>
        match find (fun op => starts_with_ci op after_dot) supportedOperations with
        | Some op => Some (collection, substring 0 (String.length op) after_dot)
        | None => None
        end
    | _, _ => None
    end
  else None.

(** [cleanQuery.match(...)]: the leftmost position where the pattern
    matches. *)
Fixpoint collectionMatch (s : string) : option (string * string) :=
  match match_here s with
  | Some groups => Some groups
  | None =>
      match s with
      | EmptyString => None
      | String _ s' => collectionMatch s'
      end
  end.

(** The parse by hand that the code tries when the pattern did not match. *)
Definition manual_parse (cleanQuery : string) : option (string * string) :=
  if starts_with "db." cleanQuery then
    let afterPrefix := skip 3 cleanQuery in
    match index_of "." afterPrefix with
    | Some (S d) =>
        let dotIndex := S d in
        let possibleCollection := substring 0 dotIndex afterPrefix in
        let afterCollection := skip (dotIndex + 1) afterPrefix in
        match index_of "(" afterCollection with
        | Some (S e) =>
            let possibleOperation := substring 0 (S e) afterCollection in
            if includes supportedOperations possibleOperation
            then Some (possibleCollection, possibleOperation)
            else None
        | _ => None
        end
    | _ => None
    end
  else None.

Inductive operation : Type :=
| find_ | insertOne | insertMany | updateOne | updateMany | deleteOne | deleteMany.

(** The [switch (operation)]: the text must be one of the seven names as
    they are spelled. *)
Definition operation_of (text : string) : option operation :=
  if String.eqb text "find" then Some find_
  else if String.eqb text "insertOne" then Some insertOne
  else if String.eqb text "insertMany" then Some insertMany
  else if String.eqb text "updateOne" then Some updateOne
  else if String.eqb text "updateMany" then Some updateMany
  else if String.eqb text "deleteOne" then Some deleteOne
  else if String.eqb text "deleteMany" then Some deleteMany
  else None.

(** What [executeQuery] does with a MongoDB command: a driver call on a
    collection, or an error thrown before any call. *)
Inductive dispatch : Type :=
| Call (collection : string) (op : operation) (args : list json)
| Invalid (msg : string).

Section Mongo.
(** [JSON.parse]: [None] when it throws. *)
Context (JSON_parse : string -> option json).

(** The text between the parentheses, trimmed; [None] when the
    parentheses are not found. *)
Definition paramsStr (cleanQuery operation_text : string) : option string :=
  let startIndex :=
    match index_of operation_text cleanQuery with
    | Some i =>
        match index_of_from "(" cleanQuery i with
        | Some j => j + 1
        | None => 0
        end
    | None =>
        match index_of "(" cleanQuery with
        | Some j => j + 1
        | None => 0
        end
    end in
  match last_index_of ")"%char cleanQuery with
  | Some endIndex =>
      if Nat.ltb 0 startIndex && Nat.ltb startIndex endIndex
      then Some (trim (substring startIndex endIndex cleanQuery))
      else None
  | None => None
  end.

(** The [params] array. *)
Definition parse_params (cleanQuery operation_text : string) : list json :=
  match paramsStr cleanQuery operation_text with
  | Some text =>
      if String.eqb text "" then [JsObject []]
      else if negb (starts_with "[" text) && negb (includes_str "},{" text) then
        match JSON_parse text with
        | Some j => [j]
        | None => [JsObject []]
        end
      else if includes_str "},{" text then
        let '(part0, part1) := split2 "},{" text in
        match JSON_parse (part0 +:+ "}") with
        | Some j0 =>
            match JSON_parse ("{" +:+ part1) with
            | Some j1 => [j0; j1]
            | None => [j0; JsObject []; JsObject []]
            end
        | None => [JsObject []; JsObject []]
        end
      else if starts_with "[" text then
        match JSON_parse text with
        | Some j => [j]
        | None => [JsArray []]
        end
      else []
  | None => [JsObject []]
  end.

(** The arguments that each driver method receives. *)
Definition arguments (op : operation) (params : list json) : list json :=
  match op with
  | find_ => [param_or params 0 (JsObject []); param_or params 1 (JsObject [])]
  | insertOne => [param_or params 0 (JsObject [])]
  | insertMany => [param_or params 0 (JsArray [])]
  | updateOne => [param_or params 0 (JsObject []); param_or params 1 (JsObject [])]
  | updateMany => [param_or params 0 (JsObject []); param_or params 1 (JsObject [])]
  | deleteOne => [param_or params 0 (JsObject [])]
  | deleteMany => [param_or params 0 (JsObject [])]
  end.

Definition run_command (cleanQuery collectionName operation_text : string)
    : dispatch :=
  match operation_of operation_text with
  | Some op =>
      Call collectionName op
        (arguments op (parse_params cleanQuery operation_text))
  | None => Invalid ("不支持的MongoDB操作: " +:+ operation_text)
  end.

(** The MongoDB branch of [executeQuery(connectionId, query)]. *)
Definition executeMongo (query : string) : dispatch :=
  let cleanQuery := collapse_spaces (trim query) in
  match collectionMatch cleanQuery with
  | Some (collectionName, operation_text) =>
      run_command cleanQuery collectionName operation_text
  | None =>
      match manual_parse cleanQuery with
      | Some (collectionName, operation_text) =>
          run_command cleanQuery collectionName operation_text
      | None => Invalid "无效的MongoDB查询"
      end
  end.

End Mongo.

End DatabaseManager.

(* ===================================================================== *)
(** * The adapter service (DatabaseServiceImpl) *)
(* ===================================================================== *)

Module DatabaseServiceImpl.
Import JS.

Definition maxRetries : nat := 3.
Definition retryDelay : Z := 1000.

(** What a run of the service does that can be observed from outside:
    an attempt to open the transport, a warning or an error shown to the
    user, a timer of so many milliseconds, a query handed to the driver. *)
Inductive action : Type :=
| Open (attempt : nat)
| ShowWarning (attempt : nat)
| ShowError (attempt : nat)
| Sleep (ms : Z)
| DriverQuery (q : string).

Section Service.
(** The driver: [open n] tells whether the body of the [try] of attempt
    [n] got a connection or threw; the handle is a number. *)
Context (open : nat -> option nat).

(** The service: the connection ids it holds. *)
Abbreviation connections := (gmap string nat).

(** The [for] loop of [connect], entered at [attempt] with [remaining]
    iterations to go before [attempt] exceeds [maxRetries]. *)
Fixpoint connect_loop (remaining attempt : nat) (connectionId : string)
    (conns : connections) : bool * connections * list action :=
  match remaining with
  | O => (false, conns, [])
  | S remaining' =>
      match open attempt with
      | Some connection =>
          (true, <[connectionId := connection]> conns, [Open attempt])
      | None =>
          if Nat.eqb attempt maxRetries
          then (false, conns, [Open attempt; ShowError attempt])
          else
            let '(ok, conns', trace) :=
              connect_loop remaining' (S attempt) connectionId conns in
            (ok, conns',
             Open attempt :: ShowWarning attempt :: Sleep retryDelay :: trace)
      end
  end.

(** [connect(config)], for the connection id of [config]. *)
Definition connect (connectionId : string) (conns : connections)
    : bool * connections * list action :=
  connect_loop maxRetries 1 connectionId conns.

(** [executeQuery(connectionId, query)]: [run q] is the driver's answer,
    [None] when it throws. *)
Definition executeQuery (run : string -> option (list (obj value)))
    (connectionId query : string) (conns : connections)
    : outcome (list (obj value)) * list action :=
  match conns !! connectionId with
  | None => (Thrown "未找到数据库连接", [])
  | Some _ =>
      match run query with
      | Some rows => (Done rows, [DriverQuery query])
      | None => (Thrown "查询执行失败", [DriverQuery query])
      end
  end.

End Service.

(** The MongoDB branch of [executeQuery]: the pattern
    [db\.(\w+)\.find] is searched in the query as it is, and the
    collection found is read with [find({})], whatever the query gives as
    argument. *)
Definition is_word (c : ascii) : bool :=
  let n := nat_of_ascii c in
  (Nat.leb 48 n && Nat.leb n 57) || (Nat.leb 65 n && Nat.leb n 90)
  || (Nat.leb 97 n && Nat.leb n 122) || Nat.eqb n 95.

Fixpoint span_word (s : string) : string * string :=
  match s with
  | EmptyString => (EmptyString, EmptyString)
  | String c s' =>
      if is_word c
      then let '(a, b) := span_word s' in (String c a, b)
      else (EmptyString, s)
  end.

Definition match_find_here (s : string) : option string :=
  if starts_with "db." s then
    let '(collectionName, rest) := span_word (skip 3 s) in
    match collectionName with
    | EmptyString => None
    | _ => if starts_with ".find" rest then Some collectionName else None
    end
  else None.

(** The collection whose documents are returned; [None] when the query
    is refused as invalid. *)
Fixpoint mongo_find (query : string) : option string :=
  match match_find_here query with
  | Some collectionName => Some collectionName
  | None =>
      match query with
      | EmptyString => None
      | String _ rest => mongo_find rest
      end
  end.

Definition opens (trace : list action) : list nat :=
  flat_map (fun a => match a with Open n => [n] | _ => [] end) trace.

Definition sleeps (trace : list action) : list Z :=
  flat_map (fun a => match a with Sleep ms => [ms] | _ => [] end) trace.

Definition queries (trace : list action) : list string :=
  flat_map (fun a => match a with DriverQuery q => [q] | _ => [] end) trace.

(** ** Transactions *)

(** The two maps of the service: the connections it holds and, for the
    connections with a transaction under way, the object the transaction
    is ended on (the connection itself or a session of it). *)
Record service : Type := {
  held : gmap string nat;
  transactionConnections : gmap string nat
}.

(** What the driver is asked. *)
Inductive request : Type :=
| Begin (connection : nat)
| Commit (transaction : nat)
| Rollback (transaction : nat)
| Close (connection : nat).

(** [isConnected(connectionId)]. *)
Definition isConnected (s : service) (connectionId : string) : bool :=
  match held s !! connectionId with
  | Some _ => true
  | None => false
  end.

(** [beginTransaction(connectionId)]; [driver] is the answer of the
    driver: the transaction object, or the error it throws. *)
Definition beginTransaction (driver : outcome nat) (connectionId : string)
    (s : service) : outcome unit * service * list request :=
  match held s !! connectionId with
  | None => (Thrown "未找到数据库连接", s, [])
  | Some connection =>
      match driver with
      | Done transaction =>
          (Done tt,
           {| held := held s;
              transactionConnections :=
                <[connectionId := transaction]> (transactionConnections s) |},
           [Begin connection])
      | Thrown msg => (Thrown ("开始事务失败: " +:+ msg), s, [Begin connection])
      end
  end.

(** [commitTransaction(connectionId)]. *)
Definition commitTransaction (driver : outcome unit) (connectionId : string)
    (s : service) : outcome unit * service * list request :=
  match transactionConnections s !! connectionId with
  | None => (Thrown "未找到活动事务", s, [])
  | Some transaction =>
      match driver with
      | Done _ =>
          (Done tt,
           {| held := held s;
              transactionConnections :=
                delete connectionId (transactionConnections s) |},
           [Commit transaction])
      | Thrown msg => (Thrown ("提交事务失败: " +:+ msg), s, [Commit transaction])
      end
  end.

(** [rollbackTransaction(connectionId)]. *)
Definition rollbackTransaction (driver : outcome unit) (connectionId : string)
    (s : service) : outcome unit * service * list request :=
  match transactionConnections s !! connectionId with
  | None => (Thrown "未找到活动事务", s, [])
  | Some transaction =>
      match driver with
      | Done _ =>
          (Done tt,
           {| held := held s;
              transactionConnections :=
                delete connectionId (transactionConnections s) |},
           [Rollback transaction])
      | Thrown msg => (Thrown ("回滚事务失败: " +:+ msg), s, [Rollback transaction])
      end
  end.

(** [disconnect(connectionId)]; a failure of the driver is shown to the
    user and swallowed. *)
Definition disconnect (driver : outcome unit) (connectionId : string)
    (s : service) : service * list request :=
  match held s !! connectionId with
  | None => (s, [])
  | Some connection =>
      match driver with
      | Done _ =>
          ({| held := delete connectionId (held s);
              transactionConnections := transactionConnections s |},
           [Close connection])
      | Thrown _ => (s, [Close connection])
      end
  end.

End DatabaseServiceImpl.

(* ===================================================================== *)
(** * Sample tables and edits *)
(* ===================================================================== *)

Module Samples.
Import JS Backend.

(** A backend that answers every call with the same rows and never
    changes. *)
Definition always (rows : list row) : backend :=
  {| db := unit; exec := fun (_ : unit) (_ : call) => @Return unit tt rows |}.

Definition start (rows : list row) : world (always rows) :=
  @World (always rows) tt [] [].

(** [users(name PRIMARY KEY)], one row, its name edited. *)
Definition people : Extension.context :=
  {| Extension.is_mongodb := false;
     Extension.tableName := "users";
     Extension.primaryKeys := ["name"];
     Extension.columnsMetadata :=
       [{| Extension.name := "name"; Extension.notNull := true;
           Extension.isPrimaryKey := true |}] |}.

(** [users(id PRIMARY KEY, name)]. *)
Definition people_by_id : Extension.context :=
  {| Extension.is_mongodb := false;
     Extension.tableName := "users";
     Extension.primaryKeys := ["id"];
     Extension.columnsMetadata :=
       [{| Extension.name := "id"; Extension.notNull := true;
           Extension.isPrimaryKey := true |};
        {| Extension.name := "name"; Extension.notNull := false;
           Extension.isPrimaryKey := false |}] |}.

Definition rename_edit : Extension.webview :=
  {| Extension.modifiedData := [("0", [("name", "O'Brien")])];
     Extension.deletedRows := [];
     Extension.newRows := [];
     Extension.newRowElements := [] |}.


Definition no_edit : Extension.webview :=
  {| Extension.modifiedData := [];
     Extension.deletedRows := [];
     Extension.newRows := [];
     Extension.newRowElements := [] |}.

(** [notes(title, body)] without a primary key, first row deleted. *)
Definition notes : Extension.context :=
  {| Extension.is_mongodb := false;
     Extension.tableName := "notes";
     Extension.primaryKeys := [];
     Extension.columnsMetadata :=
       [{| Extension.name := "title"; Extension.notNull := false;
           Extension.isPrimaryKey := false |};
        {| Extension.name := "body"; Extension.notNull := false;
           Extension.isPrimaryKey := false |}] |}.

Definition delete_first : Extension.webview :=
  {| Extension.modifiedData := [];
     Extension.deletedRows := ["0"];
     Extension.newRows := [];
     Extension.newRowElements := [] |}.

Definition notes_rows : list row :=
  [[("title", JStr "a"); ("body", JNull)]].

(** The same two tables in the earlier editor. *)
Definition prev_users : ExtensionPrev.context :=
  {| ExtensionPrev.tableName := "users";
     ExtensionPrev.primaryKeys := ["id"];
     ExtensionPrev.columnsMetadata :=
       [{| ExtensionPrev.name := "id"; ExtensionPrev.notNull := true;
           ExtensionPrev.isPrimaryKey := true |};
        {| ExtensionPrev.name := "name"; ExtensionPrev.notNull := false;
           ExtensionPrev.isPrimaryKey := false |}] |}.

Definition data_cell (c : string) (pk : bool) (text : string) : ExtensionPrev.td :=
  {| ExtensionPrev.editable := true; ExtensionPrev.column := c;
     ExtensionPrev.isPk := pk; ExtensionPrev.textContent := text |}.

Definition action_cell : ExtensionPrev.td :=
  {| ExtensionPrev.editable := false; ExtensionPrev.column := "";
     ExtensionPrev.isPk := false; ExtensionPrev.textContent := "删除" |}.

(** A row added in the editor with id [5] and name [x] typed in. *)
Definition prev_added_row : ExtensionPrev.webview :=
  {| ExtensionPrev.rows :=
       [{| ExtensionPrev.rowIndex := "0"; ExtensionPrev.rowId := None;
           ExtensionPrev.cells :=
             [data_cell "id" true "5"; data_cell "name" false "x"; action_cell] |}];
     ExtensionPrev.modifiedData := [("0", [("id", JStr "5"); ("name", JStr "x")])];
     ExtensionPrev.deletedRows := [];
     ExtensionPrev.newRows := [0%Z] |}.


Definition prev_notes : ExtensionPrev.context :=
  {| ExtensionPrev.tableName := "notes";
     ExtensionPrev.primaryKeys := [];
     ExtensionPrev.columnsMetadata :=
       [{| ExtensionPrev.name := "title"; ExtensionPrev.notNull := false;
           ExtensionPrev.isPrimaryKey := false |}] |}.

Definition note_row (i rid title : string) : ExtensionPrev.tr :=
  {| ExtensionPrev.rowIndex := i; ExtensionPrev.rowId := Some rid;
     ExtensionPrev.cells := [data_cell "title" false title; action_cell] |}.

(** Two rows whose [data-row-id] is the [__rowid] the backend numbered
    them with, from 1; the first row was deleted in the editor, and
    [deleteRow] put its [data-row-id] into [deletedRows]. *)
Definition prev_delete_second : ExtensionPrev.webview :=
  {| ExtensionPrev.rows := [note_row "0" "1" "a"; note_row "1" "2" "b"];
     ExtensionPrev.modifiedData := [];
     ExtensionPrev.deletedRows := [JStr "1"];
     ExtensionPrev.newRows := [] |}.

Definition prev_no_edit : ExtensionPrev.webview :=
  {| ExtensionPrev.rows := [note_row "0" "1" "a"; note_row "1" "2" "b"];
     ExtensionPrev.modifiedData := [];
     ExtensionPrev.deletedRows := [];
     ExtensionPrev.newRows := [] |}.

End Samples.


Module ProfileSamples.
Import ConfigManager.

Definition shop : DatabaseConfig :=
  {| type := mysql; alias := "shop"; host := Some "localhost";
     port := Some 3306%Z; username := Some "root"; password := Some "secret";
     database := Some "shop"; filename := None; connectionString := None;
     sid := None; serviceName := None |}.

(** The caller's profile object, at address 1. *)
Definition caller_heap : heap := {[ 1%positive := shop ]}.

(** What a caller may do to an object it holds. *)
Definition change_password (c : DatabaseConfig) : DatabaseConfig :=
  {| type := type c; alias := alias c; host := host c; port := port c;
     username := username c; password := Some "changed";
     database := database c; filename := filename c;
     connectionString := connectionString c; sid := sid c;
     serviceName := serviceName c |}.

Definition mysql_handle : DatabaseManager.handle :=
  {| DatabaseManager.driver := mysql; DatabaseManager.serial := 1 |}.

End ProfileSamples.

Module MoreSamples.
Import JS Backend.

(** [order_lines(order_id, line_no, item)] with the primary key
    [(order_id, line_no)], and two lines of one order. *)
Definition order_lines : Extension.context :=
  {| Extension.is_mongodb := false;
     Extension.tableName := "order_lines";
     Extension.primaryKeys := ["order_id"; "line_no"];
     Extension.columnsMetadata :=
       [{| Extension.name := "order_id"; Extension.notNull := true;
           Extension.isPrimaryKey := true |};
        {| Extension.name := "line_no"; Extension.notNull := true;
           Extension.isPrimaryKey := true |};
        {| Extension.name := "item"; Extension.notNull := false;
           Extension.isPrimaryKey := false |}] |}.

Definition line (order_id line_no : Z) (item : string) : row :=
  [("order_id", JNum order_id); ("line_no", JNum line_no); ("item", JStr item)].

Definition two_lines : obj row :=
  Extension.index_rows [line 7 1 "pen"; line 7 2 "ink"].

(** Both lines deleted in the editor. *)
Definition delete_both : Extension.message :=
  {| Extension.m_modifiedData := [];
     Extension.m_deletedRows := ["0"; "1"];
     Extension.m_newRows := [] |}.

(** [users(id PRIMARY KEY, name)] with two rows, the second deleted. *)
Definition two_users : obj row :=
  Extension.index_rows
    [[("id", JNum 1); ("name", JStr "a")]; [("id", JNum 2); ("name", JStr "b")]].

Definition delete_second : Extension.message :=
  {| Extension.m_modifiedData := [];
     Extension.m_deletedRows := ["1"];
     Extension.m_newRows := [] |}.

(** An edit of a row that the handler does not find among the rows it
    reads: a row added in the editor and taken out of [newRows] again. *)
Definition stale_edit : Extension.message :=
  {| Extension.m_modifiedData := [("new-1700000000000", [("name", JStr "x")])];
     Extension.m_deletedRows := [];
     Extension.m_newRows := [] |}.

End MoreSamples.

Module EditSamples.
Import JS Backend Extension.

(** The globals of a newly opened panel. *)
Definition opened : webview :=
  {| modifiedData := []; deletedRows := []; newRows := [];
     newRowElements := [] |}.

(** A row is added to [notes(title, body)] and a title typed into it. *)
Definition typed_title : webview :=
  finishEditingNew Samples.notes 0 0 "" "x"
    (addNewRow 1700000000000 ["title"; "body"] opened).

End EditSamples.

Module PrevSamples.
Import JS Backend ExtensionPrev.

(** [users(id PRIMARY KEY, name)] in the earlier editor: one row, with
    the id 1, shown at position 0. *)
Definition one_user : webview :=
  {| rows := [{| rowIndex := "0"; rowId := Some "0";
                 cells := [Samples.data_cell "id" true "1";
                           Samples.data_cell "name" false "a";
                           Samples.action_cell] |}];
     modifiedData := []; deletedRows := []; newRows := [] |}.

(** [users] with the key [id] only. *)
Definition users_by_id : context :=
  {| tableName := "users"; primaryKeys := ["id"];
     columnsMetadata :=
       [{| name := "id"; notNull := true; isPrimaryKey := true |};
        {| name := "name"; notNull := false; isPrimaryKey := false |}] |}.

(** [notes(title)] without a key: two rows that the backend numbered 1
    and 2, shown at the positions 0 and 1. *)
Definition two_notes : webview :=
  {| rows := [Samples.note_row "0" "1" "a"; Samples.note_row "1" "2" "b"];
     modifiedData := [("0", [("title", JStr "c")])];
     deletedRows := []; newRows := [] |}.

End PrevSamples.

Module MongoSamples.
Import JS DatabaseManager.





End MongoSamples.

Module StoreSamples.
Import ConfigManager.

(** A store that holds the shop profile under the id [a], in an object of
    its own at address 2; the caller holds the same profile with another
    password at address 1. *)
Definition one_profile : manager :=
  {| configs := [("a", 2%positive)]; persisted := [ProfileSamples.shop] |}.

Definition two_objects : heap :=
  <[2%positive := ProfileSamples.shop]>
    {[ 1%positive := ProfileSamples.change_password ProfileSamples.shop ]}.

End StoreSamples.

(* ===================================================================== *)
(** * Vocabulary of the statements *)
(* ===================================================================== *)

Section RunVocabulary.
Import JS Backend.
Context {B : backend}.

(** The calls that a computation adds to the log satisfy [P]. *)
Definition issues {A} (P : list call -> Prop) (m : M B A) : Prop :=
  forall w, exists cs, w_log (snd (m w)) = w_log w ++ cs /\ P cs.

End RunVocabulary.

(** First calls in [P], then calls in [Q]. *)
Definition then_ (P Q : list Backend.call -> Prop) (cs : list Backend.call) : Prop :=
  exists a b, cs = a ++ b /\ P a /\ Q b.

Definition of_kind (k : Backend.kind) (c : Backend.call) : Prop :=
  Backend.kind_of c = k.

Definition reads : list Backend.call -> Prop := Forall (of_kind Backend.KRead).
Definition deletes_ : list Backend.call -> Prop := Forall (of_kind Backend.KDelete).
Definition updates_ : list Backend.call -> Prop := Forall (of_kind Backend.KUpdate).
Definition inserts_ : list Backend.call -> Prop := Forall (of_kind Backend.KInsert).

(** Reads, then the three groups of writes. *)
Definition writes_in_order : list Backend.call -> Prop :=
  then_ reads (then_ deletes_ (then_ updates_ inserts_)).

(** The calls of one save: reads, then deletes, then updates, then
    inserts, then reads again. *)
Definition in_save_order (cs : list Backend.call) : Prop :=
  exists before ds us ins after,
    cs = before ++ ds ++ us ++ ins ++ after /\
    reads before /\ deletes_ ds /\ updates_ us /\ inserts_ ins /\ reads after.

(** ** Rows that assign nothing to a constrained column *)



(** A column of the table that is a primary key or is declared not null. *)
Definition ext_constrained (ctx : Extension.context) (c : Extension.ColumnMeta) : Prop :=
  In c (Extension.columnsMetadata ctx) /\
  (In (Extension.name c) (Extension.primaryKeys ctx) \/ Extension.notNull c = true).




(** ** A save without edits *)

Definition ext_no_edits (st : Extension.webview) : Prop :=
  Extension.modifiedData st = [] /\ Extension.deletedRows st = [] /\
  Extension.newRows st = [] /\ Extension.newRowElements st = [].

Definition prev_no_edits (st : ExtensionPrev.webview) : Prop :=
  ExtensionPrev.modifiedData st = [] /\ ExtensionPrev.deletedRows st = [] /\
  ExtensionPrev.newRows st = [].

(** The message of a save without edits. *)
Definition no_changes : Extension.message :=
  {| Extension.m_modifiedData := []; Extension.m_deletedRows := [];
     Extension.m_newRows := [] |}.

(** In the database state [d] the reads of the handler answer [rows] and
    leave the state as it is. *)
Definition fetch_answers (B : Backend.backend) (ctx : Extension.context)
    (d : Backend.db B) (rows : list Backend.row) : Prop :=
  if Extension.is_mongodb ctx
  then (exists r0, Backend.exec B d Backend.GetMongoConnection = Backend.Return d r0)
       /\ Backend.exec B d (Backend.Find (Extension.tableName ctx))
          = Backend.Return d rows
  else Backend.exec B d (Backend.ExecuteQuery (Extension.select_all ctx))
       = Backend.Return d rows.

(** ** The registry invariant *)

(** Every connection that the status map reports as connected has a
    handle in the connection map. *)
Definition status_backed (r : DatabaseManager.registry) : Prop :=
  forall id,
    DatabaseManager.connectionStatus r !! id = Some true ->
    is_Some (DatabaseManager.connections r !! id).

(** ** MongoDB commands *)




(** The collection and the operation that a command is dispatched to. *)
Definition target (d : DatabaseManager.dispatch)
    : option (string * DatabaseManager.operation) :=
  match d with
  | DatabaseManager.Call collectionName op _ => Some (collectionName, op)
  | DatabaseManager.Invalid _ => None
  end.


(** ** Further vocabulary *)

(** The registry with a larger heap of objects. *)
Definition with_objects (r : DatabaseManager.registry) (h : ConfigManager.heap)
    : DatabaseManager.registry :=
  {| DatabaseManager.connections := DatabaseManager.connections r;
     DatabaseManager.connectionStatus := DatabaseManager.connectionStatus r;
     DatabaseManager.configManager := DatabaseManager.configManager r;
     DatabaseManager.objects := h |}.

(** A text with its capital letters made small. *)
Fixpoint lower_text (s : string) : string :=
  match s with
  | EmptyString => EmptyString
  | String c s' => String (DatabaseManager.to_lower c) (lower_text s')
  end.

(** How many arguments the driver method of an operation is given. *)
Definition arity (op : DatabaseManager.operation) : nat :=
  match op with
  | DatabaseManager.find_ | DatabaseManager.updateOne
  | DatabaseManager.updateMany => 2
  | _ => 1
  end.

(** The two ways a transaction of the adapter service is ended. *)
Inductive ending : Type := ByCommit | ByRollback.

Definition end_transaction (e : ending)
    : JS.outcome unit -> string -> DatabaseServiceImpl.service ->
      JS.outcome unit * DatabaseServiceImpl.service
      * list DatabaseServiceImpl.request :=
  match e with
  | ByCommit => DatabaseServiceImpl.commitTransaction
  | ByRollback => DatabaseServiceImpl.rollbackTransaction
  end.

Definition end_request (e : ending) (transaction : nat)
    : DatabaseServiceImpl.request :=
  match e with
  | ByCommit => DatabaseServiceImpl.Commit transaction
  | ByRollback => DatabaseServiceImpl.Rollback transaction
  end.

(** A text of word characters only. *)
Fixpoint all_word (s : string) : bool :=
  match s with
  | EmptyString => true
  | String c s' => DatabaseServiceImpl.is_word c && all_word s'
  end.

(** ** The writes of a save as a list of calls *)

Section PlanVocabulary.
Import JS Backend Extension.

(** The writes that a message asks for, given the rows read before. *)
Definition planned_writes (ctx : context) (originalData : obj row)
    (msg : message) : list call :=
  let deletes := build_deletes ctx originalData msg in
  let updates := build_updates ctx originalData msg in
  let inserts := build_inserts msg in
  if is_mongodb ctx then
    GetMongoConnection
    :: map (fun op => DeleteOne (tableName ctx) (mongo_filter (d_rowData op)))
         deletes
    ++ map (fun op => UpdateOne (tableName ctx)
                        (mongo_filter (u_primaryKeyData op)) (u_updateData op))
         updates
    ++ map (fun insertData => InsertOne (tableName ctx) insertData) inserts
  else
    map ExecuteQuery
      (omap (delete_query ctx originalData msg) deletes
       ++ map (update_query ctx) updates
       ++ map (insert_query ctx) inserts).

Context {B : backend}.

(** Calls issued one after the other until one throws. *)
Fixpoint issue (cs : list call) : M B unit :=
  match cs with
  | [] => ret tt
  | c :: cs' => do _ <- invoke c; issue cs'
  end.

(** The database after the calls of [cs], each of which is answered. *)
Fixpoint db_after (cs : list call) (d : db B) : option (db B) :=
  match cs with
  | [] => Some d
  | c :: cs' =>
      match exec B d c with
      | Return d' _ => db_after cs' d'
      | Throw _ => None
      end
  end.

End PlanVocabulary.

(** ** The earlier editor *)

(** A member of [deletedRows] that is a text. *)
Definition is_text (v : JS.value) : Prop := exists s, v = JS.JStr s.

(** The writes that the changes posted by the earlier editor come to. *)
Definition prev_planned_writes (ctx : ExtensionPrev.context)
    (ch : ExtensionPrev.changes) : list Backend.call :=
  map Backend.ExecuteQuery
    (omap (ExtensionPrev.delete_query ctx) (ExtensionPrev.deletes ch)
     ++ map (ExtensionPrev.update_query ctx) (ExtensionPrev.updates ch)
     ++ map (ExtensionPrev.insert_query ctx) (ExtensionPrev.inserts ch)).

(** ** A save as a run of calls *)

Section SaveVocabulary.
Import JS Backend Extension.

(** What the MongoDB branch asks before its writes. *)
Definition opening_calls (ctx : context) : list call :=
  if is_mongodb ctx then [GetMongoConnection] else [].

(** The calls for the deleted rows of a message, for its modified rows
    and for its added rows, each group in the order of the message. *)
Definition delete_calls (ctx : context) (originalData : obj row)
    (msg : message) : list call :=
  if is_mongodb ctx then
    map (fun op => DeleteOne (tableName ctx) (mongo_filter (d_rowData op)))
      (build_deletes ctx originalData msg)
  else
    map ExecuteQuery
      (omap (delete_query ctx originalData msg)
         (build_deletes ctx originalData msg)).

Definition update_calls (ctx : context) (originalData : obj row)
    (msg : message) : list call :=
  if is_mongodb ctx then
    map (fun op => UpdateOne (tableName ctx)
                     (mongo_filter (u_primaryKeyData op)) (u_updateData op))
      (build_updates ctx originalData msg)
  else
    map (fun op => ExecuteQuery (update_query ctx op))
      (build_updates ctx originalData msg).

Definition insert_calls (ctx : context) (msg : message) : list call :=
  if is_mongodb ctx then
    map (fun insertData => InsertOne (tableName ctx) insertData)
      (build_inserts msg)
  else
    map (fun insertData => ExecuteQuery (insert_query ctx insertData))
      (build_inserts msg).

Context {B : backend}.

(** From the database [d] the calls of [plan] are issued one after the
    other until one throws: [issued] are the calls that reached the
    backend, [d'] is the database they leave, and [failure] is the error of
    the call that threw, if one did. *)
Definition issued_until_throw (d : db B) (plan issued : list call)
    (d' : db B) (failure : option string) : Prop :=
  match failure with
  | None => issued = plan /\ db_after plan d = Some d'
  | Some e =>
      exists done c rest,
        plan = done ++ c :: rest /\ issued = done ++ [c] /\
        db_after done d = Some d' /\ exec B d' c = Throw e
  end.

End SaveVocabulary.

(** The three groups of calls of the earlier editor. *)
Definition prev_delete_calls (ctx : ExtensionPrev.context)
    (ch : ExtensionPrev.changes) : list Backend.call :=
  map Backend.ExecuteQuery
    (omap (ExtensionPrev.delete_query ctx) (ExtensionPrev.deletes ch)).

Definition prev_update_calls (ctx : ExtensionPrev.context)
    (ch : ExtensionPrev.changes) : list Backend.call :=
  map (fun op => Backend.ExecuteQuery (ExtensionPrev.update_query ctx op))
    (ExtensionPrev.updates ch).

Definition prev_insert_calls (ctx : ExtensionPrev.context)
    (ch : ExtensionPrev.changes) : list Backend.call :=
  map (fun insertData =>
         Backend.ExecuteQuery (ExtensionPrev.insert_query ctx insertData))
    (ExtensionPrev.inserts ch).

(** ** The argument texts of a MongoDB command *)


(* ===================================================================== *)
(** * Properties *)
(* ===================================================================== *)

Section ObjectFacts.
Import JS.
Context {V : Type}.

Lemma get_set_eq (o : obj V) k v : get (set o k v) k = Some v.
Proof.
  induction o as [|[k' v'] o IH]; simpl.
  - now rewrite String.eqb_refl.
  - destruct (String.eqb k' k) eqn:E; simpl; rewrite E; auto.
Qed.

Lemma get_set_ne (o : obj V) k k' v : k <> k' -> get (set o k v) k' = get o k'.
Proof.
  intros Hne. induction o as [|[k0 v0] o IH]; simpl.
  - destruct (String.eqb_spec k k'); congruence.
  - destruct (String.eqb_spec k0 k) as [->|Hk]; simpl.
    + destruct (String.eqb_spec k k'); congruence.
    + destruct (String.eqb_spec k0 k'); auto.
Qed.



End ObjectFacts.

(** ** Runs of the handler *)

Section RunFacts.
Import JS Backend.
Context {B : backend}.



Lemma issues_weaken {A} (P Q : list call -> Prop) (m : M B A) :
  (forall cs, P cs -> Q cs) -> issues P m -> issues Q m.
Proof.
  intros HPQ Hm w. destruct (Hm w) as [cs [E HP]]. exists cs. auto.
Qed.

Lemma issues_ret {A} (P : list call -> Prop) (a : A) :
  P [] -> issues P (ret (B := B) a).
Proof. intros HP w. exists []. simpl. now rewrite app_nil_r. Qed.

Lemma issues_throw {A} (P : list call -> Prop) msg :
  P [] -> issues P (throw (B := B) (A := A) msg).
Proof. intros HP w. exists []. simpl. now rewrite app_nil_r. Qed.

Lemma issues_postMessage (P : list call -> Prop) p :
  P [] -> issues P (postMessage (B := B) p).
Proof. intros HP w. exists []. simpl. now rewrite app_nil_r. Qed.

Lemma issues_invoke (P : list call -> Prop) c :
  P [c] -> issues P (invoke (B := B) c).
Proof.
  intros HP w. exists [c]. unfold invoke.
  destruct (exec B (w_db w) c); simpl; auto.
Qed.

Lemma issues_bind {A C} (P Q : list call -> Prop) (m : M B A) (k : A -> M B C) :
  issues P m -> (forall a, issues Q (k a)) -> Q [] ->
  issues (then_ P Q) (bind m k).
Proof.
  intros Hm Hk HQ w. unfold bind.
  destruct (Hm w) as [cs1 [E1 HP]].
  destruct (m w) as [[msg|a] w1]; simpl in *.
  - exists cs1. split; [assumption|].
    exists cs1, []. now rewrite app_nil_r.
  - destruct (Hk a w1) as [cs2 [E2 HQ2]].
    exists (cs1 ++ cs2). split.
    + now rewrite E2, E1, app_assoc.
    + now exists cs1, cs2.
Qed.

Lemma issues_catch {A} (P Q : list call -> Prop) (m : M B A) (h : string -> M B A) :
  issues P m -> (forall e, issues Q (h e)) -> Q [] ->
  issues (then_ P Q) (catch m h).
Proof.
  intros Hm Hh HQ w. unfold catch.
  destruct (Hm w) as [cs1 [E1 HP]].
  destruct (m w) as [[msg|a] w1]; simpl in *.
  - destruct (Hh msg w1) as [cs2 [E2 HQ2]].
    exists (cs1 ++ cs2). split.
    + now rewrite E2, E1, app_assoc.
    + now exists cs1, cs2.
  - exists cs1. split; [assumption|].
    exists cs1, []. now rewrite app_nil_r.
Qed.

Lemma then_Forall (R : call -> Prop) cs :
  then_ (Forall R) (Forall R) cs -> Forall R cs.
Proof. intros [a [b [-> [Ha Hb]]]]. apply Forall_app; auto. Qed.

Lemma issues_for_each {A} (R : call -> Prop) (l : list A) (body : A -> M B unit) :
  (forall x, issues (Forall R) (body x)) ->
  issues (Forall R) (for_each l body).
Proof.
  intros Hb. induction l as [|x l IH]; simpl.
  - now apply issues_ret.
  - eapply issues_weaken; [apply then_Forall|].
    apply issues_bind; auto.
Qed.

(** A call followed by [ret tt], the shape of every loop body. *)
Lemma issues_call_only (R : call -> Prop) c :
  R c -> issues (Forall R) (do _ <- invoke (B := B) c; ret tt).
Proof.
  intros Hc. eapply issues_weaken; [apply then_Forall|].
  apply issues_bind; [apply issues_invoke | intros; apply issues_ret |]; auto.
Qed.

End RunFacts.


Lemma in_save_order_nil : in_save_order [].
Proof. exists [], [], [], [], []. repeat split; constructor. Qed.

(** In a log in save order the writes are the deletes, then the updates,
    then the inserts. *)
Lemma Forall_kind_writes k cs :
  k <> Backend.KRead -> Forall (of_kind k) cs ->
  List.filter Backend.is_write cs = cs.
Proof.
  intros Hk H. induction H as [|c cs Hc _ IH]; simpl; auto.
  assert (Hw : Backend.is_write c = true).
  { unfold Backend.is_write. rewrite Hc. destruct k; congruence. }
  now rewrite Hw, IH.
Qed.

Lemma Forall_read_writes cs :
  Forall (of_kind Backend.KRead) cs -> List.filter Backend.is_write cs = [].
Proof.
  intros H. induction H as [|c cs Hc _ IH]; simpl; auto.
  assert (Hw : Backend.is_write c = false).
  { unfold Backend.is_write. now rewrite Hc. }
  now rewrite Hw.
Qed.

Lemma save_order_writes cs :
  in_save_order cs ->
  exists ds us ins,
    List.filter Backend.is_write cs = ds ++ us ++ ins /\
    Forall (of_kind Backend.KDelete) ds /\
    Forall (of_kind Backend.KUpdate) us /\
    Forall (of_kind Backend.KInsert) ins.
Proof.
  intros (before & ds & us & ins & after & -> & Hb & Hd & Hu & Hi & Ha).
  exists ds, us, ins. repeat split; auto.
  rewrite !List.filter_app.
  rewrite (Forall_read_writes before), (Forall_read_writes after) by assumption.
  rewrite (Forall_kind_writes Backend.KDelete ds),
          (Forall_kind_writes Backend.KUpdate us),
          (Forall_kind_writes Backend.KInsert ins) by (assumption || discriminate).
  now rewrite app_nil_r.
Qed.

(** ** The order of the writes *)

Section OrderFacts.
Import JS Backend.
Context {B : backend}.


Lemma then_nil (P Q : list call -> Prop) : P [] -> Q [] -> then_ P Q [].
Proof. intros HP HQ. now exists [], []. Qed.

Lemma writes_in_order_nil : writes_in_order [].
Proof. repeat apply then_nil; constructor. Qed.

Lemma then_skip_left (P Q : list call -> Prop) cs : P [] -> Q cs -> then_ P Q cs.
Proof. intros HP HQ. now exists [], cs. Qed.

Lemma select_is_read t :
  of_kind KRead (ExecuteQuery ("SELECT * FROM " +:+ t +:+ " LIMIT 1000")).
Proof. reflexivity. Qed.

Lemma delete_text_kind t w :
  of_kind KDelete (ExecuteQuery ("DELETE FROM " +:+ t +:+ " WHERE " +:+ w)).
Proof. reflexivity. Qed.

Lemma update_text_kind t s w :
  of_kind KUpdate
    (ExecuteQuery ("UPDATE " +:+ t +:+ " SET " +:+ s +:+ " WHERE " +:+ w)).
Proof. reflexivity. Qed.

Lemma ext_delete_kind ctx od msg op q :
  Extension.delete_query ctx od msg op = Some q ->
  of_kind KDelete (ExecuteQuery q).
Proof.
  unfold Extension.delete_query. intros H.
  destruct (Extension.find_deleted_row od msg op) as [rowId|]; [|discriminate].
  destruct (String.eqb rowId ""); [discriminate|].
  destruct (get od rowId) as [r|]; [|discriminate].
  destruct (String.eqb (Extension.delete_where r) ""); [discriminate|].
  injection H as <-. apply delete_text_kind.
Qed.

Lemma ext_insert_kind ctx d :
  of_kind KInsert (ExecuteQuery (Extension.insert_query ctx d)).
Proof. unfold Extension.insert_query. now destruct (Extension.insert_columns ctx d). Qed.

Lemma prev_delete_kind ctx pkd q :
  ExtensionPrev.delete_query ctx pkd = Some q -> of_kind KDelete (ExecuteQuery q).
Proof.
  unfold ExtensionPrev.delete_query. intros H.
  destruct (String.eqb (ExtensionPrev.delete_where pkd) ""); [discriminate|].
  injection H as <-. apply delete_text_kind.
Qed.

Lemma prev_insert_kind ctx d :
  of_kind KInsert (ExecuteQuery (ExtensionPrev.insert_query ctx d)).
Proof. unfold ExtensionPrev.insert_query. now destruct (ExtensionPrev.insert_columns d). Qed.

Lemma ext_run_deletes ctx od msg l :
  issues (B := B) deletes_ (Extension.run_deletes ctx od msg l).
Proof.
  apply issues_for_each. intros op.
  destruct (Extension.delete_query ctx od msg op) eqn:E.
  - apply issues_call_only. eapply ext_delete_kind; eauto.
  - apply issues_ret. constructor.
Qed.

Lemma ext_run_updates ctx l :
  issues (B := B) updates_ (Extension.run_updates ctx l).
Proof.
  apply issues_for_each. intros op. apply issues_call_only.
  apply update_text_kind.
Qed.

Lemma ext_run_inserts ctx l :
  issues (B := B) inserts_ (Extension.run_inserts ctx l).
Proof.
  apply issues_for_each. intros d. apply issues_call_only.
  apply ext_insert_kind.
Qed.

Lemma ext_apply_changes_order ctx od msg :
  issues (B := B) writes_in_order (Extension.apply_changes ctx od msg).
Proof.
  unfold Extension.apply_changes. destruct (Extension.is_mongodb ctx).
  - unfold Extension.run_mongo.
    apply issues_bind; [apply issues_invoke; now repeat constructor | |].
    + intros _. apply issues_bind.
      * apply issues_for_each. intros op. now apply issues_call_only.
      * intros _. apply issues_bind.
        -- apply issues_for_each. intros op. now apply issues_call_only.
        -- intros _. apply issues_for_each. intros d. now apply issues_call_only.
        -- constructor.
      * apply then_nil; constructor.
    + repeat apply then_nil; constructor.
  - eapply issues_weaken; [intros cs; apply then_skip_left; constructor|].
    apply issues_bind; [apply ext_run_deletes | |].
    + intros _. apply issues_bind;
        [apply ext_run_updates | intros _; apply ext_run_inserts | constructor].
    + apply then_nil; constructor.
Qed.

Lemma ext_fetch_reads ctx : issues (B := B) reads (Extension.fetch_rows ctx).
Proof.
  unfold Extension.fetch_rows. destruct (Extension.is_mongodb ctx).
  - eapply issues_weaken; [apply then_Forall|].
    apply issues_bind;
      [apply issues_invoke | intros; apply issues_invoke | ]; now repeat constructor.
  - apply issues_invoke. repeat constructor.
Qed.

Lemma reads_app a b : reads a -> reads b -> reads (a ++ b).
Proof. apply Forall_app_2. Qed.

Lemma ext_onSaveChanges_order ctx msg :
  issues (B := B) in_save_order (Extension.onSaveChanges ctx msg).
Proof.
  unfold Extension.onSaveChanges.
  eapply issues_weaken;
    [| apply (issues_catch
                (then_ reads (then_ writes_in_order (then_ reads reads))) reads)].
  - intros cs (x & r4 & -> & (r1 & y & -> & Hr1 & (w & z & -> & Hw & (r2 & r3 & -> & Hr2 & Hr3))) & Hr4).
    destruct Hw as (r0 & y1 & -> & Hr0 & (ds & y2 & -> & Hd & (us & ins & -> & Hu & Hi))).
    exists (r1 ++ r0), ds, us, ins, ((r2 ++ r3) ++ r4).
    split; [now rewrite <- !app_assoc|].
    repeat split; try assumption; repeat apply reads_app; assumption.
  - apply issues_bind; [apply ext_fetch_reads | |].
    + intros rows. apply issues_bind; [apply ext_apply_changes_order | |].
      * intros _. apply issues_bind; [apply issues_postMessage; constructor | |].
        -- intros _. eapply issues_weaken; [apply then_Forall|].
           apply issues_catch.
           ++ eapply issues_weaken; [apply then_Forall|].
              apply issues_bind;
                [apply ext_fetch_reads
                | intros; apply issues_postMessage; constructor
                | constructor].
           ++ intros; apply issues_ret; constructor.
           ++ constructor.
        -- constructor.
      * apply then_nil; constructor.
    + apply then_nil; [apply writes_in_order_nil | apply then_nil; constructor].
  - intros e. apply issues_postMessage. constructor.
  - constructor.
Qed.

Lemma ext_save_cycle_order ctx st :
  issues (B := B) in_save_order (Extension.save_cycle ctx st).
Proof.
  unfold Extension.save_cycle. destruct (Extension.saveChanges ctx st).
  - apply ext_onSaveChanges_order.
  - apply issues_ret, in_save_order_nil.
Qed.

Lemma prev_onSaveChanges_order ctx ch :
  issues (B := B) in_save_order (ExtensionPrev.onSaveChanges ctx ch).
Proof.
  unfold ExtensionPrev.onSaveChanges.
  eapply issues_weaken;
    [| apply (issues_catch
                (then_ deletes_ (then_ updates_ (then_ inserts_ reads))) reads)].
  - intros cs (x & r4 & -> & (ds & y & -> & Hd & (us & z & -> & Hu & (ins & r & -> & Hi & Hr))) & Hr4).
    exists [], ds, us, ins, (r ++ r4).
    split; [simpl; now rewrite <- !app_assoc|].
    repeat split; try assumption; try apply reads_app; try assumption.
    constructor.
  - apply issues_bind.
    + apply issues_for_each. intros pkd.
      destruct (ExtensionPrev.delete_query ctx pkd) eqn:E.
      * apply issues_call_only. eapply prev_delete_kind; eauto.
      * apply issues_ret. constructor.
    + intros _. apply issues_bind.
      * apply issues_for_each. intros op. apply issues_call_only.
        apply update_text_kind.
      * intros _. apply issues_bind.
        -- apply issues_for_each. intros d. apply issues_call_only.
           apply prev_insert_kind.
        -- intros _. eapply issues_weaken; [apply then_Forall|].
           apply issues_bind; [apply issues_postMessage; constructor | |].
           ++ intros _. eapply issues_weaken; [apply then_Forall|].
              apply issues_bind;
                [apply issues_invoke; repeat constructor
                | intros; apply issues_postMessage; constructor
                | constructor].
           ++ constructor.
        -- constructor.
      * apply then_nil; constructor.
    + repeat apply then_nil; constructor.
  - intros e. apply issues_postMessage. constructor.
  - constructor.
Qed.

Lemma prev_save_cycle_order ctx st :
  issues (B := B) in_save_order (ExtensionPrev.save_cycle ctx st).
Proof.
  unfold ExtensionPrev.save_cycle. destruct (ExtensionPrev.saveChanges ctx st).
  - apply prev_onSaveChanges_order.
  - apply issues_ret, in_save_order_nil.
Qed.

End OrderFacts.

(** ** Validation before the save *)

Section ValidationFacts.
Import JS Backend.

Lemma includes_In l x : includes l x = true <-> In x l.
Proof.
  unfold includes. rewrite existsb_exists. split.
  - intros [y [Hy E]]. apply String.eqb_eq in E. now subst.
  - intros H. exists x. split; [assumption | apply String.eqb_refl].
Qed.


Lemma ext_has_errors_In x l : In x l -> Extension.has_errors l = true.
Proof. destruct l; [contradiction | reflexivity]. Qed.

Lemma ext_validate_flags ctx data c :
  ext_constrained ctx c ->
  Extension.blank (get data (Extension.name c)) = true ->
  Extension.has_errors (Extension.validateData ctx data) = true.
Proof.
  intros [Hc Hk] Hb.
  apply (ext_has_errors_In (Extension.name c +:+ " 不能为空")).
  unfold Extension.validateData. apply in_flat_map. exists c. split; [assumption|].
  rewrite Hb.
  destruct Hk as [Hk|Hk].
  - apply includes_In in Hk. rewrite Hk. now left.
  - rewrite Hk, orb_true_r. now left.
Qed.




(** The earlier editor. *)








End ValidationFacts.

(** ** A save without edits *)

Section NoEditFacts.
Import JS Backend.
Context {B : backend}.

Lemma ext_no_edits_message ctx st :
  ext_no_edits st ->
  Extension.saveChanges ctx st =
    Some {| Extension.m_modifiedData := []; Extension.m_deletedRows := [];
            Extension.m_newRows := [] |}.
Proof.
  intros (Hm & Hd & Hn & He). unfold Extension.saveChanges.
  now rewrite Hm, Hd, Hn, He.
Qed.

Lemma ext_apply_nothing ctx od :
  issues (B := B) reads (Extension.apply_changes ctx od no_changes).
Proof.
  unfold Extension.apply_changes. simpl. destruct (Extension.is_mongodb ctx).
  - unfold Extension.run_mongo. simpl.
    eapply issues_weaken; [apply then_Forall|].
    apply issues_bind; [apply issues_invoke; now repeat constructor | |constructor].
    intros _. eapply issues_weaken; [apply then_Forall|].
    apply issues_bind; [apply issues_ret; constructor | |constructor].
    intros _. eapply issues_weaken; [apply then_Forall|].
    apply issues_bind; [apply issues_ret; constructor | |constructor].
    intros _. apply issues_ret; constructor.
  - eapply issues_weaken; [apply then_Forall|].
    apply issues_bind; [apply issues_ret; constructor | |constructor].
    intros _. eapply issues_weaken; [apply then_Forall|].
    apply issues_bind; [apply issues_ret; constructor | |constructor].
    intros _. apply issues_ret; constructor.
Qed.

Lemma ext_no_edits_reads ctx st :
  ext_no_edits st -> issues (B := B) reads (Extension.save_cycle ctx st).
Proof.
  intros H. unfold Extension.save_cycle.
  rewrite (ext_no_edits_message ctx st H). fold no_changes.
  unfold Extension.onSaveChanges.
  eapply issues_weaken; [apply then_Forall|].
  apply issues_catch; [| intros; apply issues_postMessage; constructor | constructor].
  eapply issues_weaken; [apply then_Forall|].
  apply issues_bind; [apply ext_fetch_reads | |constructor].
  intros rows. eapply issues_weaken; [apply then_Forall|].
  apply issues_bind; [apply ext_apply_nothing | |constructor].
  intros _. eapply issues_weaken; [apply then_Forall|].
  apply issues_bind; [apply issues_postMessage; constructor | |constructor].
  intros _. eapply issues_weaken; [apply then_Forall|].
  apply issues_catch; [| intros; apply issues_ret; constructor | constructor].
  eapply issues_weaken; [apply then_Forall|].
  apply issues_bind;
    [apply ext_fetch_reads | intros; apply issues_postMessage; constructor | constructor].
Qed.

Lemma invoke_answer (w : world B) c rows :
  exec B (w_db w) c = Return (w_db w) rows ->
  invoke c w = (Done rows, World (w_db w) (w_log w ++ [c]) (w_out w)).
Proof. intros H. unfold invoke. now rewrite H. Qed.

Lemma ext_fetch_answer ctx (w : world B) rows :
  fetch_answers B ctx (w_db w) rows ->
  exists cs,
    Extension.fetch_rows ctx w
    = (Done rows, World (w_db w) (w_log w ++ cs) (w_out w)).
Proof.
  unfold fetch_answers, Extension.fetch_rows.
  destruct (Extension.is_mongodb ctx).
  - intros [[r0 H0] H1]. exists [GetMongoConnection; Find (Extension.tableName ctx)].
    unfold bind. rewrite (invoke_answer w _ r0 H0).
    rewrite (invoke_answer _ _ rows) by exact H1. simpl.
    now rewrite <- app_assoc.
  - intros H. eexists. now apply invoke_answer.
Qed.

Lemma ext_apply_nothing_answer ctx od (w : world B) rows :
  fetch_answers B ctx (w_db w) rows ->
  exists cs,
    Extension.apply_changes ctx od no_changes w
    = (Done tt, World (w_db w) (w_log w ++ cs) (w_out w)).
Proof.
  unfold fetch_answers, Extension.apply_changes. simpl.
  destruct (Extension.is_mongodb ctx).
  - intros [[r0 H0] _]. exists [GetMongoConnection].
    unfold Extension.run_mongo, bind. now rewrite (invoke_answer w _ r0 H0).
  - intros _. exists []. destruct w. simpl. now rewrite app_nil_r.
Qed.

Lemma ext_no_edits_returns ctx st (w : world B) rows :
  ext_no_edits st ->
  fetch_answers B ctx (w_db w) rows ->
  exists cs,
    Extension.save_cycle ctx st w
    = (Done tt,
       World (w_db w) (w_log w ++ cs)
         (w_out w ++ [SaveSuccess; UpdateData rows])).
Proof.
  intros H Hf. unfold Extension.save_cycle.
  rewrite (ext_no_edits_message ctx st H). fold no_changes.
  unfold Extension.onSaveChanges, catch, bind at 1.
  destruct (ext_fetch_answer ctx w rows Hf) as [cs1 ->].
  unfold bind at 1.
  destruct (ext_apply_nothing_answer ctx (Extension.index_rows rows)
              (World (w_db w) (w_log w ++ cs1) (w_out w)) rows Hf) as [cs2 ->].
  unfold bind at 1. simpl.
  unfold bind.
  destruct (ext_fetch_answer ctx
              (World (w_db w) ((w_log w ++ cs1) ++ cs2) (w_out w ++ [SaveSuccess]))
              rows Hf) as [cs3 ->].
  simpl. exists (cs1 ++ cs2 ++ cs3).
  now rewrite <- !app_assoc.
Qed.

Lemma prev_no_edits_idle ctx st (w : world B) :
  prev_no_edits st -> ExtensionPrev.save_cycle ctx st w = (Done tt, w).
Proof.
  intros (Hm & Hd & Hn). unfold ExtensionPrev.save_cycle, ExtensionPrev.saveChanges.
  now rewrite Hm, Hd, Hn.
Qed.

End NoEditFacts.

(** ** The generated statements *)

Section StatementFacts.
Import JS Backend.

Lemma escape_quotes_app a b :
  escape_quotes (a +:+ b) = escape_quotes a +:+ escape_quotes b.
Proof.
  induction a as [|c a IH]; simpl; [reflexivity|].
  destruct (Ascii.eqb c "'"); simpl; now rewrite IH.
Qed.

(** In [extension.ts] the values of a [DELETE] and of an [INSERT] are
    written with their quotes doubled, [NULL] bare, numbers bare. *)
Lemma ext_insert_value_null v :
  Extension.null_like v = true -> Extension.insert_value v = "NULL".
Proof. unfold Extension.insert_value. now intros ->. Qed.

Lemma ext_insert_value_text s :
  Extension.null_like (JStr s) = false ->
  Extension.insert_value (JStr s) = "'" +:+ escape_quotes s +:+ "'".
Proof. unfold Extension.insert_value. now intros ->. Qed.

Lemma ext_insert_value_number n :
  Extension.insert_value (JNum n) = pretty n.
Proof. reflexivity. Qed.

(** The columns of an [INSERT] of [extension.ts]: every column of the
    row, except the primary keys for which nothing was supplied. *)
Lemma ext_insert_columns_spec ctx d col :
  In col (Extension.insert_columns ctx d) <->
  In col (keys d) /\
  (In col (Extension.primaryKeys ctx) -> Extension.supplied (prop d col) = true).
Proof.
  unfold Extension.insert_columns. rewrite filter_In.
  split; intros [Hk H]; (split; [assumption|]).
  - intros Hpk. apply includes_In in Hpk. now rewrite Hpk in H.
  - destruct (includes (Extension.primaryKeys ctx) col) eqn:E; [|reflexivity].
    apply H. now apply includes_In.
Qed.

Lemma ext_insert_keeps_other_columns ctx d col :
  In col (keys d) -> ~ In col (Extension.primaryKeys ctx) ->
  In col (Extension.insert_columns ctx d).
Proof. intros Hk Hn. apply ext_insert_columns_spec. split; [assumption | tauto]. Qed.

Lemma ext_insert_omits_blank_key ctx d col :
  In col (Extension.primaryKeys ctx) ->
  Extension.supplied (prop d col) = false ->
  ~ In col (Extension.insert_columns ctx d).
Proof.
  intros Hpk Hs Hin. apply ext_insert_columns_spec in Hin as [_ H].
  rewrite H in Hs; [discriminate | assumption].
Qed.

Lemma ext_insert_keeps_supplied_key ctx d col :
  In col (keys d) -> Extension.supplied (prop d col) = true ->
  In col (Extension.insert_columns ctx d).
Proof. intros Hk Hs. apply ext_insert_columns_spec. auto. Qed.

(** A text in the [SET] list of an [UPDATE] of [extension.ts] goes
    between quotes unchanged, primary key or not. *)
Lemma ext_update_set_text ctx column s :
  Extension.update_set ctx [(column, JStr s)] = column +:+ " = '" +:+ s +:+ "'".
Proof.
  unfold Extension.update_set. simpl.
  now destruct (includes (Extension.primaryKeys ctx) column).
Qed.

(** The columns of an [INSERT] of the earlier variant: all but [id]. *)
Lemma prev_insert_columns_spec d col :
  In col (ExtensionPrev.insert_columns d) <-> In col (keys d) /\ col <> "id".
Proof.
  unfold ExtensionPrev.insert_columns. rewrite filter_In.
  split; intros [Hk H]; (split; [assumption|]).
  - intros ->. discriminate.
  - destruct (String.eqb_spec col "id"); [contradiction | reflexivity].
Qed.

End StatementFacts.

Section NoKeyFacts.
Import JS Backend.

(** Without primary keys the delete loop of [extension.ts] matches no
    operation back to a row, and issues nothing. *)
Lemma ext_no_key_delete_skipped ctx od msg op :
  Extension.primaryKeys ctx = [] ->
  In op (Extension.build_deletes ctx od msg) ->
  Extension.delete_query ctx od msg op = None.
Proof.
  intros Hpk Hin. unfold Extension.build_deletes in Hin.
  apply in_flat_map in Hin as (rowId & _ & Hop).
  destruct (get od rowId) as [r|]; [|contradiction].
  destruct Hop as [<-|[]].
  unfold Extension.delete_query, Extension.find_deleted_row. simpl.
  rewrite Hpk. simpl.
  assert (E : forall l : list string,
            find (fun id : string => @existsb (string * value)
                    (fun kv => match get od id with
                               | Some r0 => value_eqb (prop r0 (fst kv)) (snd kv)
                               | None => false
                               end) []) l = None).
  { induction l; simpl; auto. }
  now rewrite E.
Qed.

End NoKeyFacts.

(** ** The retrying connect of the service *)

Section ServiceFacts.
Import JS DatabaseServiceImpl.

Lemma connect_first_success open id conns h :
  open 1 = Some h ->
  connect open id conns = (true, <[id := h]> conns, [Open 1]).
Proof. intros H. unfold connect. simpl. now rewrite H. Qed.

Lemma connect_second_success open id conns h :
  open 1 = None -> open 2 = Some h ->
  connect open id conns
  = (true, <[id := h]> conns,
     [Open 1; ShowWarning 1; Sleep retryDelay; Open 2]).
Proof. intros H1 H2. unfold connect. simpl. now rewrite H1, H2. Qed.

Lemma connect_third_success open id conns h :
  open 1 = None -> open 2 = None -> open 3 = Some h ->
  connect open id conns
  = (true, <[id := h]> conns,
     [Open 1; ShowWarning 1; Sleep retryDelay;
      Open 2; ShowWarning 2; Sleep retryDelay; Open 3]).
Proof. intros H1 H2 H3. unfold connect. simpl. now rewrite H1, H2, H3. Qed.

Lemma connect_all_fail open id conns :
  open 1 = None -> open 2 = None -> open 3 = None ->
  connect open id conns
  = (false, conns,
     [Open 1; ShowWarning 1; Sleep retryDelay;
      Open 2; ShowWarning 2; Sleep retryDelay; Open 3; ShowError 3]).
Proof. intros H1 H2 H3. unfold connect. simpl. now rewrite H1, H2, H3. Qed.

End ServiceFacts.

(** ** The profile store hands out and keeps copies *)

Section ConfigFacts.
Import JS ConfigManager.

Lemma get_In {V} (o : obj V) k v : get o k = Some v -> In (k, v) o.
Proof.
  induction o as [|[k' v'] o IH]; simpl; [discriminate|].
  destruct (String.eqb_spec k' k) as [->|_].
  - intros [= ->]. now left.
  - intros H. right. auto.
Qed.

Lemma spread_spec (h : heap) c l h' :
  spread h c = (l, h') -> h !! l = None /\ h' = <[l := c]> h.
Proof.
  unfold spread. intros H. inversion H; subst. split; [|reflexivity].
  apply not_elem_of_dom, is_fresh.
Qed.

(** Writing to an object that the store does not hold leaves every stored
    profile as it is. *)
Lemma stored_mutate_other m (h : heap) l f id :
  (forall id' l', In (id', l') (configs m) -> l' <> l) ->
  stored m (mutate l f h) id = stored m h id.
Proof.
  intros Hne. unfold stored, mutate.
  destruct (get (configs m) id) as [l'|] eqn:E; [|reflexivity].
  apply lookup_alter_ne. intros ->. eapply Hne; [apply get_In; eauto | reflexivity].
Qed.

Lemma stored_insert_other m (h : heap) l c id :
  (forall id' l', In (id', l') (configs m) -> l' <> l) ->
  stored m (<[l := c]> h) id = stored m h id.
Proof.
  intros Hne. unfold stored.
  destruct (get (configs m) id) as [l'|] eqn:E; [|reflexivity].
  apply lookup_insert_ne. intros ->. eapply Hne; [apply get_In; eauto | reflexivity].
Qed.

Lemma allocated_not_fresh m (h : heap) l :
  allocated m h -> h !! l = None ->
  forall id' l', In (id', l') (configs m) -> l' <> l.
Proof.
  intros Ha Hl id' l' Hin ->. destruct (Ha _ _ Hin) as [c Hc]. congruence.
Qed.

Lemma getConfig_spec id m (h : heap) l h' :
  getConfig id m h = (Some l, h') ->
  exists l0 c, get (configs m) id = Some l0 /\ h !! l0 = Some c /\
               h !! l = None /\ h' = <[l := c]> h.
Proof.
  unfold getConfig.
  destruct (get (configs m) id) as [l0|]; [|discriminate].
  destruct (h !! l0) as [c|] eqn:Hc; [|discriminate].
  destruct (spread h c) as [copy h1] eqn:Hs. intros H. inversion H; subst.
  apply spread_spec in Hs as [Hf ->]. eauto 6.
Qed.

(** The copies of [getAllConfigs] are new objects, and the heap only
    grows. *)
Lemma copy_all_spec entries : forall (h : heap) all h',
  copy_all entries h = (all, h') ->
  (forall id l, In (id, l) all -> h !! l = None) /\
  (forall l c, h !! l = Some c -> h' !! l = Some c).
Proof.
  induction entries as [|[id l0] rest IH]; intros h all h'; cbn [copy_all].
  - intros H. inversion H; subst. split; [intros ? ? []|auto].
  - destruct (h !! l0) as [c|] eqn:Hc; [|apply IH].
    destruct (spread h c) as [copy h1] eqn:Hs.
    destruct (copy_all rest h1) as [cc h2] eqn:Hr.
    intros H. inversion H; subst. clear H.
    apply spread_spec in Hs as [Hf ->].
    destruct (IH _ _ _ Hr) as [Hnew Hkeep]. split.
    + intros id' l [[= <- <-]|Hin]; [assumption|].
      specialize (Hnew _ _ Hin).
      destruct (decide (copy = l)) as [->|Hne]; [assumption|].
      now rewrite lookup_insert_ne in Hnew.
    + intros l c' Hl. apply Hkeep.
      rewrite lookup_insert_ne; [assumption|]. intros ->. congruence.
Qed.

Lemma stored_heap_grows m (h h' : heap) id :
  allocated m h ->
  (forall l c, h !! l = Some c -> h' !! l = Some c) ->
  stored m h' id = stored m h id.
Proof.
  intros Ha Hg. unfold stored.
  destruct (get (configs m) id) as [l|] eqn:E; [|reflexivity].
  destruct (Ha id l (get_In _ _ _ E)) as [c Hc]. rewrite Hc. now apply Hg.
Qed.

Lemma configs_saveConfigs write m (h : heap) :
  configs (snd (saveConfigs write m h)) = configs m.
Proof. now destruct write. Qed.

Lemma stored_saveConfigs write m (h h0 : heap) id :
  stored (snd (saveConfigs write m h0)) h id = stored m h id.
Proof. unfold stored. now rewrite configs_saveConfigs. Qed.

Lemma addConfig_spec write now config m (h : heap) id m' h' :
  addConfig write now config m h = Some (id, m', h') ->
  exists c copy,
    h !! config = Some c /\ h !! copy = None /\ h' = <[copy := c]> h /\
    configs m' = set (configs m) id copy.
Proof.
  unfold addConfig. destruct (h !! config) as [c|] eqn:Hc; [|discriminate].
  destruct (spread h c) as [copy h1] eqn:Hs. intros H. inversion H; subst.
  apply spread_spec in Hs as [Hf ->]. exists c, copy.
  rewrite configs_saveConfigs. auto.
Qed.

Lemma updateConfig_spec write id config m (h : heap) m' h' :
  updateConfig write id config m h = Some (true, m', h') ->
  exists c copy,
    h !! config = Some c /\ h !! copy = None /\ h' = <[copy := c]> h /\
    configs m' = set (configs m) id copy.
Proof.
  unfold updateConfig. destruct (h !! config) as [c|] eqn:Hc; [|discriminate].
  destruct (get (configs m) id); [|discriminate].
  destruct (spread h c) as [copy h1] eqn:Hs. intros H. inversion H; subst.
  apply spread_spec in Hs as [Hf ->]. exists c, copy.
  rewrite configs_saveConfigs. auto.
Qed.

(** What is stored after a copy was put under [id] does not change when
    the original is written to. *)
Lemma stored_copy_independent m' (h : heap) id config c copy f :
  h !! config = Some c -> h !! copy = None ->
  get (configs m') id = Some copy ->
  stored m' (mutate config f (<[copy := c]> h)) id = Some c.
Proof.
  intros Hc Hf Hg. unfold stored, mutate. rewrite Hg.
  rewrite lookup_alter_ne by (intros ->; congruence).
  apply lookup_insert_eq.
Qed.

(** The store keeps pointing to objects. *)
Lemma In_set_inv {V} (o : obj V) k v k' v' :
  In (k', v') (set o k v) -> (k' = k /\ v' = v) \/ In (k', v') o.
Proof.
  induction o as [|[k0 v0] o IH]; simpl.
  - intros [[= <- <-]|[]]. now left.
  - destruct (String.eqb_spec k0 k) as [->|_]; simpl.
    + intros [[= <- <-]|H]; auto.
    + intros [[= <- <-]|H]; auto. destruct (IH H); auto.
Qed.

Lemma allocated_addConfig write now config m (h : heap) id m' h' :
  allocated m h -> addConfig write now config m h = Some (id, m', h') ->
  allocated m' h'.
Proof.
  intros Ha H. apply addConfig_spec in H as (c & copy & Hc & Hf & -> & Hm).
  intros id' l Hin. rewrite Hm in Hin.
  apply In_set_inv in Hin as [[_ ->]|Hin].
  - rewrite lookup_insert_eq. eauto.
  - destruct (Ha _ _ Hin) as [c' Hc'].
    rewrite lookup_insert_ne by (intros ->; congruence). eauto.
Qed.

Lemma allocated_mutate m (h : heap) l f :
  allocated m h -> allocated m (mutate l f h).
Proof.
  intros Ha id l' Hin. destruct (Ha _ _ Hin) as [c Hc]. unfold mutate.
  destruct (decide (l = l')) as [->|Hne].
  - rewrite lookup_alter_eq, Hc. simpl. eauto.
  - rewrite lookup_alter_ne by assumption. eauto.
Qed.

Lemma allocated_empty (h : heap) : allocated ConfigManager.empty h.
Proof. intros id l []. Qed.

End ConfigFacts.

(** ** MongoDB commands: white space and unparsable arguments *)

Section MongoFacts.
Import JS DatabaseManager.







Section WithParser.
Context (JSON_parse : string -> option json).









End WithParser.

(** The service searches its pattern in the query as it is; white space
    around the query is passed over. *)











End MongoFacts.

(** ** The registry never reports a connection it does not hold *)

Section RegistryFacts.
Import JS ConfigManager DatabaseManager.

Lemma status_backed_init : status_backed init.
Proof. intros id H. simpl in H. rewrite lookup_empty in H. discriminate. Qed.

Lemma status_backed_same r r' :
  connections r' = connections r ->
  connectionStatus r' = connectionStatus r ->
  status_backed r -> status_backed r'.
Proof. intros Hc Hs H id. rewrite Hc, Hs. apply H. Qed.

Lemma status_backed_recorded r r' id h :
  connections r' = <[id := h]> (connections r) ->
  connectionStatus r' = <[id := true]> (connectionStatus r) ->
  status_backed r -> status_backed r'.
Proof.
  intros Hc Hs H id'. rewrite Hc, Hs.
  destruct (decide (id = id')) as [->|Hne].
  - rewrite !lookup_insert_eq. eauto.
  - rewrite !lookup_insert_ne by assumption. apply H.
Qed.

Lemma status_backed_forget r id : status_backed r -> status_backed (forget id r).
Proof.
  intros H id'. unfold forget. simpl.
  destruct (decide (id = id')) as [->|Hne].
  - rewrite lookup_insert_eq. discriminate.
  - rewrite lookup_insert_ne, lookup_delete_ne by assumption. apply H.
Qed.

(** [connect] either leaves both maps alone or records the handle and the
    status under the same id. *)
Lemma connect_maps t now dial r :
  let r' := snd (connect t now dial r) in
  (connections r' = connections r /\ connectionStatus r' = connectionStatus r) \/
  (exists id h, dial = Some h /\
                connections r' = <[id := h]> (connections r) /\
                connectionStatus r' = <[id := true]> (connectionStatus r)).
Proof.
  unfold connect.
  destruct t as [config_ref|connectionId].
  - destruct (objects r !! config_ref) as [config|]; [|left; now simpl].
    destruct (config_error config); [left; now simpl|].
    destruct dial as [h|]; [|left; now simpl].
    right. simpl. eauto.
  - destruct (getConfig connectionId (configManager r) (objects r)) as [[l|] h'].
    + destruct (h' !! l) as [config|]; [|left; now simpl].
      destruct (config_error config); [left; now simpl|].
      destruct dial as [h|]; [|left; now simpl].
      right. simpl. eauto.
    + left; now simpl.
Qed.

(** [connect] of the registry asks the driver once: when the driver
    throws, the error goes to the caller and both maps stay. *)
Lemma registry_connect_gives_up_at_once t now r :
  exists msg,
    fst (connect t now None r) = Thrown msg /\
    connections (snd (connect t now None r)) = connections r /\
    connectionStatus (snd (connect t now None r)) = connectionStatus r.
Proof.
  unfold connect.
  destruct t as [config_ref|connectionId].
  - destruct (objects r !! config_ref) as [config|]; [|simpl; eauto].
    destruct (config_error config); simpl; eauto.
  - destruct (getConfig connectionId (configManager r) (objects r)) as [[l|] h'];
      [|simpl; eauto].
    destruct (h' !! l) as [config|]; [|simpl; eauto].
    destruct (config_error config); simpl; eauto.
Qed.

Lemma status_backed_connect t now dial r :
  status_backed r -> status_backed (snd (connect t now dial r)).
Proof.
  intros H. destruct (connect_maps t now dial r) as [[Hc Hs]|(id & h & _ & Hc & Hs)].
  - eapply status_backed_same; eauto.
  - eapply status_backed_recorded; eauto.
Qed.

Lemma status_backed_disconnect id closed r :
  status_backed r -> status_backed (disconnect id closed r).
Proof.
  intros H. unfold disconnect.
  destruct (connections r !! id); [|assumption].
  destruct closed; [now apply status_backed_forget | assumption].
Qed.

Lemma status_backed_step r e : status_backed r -> status_backed (step r e).
Proof.
  intros H.
  destruct e as [t now dial|id closed|id|id closed write|id c closed write
                |now c write|id now dial|c];
    simpl.
  - now apply status_backed_connect.
  - now apply status_backed_disconnect.
  - now apply status_backed_forget.
  - unfold removeConfig.
    destruct (ConfigManager.removeConfig write id _ _) as [removed m'].
    eapply status_backed_same; [| |apply (status_backed_disconnect id closed r H)];
      reflexivity.
  - unfold updateConfig.
    destruct (ConfigManager.updateConfig write id c _ _) as [[[updated m'] h']|];
      [eapply status_backed_same;
         [| |apply (status_backed_disconnect id closed r H)]; reflexivity
      | now apply status_backed_disconnect].
  - unfold addConfig.
    destruct (ConfigManager.addConfig write now c _ _) as [[[id m'] h']|];
      [|assumption].
    eapply status_backed_same; [| |exact H]; reflexivity.
  - unfold ensureConnected.
    destruct (connectionStatus r !! id) as [[|]|]; simpl;
      try assumption; now apply status_backed_connect.
  - eapply status_backed_same; [| |exact H]; reflexivity.
Qed.

Lemma status_backed_run events : forall r,
  status_backed r -> status_backed (run events r).
Proof.
  unfold run. induction events as [|e events IH]; simpl; intros r H; [assumption|].
  apply IH. now apply status_backed_step.
Qed.

Lemma isConnected_status r id :
  isConnected r id = true <-> connectionStatus r !! id = Some true.
Proof.
  unfold isConnected. destruct (connectionStatus r !! id) as [[|]|]; split;
    congruence.
Qed.

End RegistryFacts.

(* ===================================================================== *)
(** * Further properties of the profile store (ConfigManager.ts) *)
(* ===================================================================== *)

Section ConfigStoreFacts.
Import JS ConfigManager.

Lemma get_remove_key_eq {V} (o : obj V) k : get (remove_key k o) k = None.
Proof.
  induction o as [|[k' v] o IH]; simpl; [reflexivity|].
  destruct (String.eqb k' k) eqn:E; simpl; [assumption|]. now rewrite E.
Qed.

Lemma get_remove_key_ne {V} (o : obj V) k k' :
  k' <> k -> get (remove_key k o) k' = get o k'.
Proof.
  intros Hne. induction o as [|[k0 v] o IH]; simpl; [reflexivity|].
  destruct (String.eqb_spec k0 k) as [->|Hk]; simpl.
  - destruct (String.eqb_spec k k'); [congruence|assumption].
  - destruct (String.eqb_spec k0 k'); [reflexivity|assumption].
Qed.

Lemma keys_set_present {V} (o : obj V) k v v0 :
  get o k = Some v0 -> keys (set o k v) = keys o.
Proof.
  induction o as [|[k' v'] o IH]; simpl; [discriminate|].
  destruct (String.eqb_spec k' k) as [->|Hk]; simpl; [reflexivity|].
  intros H. f_equal. auto.
Qed.

Lemma string_app_inv_head (p a b : string) : p +:+ a = p +:+ b -> a = b.
Proof. apply String.app_inj. Qed.

Lemma string_app_assoc (a b c : string) : (a +:+ b) +:+ c = a +:+ (b +:+ c).
Proof.
  induction a as [|x a IH]; [reflexivity|].
  change (String x ((a +:+ b) +:+ c) = String x (a +:+ b +:+ c)). now f_equal.
Qed.

(** The id is the same text up to the time stamp. *)
Lemma generateConnectionId_split now c :
  generateConnectionId now c =
  (type_name (type c) +:+ "-" +:+ or_else (host c) (or_else (filename c) "")
   +:+ "-" +:+ or_else (database c) "" +:+ "-") +:+ pretty now.
Proof.
  unfold generateConnectionId. now rewrite !string_app_assoc.
Qed.

Lemma generateConnectionId_inj now1 now2 c :
  generateConnectionId now1 c = generateConnectionId now2 c -> now1 = now2.
Proof.
  rewrite !generateConnectionId_split. intros H.
  apply string_app_inv_head in H. now apply (inj pretty) in H.
Qed.

(** [load_all] puts new objects into the map: what the map held stays,
    each entry added comes from the file, under an id made at load time. *)
Lemma load_all_spec entries clock : forall i cfgs (h : heap) cfgs' h',
  load_all entries i clock cfgs h = (cfgs', h') ->
  (forall l c, h !! l = Some c -> h' !! l = Some c) /\
  (forall id l, In (id, l) cfgs' ->
     (In (id, l) cfgs) \/
     (exists k c, nth_error entries k = Some c /\
                  id = generateConnectionId (clock (i + k)) c /\
                  h !! l = None /\ h' !! l = Some c)).
Proof.
  induction entries as [|config rest IH]; intros i cfgs h cfgs' h'; cbn [load_all].
  - intros H. inversion H; subst. split; auto.
  - destruct (spread h config) as [l0 h1] eqn:Hs.
    apply spread_spec in Hs as [Hf ->]. intros H.
    destruct (IH _ _ _ _ _ H) as [Hgrow Hin]. split.
    + intros l c Hl. apply Hgrow.
      rewrite lookup_insert_ne; [assumption|]. intros ->. congruence.
    + intros id l Hil. destruct (Hin _ _ Hil) as [Hold|(k & c & Hk & -> & Hn & Hl)].
      * apply In_set_inv in Hold as [[-> ->]|Hold]; [|now left].
        right. exists 0, config. rewrite Nat.add_0_r.
        repeat split; auto. apply Hgrow, lookup_insert_eq.
      * right. exists (S k), c. rewrite Nat.add_succ_r.
        repeat split; auto.
        destruct (decide (l0 = l)) as [->|Hne].
        -- now rewrite lookup_insert_eq in Hn.
        -- now rewrite lookup_insert_ne in Hn.
Qed.

(** With every stored reference pointing to an object, [getAllConfigs]
    copies entry by entry. *)
Lemma copy_all_extends entries : forall (h0 h : heap) all h',
  (forall l c, h0 !! l = Some c -> h !! l = Some c) ->
  (forall id l, In (id, l) entries -> is_Some (h0 !! l)) ->
  copy_all entries h = (all, h') ->
  Forall2 (fun e e0 => fst e = fst e0 /\ h' !! snd e = h0 !! snd e0) all entries.
Proof.
  induction entries as [|[id l0] rest IH]; intros h0 h all h' Hext Ha; cbn [copy_all].
  - intros H. inversion H; subst. constructor.
  - destruct (Ha id l0 (or_introl eq_refl)) as [c Hc]. rewrite (Hext _ _ Hc).
    destruct (spread h c) as [copy h1] eqn:Hs.
    destruct (copy_all rest h1) as [cc h2] eqn:Hr.
    intros H. inversion H; subst. clear H.
    apply spread_spec in Hs as [Hf ->].
    destruct (copy_all_spec _ _ _ _ Hr) as [_ Hkeep].
    constructor.
    + simpl. split; [reflexivity|]. rewrite Hc. apply Hkeep, lookup_insert_eq.
    + apply (IH h0 (<[copy := c]> h) cc h'); [| |exact Hr].
      * intros l c' Hl. rewrite lookup_insert_ne; [now apply Hext|].
        intros ->. apply Hext in Hl. congruence.
      * intros id' l Hin. apply (Ha id' l). now right.
Qed.

Lemma copy_all_faithful entries (h : heap) all h' :
  (forall id l, In (id, l) entries -> is_Some (h !! l)) ->
  copy_all entries h = (all, h') ->
  Forall2 (fun e e0 => fst e = fst e0 /\ h' !! snd e = h !! snd e0) all entries.
Proof. intros Ha. apply copy_all_extends; auto. Qed.

(** What [saveConfigs] leaves in the file. *)
Lemma saveConfigs_persisted write m (h : heap) :
  (write = Done tt ->
   persisted (snd (saveConfigs write m h))
   = omap (fun kv => h !! snd kv) (configs m)) /\
  (forall error, write = Thrown error ->
   persisted (snd (saveConfigs write m h)) = persisted m).
Proof. split; [intros ->|intros error ->]; reflexivity. Qed.

Lemma In_persisted (cfgs : obj loc) (h : heap) id l c :
  get cfgs id = Some l -> h !! l = Some c ->
  In c (omap (fun kv => h !! snd kv) cfgs).
Proof.
  intros Hg Hl. apply list_elem_of_In, list_elem_of_omap.
  exists (id, l). split; [apply list_elem_of_In, get_In, Hg|exact Hl].
Qed.

(** [addConfig] and [updateConfig] in full: the copy, the id and the
    write. *)
Lemma addConfig_steps write now config m (h : heap) id m' h' :
  addConfig write now config m h = Some (id, m', h') ->
  exists c copy,
    h !! config = Some c /\ id = generateConnectionId now c /\
    h !! copy = None /\ h' = <[copy := c]> h /\
    m' = snd (saveConfigs write
                {| configs := set (configs m) id copy;
                   persisted := persisted m |} h').
Proof.
  unfold addConfig. destruct (h !! config) as [c|] eqn:Hc; [|discriminate].
  destruct (spread h c) as [copy h1] eqn:Hs. intros H. inversion H; subst.
  apply spread_spec in Hs as [Hf ->]. exists c, copy. auto.
Qed.

Lemma updateConfig_steps write id config c l0 m (h : heap) :
  h !! config = Some c -> get (configs m) id = Some l0 ->
  exists copy,
    h !! copy = None /\
    updateConfig write id config m h
    = Some (true,
            snd (saveConfigs write
                   {| configs := set (configs m) id copy;
                      persisted := persisted m |} (<[copy := c]> h)),
            <[copy := c]> h).
Proof.
  intros Hc Hg. unfold updateConfig. rewrite Hc, Hg.
  destruct (spread h c) as [copy h1] eqn:Hs.
  apply spread_spec in Hs as [Hf ->]. exists copy. auto.
Qed.

(** [removeConfig] case by case. *)
Lemma removeConfig_cases write id m (h : heap) :
  match get (configs m) id, write with
  | None, _ => removeConfig write id m h = (Done false, m)
  | Some _, Done _ =>
      removeConfig write id m h
      = (Done true,
         {| configs := remove_key id (configs m);
            persisted := omap (fun kv => h !! snd kv)
                           (remove_key id (configs m)) |})
  | Some _, Thrown _ =>
      removeConfig write id m h
      = (Thrown "删除配置保存失败",
         {| configs := remove_key id (configs m); persisted := persisted m |})
  end.
Proof.
  unfold removeConfig. destruct (get (configs m) id); [|reflexivity].
  now destruct write.
Qed.

End ConfigStoreFacts.

(* ===================================================================== *)
(** * Further properties of the registry (DatabaseManager.ts) *)
(* ===================================================================== *)

Section RegistryMoreFacts.
Import JS ConfigManager DatabaseManager.

Lemma registry_eta r :
  {| connections := connections r; connectionStatus := connectionStatus r;
     configManager := configManager r; objects := objects r |} = r.
Proof. now destruct r. Qed.

(** [getConfig] answers a new copy of what is stored, and nothing for
    what is not. *)
Lemma getConfig_stored id m (h : heap) :
  match stored m h id with
  | Some c => exists copy, h !! copy = None /\
                           getConfig id m h = (Some copy, <[copy := c]> h)
  | None => getConfig id m h = (None, h)
  end.
Proof.
  unfold stored, getConfig.
  destruct (get (configs m) id) as [l|]; [|reflexivity].
  destruct (h !! l) as [c|]; [|reflexivity].
  destruct (spread h c) as [copy h'] eqn:Hs.
  apply spread_spec in Hs as [Hf ->]. eauto.
Qed.

(** What [connect(connectionId)] comes to. *)
Lemma connect_by_id_outcome id now dial r :
  match stored (configManager r) (objects r) id with
  | None => connect (inr id) now dial r = (Thrown "未找到数据库配置", r)
  | Some c =>
      exists copy,
        objects r !! copy = None /\
        connect (inr id) now dial r =
        match config_error c with
        | Some msg => (Thrown msg, with_objects r (<[copy := c]> (objects r)))
        | None =>
            match dial with
            | None => (Thrown "连接失败", with_objects r (<[copy := c]> (objects r)))
            | Some connection =>
                (Done true,
                 {| connections := <[id := connection]> (connections r);
                    connectionStatus := <[id := true]> (connectionStatus r);
                    configManager := configManager r;
                    objects := <[copy := c]> (objects r) |})
            end
        end
  end.
Proof.
  pose proof (getConfig_stored id (configManager r) (objects r)) as H.
  destruct (stored (configManager r) (objects r) id) as [c|].
  - destruct H as (copy & Hf & Hg). exists copy. split; [assumption|].
    unfold connect. rewrite Hg, lookup_insert_eq.
    destruct (config_error c); [reflexivity|]. now destruct dial.
  - unfold connect. rewrite H. now rewrite registry_eta.
Qed.

Lemma stored_with_fresh m (h : heap) copy c id :
  allocated m h -> h !! copy = None ->
  stored m (<[copy := c]> h) id = stored m h id.
Proof.
  intros Ha Hf. apply stored_insert_other. now apply (allocated_not_fresh m h).
Qed.

End RegistryMoreFacts.

(* ===================================================================== *)
(** * Further properties of the MongoDB command parser *)
(* ===================================================================== *)

Section MongoMoreFacts.
Import JS DatabaseManager.

Lemma starts_with_ci_of_starts_with p : forall s,
  starts_with p s = true -> starts_with_ci p s = true.
Proof.
  induction p as [|a p IH]; intros s; simpl; [reflexivity|].
  destruct s as [|b s]; [discriminate|].
  intros H. apply andb_true_iff in H as [Hab Hp].
  apply Ascii.eqb_eq in Hab. subst b.
  now rewrite Ascii.eqb_refl, IH.
Qed.

Lemma substring_0_S c s n :
  String.substring 0 (S n) (String c s) = String c (String.substring 0 n s).
Proof. reflexivity. Qed.

Lemma substring_0_0 s : String.substring 0 0 s = "".
Proof. now destruct s. Qed.

(** Up to the first dot: what [indexOf('.')] and the pattern's [[^\.]+]
    cut off are the same text. *)
Lemma span_not_dot_index t : forall n,
  index_of "." t = Some n ->
  exists rest,
    span_not_dot t = (substring 0 n t, String "."%char rest) /\
    skip n t = String "."%char rest.
Proof.
  induction t as [|c t IH]; intros n; cbn [index_of starts_with].
  - discriminate.
  - destruct (Ascii.eqb_spec "."%char c) as [<-|Hne]; simpl.
    + intros [= <-]. exists t. split; reflexivity.
    + destruct (index_of "." t) as [m|] eqn:E; [|discriminate].
      intros [= <-]. destruct (IH m eq_refl) as (rest & Hs & Hk).
      exists rest. destruct (Ascii.eqb_spec c "."%char) as [->|_]; [congruence|].
      rewrite Hs. split; [|exact Hk].
      unfold substring. rewrite !Nat.sub_0_r. now rewrite substring_0_S.
Qed.

Lemma skip_add n : forall m s, skip (n + m) s = skip m (skip n s).
Proof.
  induction n as [|n IH]; intros m s; simpl.
  - now destruct s.
  - destruct s as [|c s]; [now destruct m|]. apply IH.
Qed.

(** The text before an occurrence is a prefix of the text. *)
Lemma starts_with_substring p s : forall n,
  index_of p s = Some n -> starts_with (substring 0 n s) s = true.
Proof.
  unfold substring. induction s as [|c s IH]; intros n; cbn [index_of].
  - destruct (starts_with p ""); [|discriminate]. now intros [= <-].
  - destruct (starts_with p (String c s)).
    + intros [= <-]. reflexivity.
    + destruct (index_of p s) as [m|]; [|discriminate]. intros [= <-].
      rewrite Nat.sub_0_r, substring_0_S. simpl.
      rewrite Ascii.eqb_refl. specialize (IH m eq_refl).
      now rewrite Nat.sub_0_r in IH.
Qed.

Lemma includes_In_iff l x : includes l x = true <-> In x l.
Proof.
  unfold includes. rewrite existsb_exists. split.
  - intros (y & Hy & E). apply String.eqb_eq in E. now subst.
  - intros H. exists x. split; [assumption|apply String.eqb_refl].
Qed.

Lemma match_here_collectionMatch s g :
  match_here s = Some g -> collectionMatch s = Some g.
Proof. intros H. destruct s; cbn [collectionMatch]; now rewrite H. Qed.

(** Whatever the parse by hand accepts, the pattern has matched already. *)
Lemma manual_parse_matched s g :
  manual_parse s = Some g -> exists g', match_here s = Some g'.
Proof.
  unfold manual_parse, match_here.
  destruct (starts_with "db." s) eqn:Hdb; [|discriminate].
  rewrite (starts_with_ci_of_starts_with _ _ Hdb).
  generalize (skip 3 s). clear Hdb. intros t.
  destruct (index_of "." t) as [[|d]|] eqn:Hdot; try discriminate.
  destruct (span_not_dot_index _ _ Hdot) as (rest & Hspan & Hskip).
  rewrite Hspan. rewrite skip_add, Hskip. cbn [skip].
  destruct (index_of "(" rest) as [[|e]|] eqn:Hpar; try discriminate.
  destruct (includes supportedOperations (substring 0 (S e) rest)) eqn:Hinc;
    [|discriminate].
  intros _.
  assert (Hcoll : exists c0 s0, substring 0 (S d) t = String c0 s0).
  { unfold substring. rewrite Nat.sub_0_r.
    destruct t as [|c0 s0]; [discriminate|].
    rewrite substring_0_S. eauto. }
  destruct Hcoll as (c0 & s0 & ->).
  destruct (find (fun op => starts_with_ci op rest) supportedOperations)
    as [op|] eqn:Hf; [eauto|].
  exfalso. apply includes_In_iff in Hinc.
  pose proof (find_none _ _ Hf _ Hinc) as Hno. cbv beta in Hno.
  rewrite (starts_with_ci_of_starts_with _ _ (starts_with_substring _ _ _ Hpar))
    in Hno. discriminate.
Qed.

Lemma manual_parse_dead s :
  collectionMatch s = None -> manual_parse s = None.
Proof.
  intros H. destruct (manual_parse s) as [g|] eqn:E; [|reflexivity].
  destruct (manual_parse_matched _ _ E) as [g' Hg'].
  rewrite (match_here_collectionMatch _ _ Hg') in H. discriminate.
Qed.

Lemma param_or_truthy params i dflt :
  json_truthy dflt = true -> json_truthy (param_or params i dflt) = true.
Proof.
  intros H. unfold param_or. destruct (nth_error params i) as [j|]; [|assumption].
  destruct (json_truthy j) eqn:E; assumption.
Qed.

Lemma arguments_truthy op params :
  Forall (fun j => json_truthy j = true) (arguments op params) /\
  length (arguments op params) = arity op.
Proof.
  split; [|now destruct op].
  destruct op; simpl;
    repeat (first [apply List.Forall_nil | apply List.Forall_cons]);
    now apply param_or_truthy.
Qed.

(** What is dispatched went through [run_command]. *)
Lemma executeMongo_call JSON_parse q collectionName op args :
  executeMongo JSON_parse q = Call collectionName op args ->
  exists params, args = arguments op params.
Proof.
  unfold executeMongo.
  assert (Hrun : forall cq c t,
    run_command JSON_parse cq c t = Call collectionName op args ->
    exists params, args = arguments op params).
  { intros cq c t. unfold run_command.
    destruct (operation_of t) as [op'|]; [|discriminate].
    intros H. inversion H; subst. eauto. }
  destruct (collectionMatch (collapse_spaces (trim q))) as [[c t]|]; [apply Hrun|].
  destruct (manual_parse (collapse_spaces (trim q))) as [[c t]|];
    [apply Hrun|discriminate].
Qed.

(** The operation text that the pattern cut out is one of the seven names
    up to the case of its letters. *)
Lemma starts_with_ci_lower op : forall s,
  starts_with_ci op s = true ->
  lower_text (substring 0 (String.length op) s) = lower_text op.
Proof.
  unfold substring. induction op as [|a op IH]; intros s; simpl.
  - intros _. now rewrite substring_0_0.
  - destruct s as [|b s]; [discriminate|].
    intros H. apply andb_true_iff in H as [Hab Hp].
    apply Ascii.eqb_eq in Hab. simpl. rewrite Hab. f_equal.
    specialize (IH s Hp). now rewrite Nat.sub_0_r in IH.
Qed.

Lemma match_here_operation s c t :
  match_here s = Some (c, t) ->
  exists op, In op supportedOperations /\ lower_text t = lower_text op.
Proof.
  unfold match_here. destruct (starts_with_ci "db." s); [|discriminate].
  destruct (span_not_dot (skip 3 s)) as [[|c0 coll] [|d rest]]; try discriminate.
  destruct (find (fun op => starts_with_ci op rest) supportedOperations)
    as [op|] eqn:Hf; [|discriminate].
  intros [= <- <-]. apply find_some in Hf as [Hin Hop].
  exists op. split; [assumption|]. now apply starts_with_ci_lower.
Qed.

Lemma collectionMatch_operation s : forall c t,
  collectionMatch s = Some (c, t) ->
  exists op, In op supportedOperations /\ lower_text t = lower_text op.
Proof.
  induction s as [|a s IH]; intros c t; cbn [collectionMatch].
  - destruct (match_here "") as [g|] eqn:E; [|discriminate].
    intros [= ->]. eapply match_here_operation, E.
  - destruct (match_here (String a s)) as [g|] eqn:E.
    + intros [= ->]. eapply match_here_operation, E.
    + apply IH.
Qed.

Lemma operation_of_In t :
  In t supportedOperations <-> exists op, operation_of t = Some op.
Proof.
  unfold operation_of. split.
  - intros H. simpl in H.
    repeat (destruct H as [<-|H]; [simpl; eauto|]). contradiction.
  - intros [op H].
    repeat match type of H with
    | (if String.eqb t ?x then _ else _) = _ =>
        destruct (String.eqb_spec t x) as [->|_]; [simpl; tauto|]
    end.
    discriminate.
Qed.

(** ** The arguments and the texts they are parsed from *)

Section ArgumentTexts.
Context (JSON_parse : string -> option json).









End ArgumentTexts.

End MongoMoreFacts.

(* ===================================================================== *)
(** * Further properties of the adapter service *)
(* ===================================================================== *)

Section ServiceMoreFacts.
Import JS DatabaseServiceImpl.

Lemma starts_with_app p s : starts_with p (p +:+ s) = true.
Proof.
  induction p as [|a p IH]; [reflexivity|].
  change (String a p +:+ s) with (String a (p +:+ s)). simpl.
  now rewrite Ascii.eqb_refl.
Qed.

Lemma starts_with_split p : forall s,
  starts_with p s = true -> s = p +:+ skip (String.length p) s.
Proof.
  induction p as [|a p IH]; intros s; simpl.
  - intros _. now destruct s.
  - destruct s as [|b s]; [discriminate|]. intros H.
    apply andb_true_iff in H as [Hab Hp]. apply Ascii.eqb_eq in Hab. subst b.
    change (String a p +:+ skip (String.length p) s)
      with (String a (p +:+ skip (String.length p) s)).
    f_equal. now apply IH.
Qed.

Lemma skip_length_app p s : skip (String.length p) (p +:+ s) = s.
Proof.
  induction p as [|a p IH]; [now destruct s|].
  change (String a p +:+ s) with (String a (p +:+ s)). exact IH.
Qed.

(** The word that [\w+] takes is the longest run of word characters. *)
Lemma span_word_split t : forall a b,
  span_word t = (a, b) -> t = a +:+ b /\ all_word a = true.
Proof.
  induction t as [|c t IH]; intros a b; simpl.
  - intros [= <- <-]. auto.
  - destruct (is_word c) eqn:Hc.
    + destruct (span_word t) as [a' b'] eqn:E. intros [= <- <-].
      destruct (IH _ _ eq_refl) as [-> Ha]. split; [reflexivity|].
      simpl. now rewrite Hc.
    + intros [= <- <-]. auto.
Qed.

Lemma span_word_stops w : forall c rest,
  all_word w = true -> is_word c = false ->
  span_word (w +:+ String c rest) = (w, String c rest).
Proof.
  induction w as [|a w IH]; intros c rest; simpl.
  - intros _ Hc. change ("" +:+ String c rest) with (String c rest).
    simpl. now rewrite Hc.
  - intros H Hc. apply andb_true_iff in H as [Ha Hw].
    change (String a w +:+ String c rest) with (String a (w +:+ String c rest)).
    simpl. now rewrite Ha, (IH c rest Hw Hc).
Qed.

Lemma match_find_here_sound s c :
  match_find_here s = Some c ->
  exists rest, s = "db." +:+ c +:+ ".find" +:+ rest /\
               c <> "" /\ all_word c = true.
Proof.
  unfold match_find_here.
  destruct (starts_with "db." s) eqn:Hdb; [|discriminate].
  apply starts_with_split in Hdb. simpl String.length in Hdb.
  destruct (span_word (skip 3 s)) as [a b] eqn:E.
  apply span_word_split in E as [Ht Ha].
  destruct a as [|a0 a]; [discriminate|].
  destruct (starts_with ".find" b) eqn:Hf; [|discriminate].
  intros [= <-]. apply starts_with_split in Hf.
  exists (skip (String.length ".find") b).
  split; [|split; [discriminate|assumption]].
  now rewrite <- Hf, <- Ht.
Qed.

End ServiceMoreFacts.

(* ===================================================================== *)
(** * Further properties of the save handler of [extension.ts] *)
(* ===================================================================== *)

Section HandlerMoreFacts.
Import JS Backend Extension.
Context {B : backend}.

Lemma issue_app (a b : list call) (w : world B) :
  issue (a ++ b) w = (do _ <- issue a; issue b) w.
Proof.
  revert w. induction a as [|c a IH]; intros w; simpl.
  - unfold bind, ret. reflexivity.
  - unfold bind. destruct (invoke c w) as [[msg|rows] w1]; [reflexivity|].
    rewrite IH. reflexivity.
Qed.

(** A loop whose body issues at most one call. *)
Lemma for_each_issue {A} (f : A -> option call) (body : A -> M B unit)
    (l : list A) :
  (forall x w, body x w =
               match f x with
               | Some c => (do _ <- invoke c; ret tt) w
               | None => ret tt w
               end) ->
  forall w, for_each l body w = issue (omap f l) w.
Proof.
  intros Hb. induction l as [|x l IH]; intros w; simpl; [reflexivity|].
  unfold bind at 1. rewrite Hb. destruct (f x) as [c|]; simpl.
  - unfold bind. destruct (invoke c w) as [[msg|rows] w1]; simpl; [reflexivity|].
    apply IH.
  - apply IH.
Qed.

Lemma omap_Some_map {A C} (f : A -> C) (l : list A) :
  omap (fun x => Some (f x)) l = map f l.
Proof. induction l as [|x l IH]; [reflexivity|]. cbn; f_equal; exact IH. Qed.

Lemma omap_map_fmap {A C D} (f : A -> option C) (g : C -> D) (l : list A) :
  omap (fun x => option_map g (f x)) l = map g (omap f l).
Proof.
  induction l as [|x l IH]; [reflexivity|].
  cbn. destruct (f x); cbn; [f_equal|]; exact IH.
Qed.

Lemma bind_cong {A C} (m m' : M B A) (k k' : A -> M B C) :
  (forall w, m w = m' w) -> (forall a w, k a w = k' a w) ->
  forall w, bind m k w = bind m' k' w.
Proof.
  intros Hm Hk w. unfold bind. rewrite Hm.
  destruct (m' w) as [[e|a] w1]; auto.
Qed.

Lemma for_each_calls {A} (f : A -> call) (l : list A) (w : world B) :
  for_each l (fun x => do _ <- invoke (f x); ret tt) w = issue (map f l) w.
Proof.
  rewrite (for_each_issue (fun x => Some (f x))) by reflexivity.
  now rewrite omap_Some_map.
Qed.

(** The writes of a save are the planned calls, issued in order until one
    throws. *)
Lemma apply_changes_issue ctx originalData msg (w : world B) :
  apply_changes ctx originalData msg w
  = issue (planned_writes ctx originalData msg) w.
Proof.
  unfold apply_changes, planned_writes.
  destruct (is_mongodb ctx).
  - unfold run_mongo. cbn [issue].
    apply bind_cong; [reflexivity|]. intros _ w1.
    rewrite issue_app. apply bind_cong; [apply for_each_calls|]. intros _ w2.
    rewrite issue_app. apply bind_cong; [apply for_each_calls|]. intros _ w3.
    apply for_each_calls.
  - rewrite !map_app. rewrite issue_app. apply bind_cong.
    + intros w1. unfold run_deletes.
      rewrite (for_each_issue
                 (fun op => option_map ExecuteQuery
                              (delete_query ctx originalData msg op))).
      * now rewrite omap_map_fmap.
      * intros x w0. now destruct (delete_query ctx originalData msg x).
    + intros _ w1. rewrite issue_app. apply bind_cong.
      * intros w2. unfold run_updates. rewrite map_map. apply for_each_calls.
      * intros _ w2. unfold run_inserts. rewrite map_map. apply for_each_calls.
Qed.

(** What a run of [issue] leaves: all calls logged and answered, or the
    calls up to the one that threw. *)
Lemma issue_cases (cs : list call) : forall (w : world B),
  w_out (snd (issue cs w)) = w_out w /\
  ((fst (issue cs w) = Done tt /\
    w_log (snd (issue cs w)) = w_log w ++ cs /\
    db_after cs (w_db w) = Some (w_db (snd (issue cs w)))) \/
   (exists e done c rest,
      fst (issue cs w) = Thrown e /\ cs = done ++ c :: rest /\
      w_log (snd (issue cs w)) = w_log w ++ done ++ [c] /\
      db_after done (w_db w) = Some (w_db (snd (issue cs w))) /\
      exec B (w_db (snd (issue cs w))) c = Throw e)).
Proof.
  induction cs as [|c cs IH]; intros w; cbn [issue db_after].
  - split; [reflexivity|]. left. simpl. now rewrite app_nil_r.
  - unfold bind, invoke. destruct (exec B (w_db w) c) as [e|d rows] eqn:E.
    + cbn [fst snd w_out w_log w_db]. split; [reflexivity|].
      right. exists e, [], c, cs. cbn [db_after app].
      repeat split; auto.
    + destruct (IH (World d (w_log w ++ [c]) (w_out w))) as [Ho Hc].
      cbn [w_out w_log w_db] in Ho, Hc.
      split; [exact Ho|].
      destruct Hc as [(Hd & Hl & Hdb)|(e & done & c' & rest & He & -> & Hl & Hdb & Hx)].
      * left. split; [assumption|]. split; [|assumption].
        now rewrite Hl, <- app_assoc.
      * right. exists e, (c :: done), c', rest. cbn [db_after]. rewrite E.
        split; [assumption|]. split; [reflexivity|].
        split; [now rewrite Hl, <- app_assoc|]. split; assumption.
Qed.

Lemma invoke_silent c (w : world B) : w_out (snd (invoke c w)) = w_out w.
Proof. unfold invoke. now destruct (exec B (w_db w) c). Qed.

Lemma fetch_silent ctx (w : world B) :
  w_out (snd (fetch_rows ctx w)) = w_out w.
Proof.
  unfold fetch_rows. destruct (is_mongodb ctx); [|apply invoke_silent].
  unfold bind. pose proof (invoke_silent GetMongoConnection w) as H1.
  destruct (invoke GetMongoConnection w) as [[e|r0] w1]; [exact H1|].
  simpl in H1. rewrite <- H1. apply invoke_silent.
Qed.

(** The handler of a save, step by step. *)
Lemma onSaveChanges_steps ctx msg (w : world B) :
  onSaveChanges ctx msg w =
  match fetch_rows ctx w with
  | (Thrown e, w1) => postMessage (ErrorMessage e) w1
  | (Done rows, w1) =>
      match issue (planned_writes ctx (index_rows rows) msg) w1 with
      | (Thrown e, w2) => postMessage (ErrorMessage e) w2
      | (Done _, w2) =>
          match fetch_rows ctx
                  (World (w_db w2) (w_log w2) (w_out w2 ++ [SaveSuccess])) with
          | (Thrown _, w4) => (Done tt, w4)
          | (Done rows', w4) => postMessage (UpdateData rows') w4
          end
      end
  end.
Proof.
  unfold onSaveChanges. unfold catch at 1. unfold bind at 1.
  destruct (fetch_rows ctx w) as [[e|rows] w1]; [reflexivity|].
  unfold bind at 1. rewrite apply_changes_issue.
  destruct (issue (planned_writes ctx (index_rows rows) msg) w1)
    as [[e|u] w2]; [reflexivity|].
  unfold bind at 1. unfold postMessage at 1. unfold catch, bind.
  destruct (fetch_rows ctx _) as [[e|rows'] w4]; reflexivity.
Qed.

End HandlerMoreFacts.

(* ===================================================================== *)
(** * Which row a statement of the save handler is aimed at *)
(* ===================================================================== *)

Section TargetFacts.
Import JS Backend Extension.

Lemma value_eqb_refl v : value_eqb v v = true.
Proof.
  destruct v; simpl; auto using String.eqb_refl, Z.eqb_refl.
Qed.

Lemma In_set_new {V} (o : obj V) k v : In (k, v) (set o k v).
Proof. apply get_In, get_set_eq. Qed.

Lemma keys_set_keeps {V} (o : obj V) k v k' :
  In k' (keys o) -> In k' (keys (set o k v)).
Proof.
  induction o as [|[k0 v0] o IH]; simpl; [contradiction|].
  destruct (String.eqb k0 k); simpl; intros [->|H]; auto.
Qed.

(** [primaryKeyData] holds exactly the primary key columns, each with the
    value the row has for it. *)
Lemma pick_fold_sound r pks : forall acc k v,
  (forall k' v', In (k', v') acc -> v' = prop r k') ->
  In (k, v) (fold_left (fun acc pk => set acc pk (prop r pk)) pks acc) ->
  v = prop r k /\ (In k pks \/ In (k, v) acc).
Proof.
  induction pks as [|pk pks IH]; intros acc k v Hacc; simpl.
  - intros H. split; [eauto|now right].
  - intros H. apply IH in H as [Hv [Hin|Hin]].
    + split; [assumption|]. left. now right.
    + split; [assumption|].
      apply In_set_inv in Hin as [[-> ->]|Hin]; [left; now left|now right].
    + intros k' v' Hin. apply In_set_inv in Hin as [[-> ->]|Hin]; eauto.
Qed.

Lemma pick_keys_sound pks r k v :
  In (k, v) (pick_keys pks r) -> In k pks /\ v = prop r k.
Proof.
  intros H. apply pick_fold_sound in H as [Hv [Hin|[]]]; [auto|].
  intros k' v' [].
Qed.

Lemma pick_fold_keys r pks : forall acc k,
  In k pks \/ In k (keys acc) ->
  In k (keys (fold_left (fun acc pk => set acc pk (prop r pk)) pks acc)).
Proof.
  induction pks as [|pk pks IH]; intros acc k; simpl.
  - intros [[]|H]. exact H.
  - intros [[->|Hin]|Hin]; apply IH.
    + right. apply in_map_iff. exists (k, prop r k). split; [reflexivity|].
      apply In_set_new.
    + now left.
    + right. now apply keys_set_keeps.
Qed.

Lemma pick_keys_complete pks r k :
  In k pks -> In (k, prop r k) (pick_keys pks r).
Proof.
  intros Hin.
  assert (Hk : In k (keys (pick_keys pks r))) by (apply pick_fold_keys; now left).
  apply in_map_iff in Hk as ([k' v] & Ek & Hkv). simpl in Ek. subst k'.
  destruct (pick_keys_sound _ _ _ _ Hkv) as [_ ->]. exact Hkv.
Qed.

Lemma pick_keys_nil r : pick_keys [] r = [].
Proof. reflexivity. Qed.

(** The row that a delete is matched back to is the first deleted row
    that has one of the primary key columns in common with it. *)
Lemma find_deleted_row_first ctx originalData msg r first rest r1 k :
  m_deletedRows msg = first :: rest ->
  get originalData first = Some r1 ->
  In k (primaryKeys ctx) ->
  value_eqb (prop r1 k) (prop r k) = true ->
  find_deleted_row originalData msg
    {| d_primaryKeyData := pick_keys (primaryKeys ctx) r; d_rowData := r |}
  = Some first.
Proof.
  intros Hd Hg Hk He. unfold find_deleted_row. rewrite Hd. cbn [find d_primaryKeyData].
  assert (Hex : existsb
            (fun kv : string * value =>
               match get originalData first with
               | Some r0 => value_eqb (prop r0 (fst kv)) (snd kv)
               | None => false
               end) (pick_keys (primaryKeys ctx) r) = true).
  { apply existsb_exists. exists (k, prop r k).
    split; [now apply pick_keys_complete|]. now rewrite Hg. }
  now rewrite Hex.
Qed.

Lemma find_deleted_row_unique ctx originalData r rowId :
  primaryKeys ctx <> [] ->
  get originalData rowId = Some r ->
  forall ids,
    In rowId ids ->
    (forall rowId' r' k,
       In rowId' ids -> get originalData rowId' = Some r' ->
       In k (primaryKeys ctx) -> value_eqb (prop r' k) (prop r k) = true ->
       rowId' = rowId) ->
    find
      (fun id =>
         existsb
           (fun kv : string * value =>
              match get originalData id with
              | Some r0 => value_eqb (prop r0 (fst kv)) (snd kv)
              | None => false
              end)
           (pick_keys (primaryKeys ctx) r))
      ids = Some rowId.
Proof.
  intros Hpk Hg. induction ids as [|id ids IH]; [contradiction|].
  intros Hin Huniq. cbn [find].
  destruct (existsb _ (pick_keys (primaryKeys ctx) r)) eqn:Hex.
  - apply existsb_exists in Hex as ([k v] & Hkv & Hm). simpl in Hm.
    apply pick_keys_sound in Hkv as [Hk ->].
    destruct (get originalData id) as [r'|] eqn:Hg'; [|discriminate].
    f_equal. apply (Huniq id r' k); auto. now left.
  - destruct Hin as [->|Hin].
    + exfalso. destruct (primaryKeys ctx) as [|k ks] eqn:Epk; [congruence|].
      assert (HT : existsb
                (fun kv : string * value =>
                   match get originalData rowId with
                   | Some r0 => value_eqb (prop r0 (fst kv)) (snd kv)
                   | None => false
                   end) (pick_keys (k :: ks) r) = true).
      { apply existsb_exists. exists (k, prop r k).
        split; [apply pick_keys_complete; now left|].
        rewrite Hg. apply value_eqb_refl. }
      congruence.
    + apply IH; [assumption|]. intros rowId' r' k Hin'. apply Huniq. now right.
Qed.

Lemma append_nonempty a b : b <> "" -> a +:+ b <> "".
Proof.
  destruct a as [|c a]; [auto|].
  change (String c a +:+ b) with (String c (a +:+ b)). discriminate.
Qed.

Lemma join_nonempty sep x l : x <> "" -> join sep (x :: l) <> "".
Proof.
  intros Hx. destruct l as [|y l]; [exact Hx|].
  change (join sep (x :: y :: l)) with (x +:+ sep +:+ join sep (y :: l)).
  destruct x as [|c x]; [congruence|].
  change (String c x +:+ sep +:+ join sep (y :: l))
    with (String c (x +:+ sep +:+ join sep (y :: l))). discriminate.
Qed.

(** A row with a column gives a [WHERE] text. *)
Lemma delete_where_nonempty r : r <> [] -> delete_where r <> "".
Proof.
  destruct r as [|[column v] r]; [congruence|]. intros _.
  unfold delete_where. cbn [map].
  assert (Hc : (if null_like v then column +:+ " IS NULL"
                else column +:+ " = " +:+ quoted_escaped v) <> "").
  { destruct (null_like v); apply append_nonempty; [discriminate|].
    change (" = " +:+ quoted_escaped v) with (String " "%char ("= " +:+ quoted_escaped v)).
    discriminate. }
  cbn [List.filter]. unfold nonempty at 1.
  destruct (String.eqb_spec
              (if null_like v then column +:+ " IS NULL"
               else column +:+ " = " +:+ quoted_escaped v) "") as [E|_];
    [congruence|].
  cbn [negb]. now apply join_nonempty.
Qed.

(** Every update that the handler builds comes from an entry of
    [modifiedData] that is not a new row. *)
Lemma build_updates_In ctx originalData msg rowId data :
  In (rowId, data) (m_modifiedData msg) ->
  includes (m_newRows msg) rowId = false ->
  In {| u_primaryKeyData :=
          match get originalData rowId with
          | Some r => pick_keys (primaryKeys ctx) r
          | None => []
          end;
        u_updateData := data |}
     (build_updates ctx originalData msg).
Proof.
  intros Hin Hnew. unfold build_updates. apply in_flat_map.
  exists (rowId, data). split; [assumption|]. simpl. rewrite Hnew. now left.
Qed.

End TargetFacts.

(* ===================================================================== *)
(** * Further properties of the web view script of [extension.ts] *)
(* ===================================================================== *)

Section WebviewFacts.
Import JS Backend Extension.

Lemma In_set_other {V} (o : obj V) k v k' v' :
  In (k', v') o -> k' <> k -> In (k', v') (set o k v).
Proof.
  induction o as [|[k0 v0] o IH]; simpl; [contradiction|].
  intros [[= -> ->]|Hin] Hne.
  - destruct (String.eqb_spec k' k); [congruence|]. now left.
  - destruct (String.eqb k0 k); right; auto.
Qed.

Lemma get_as_row data k : get (as_row data) k = option_map JStr (get data k).
Proof.
  induction data as [|[k0 v0] data IH]; simpl; [reflexivity|].
  now destruct (String.eqb k0 k).
Qed.

(** Data without errors has a text that is not blank for every
    constrained column. *)
Lemma valid_data_filled ctx data c :
  has_errors (validateData ctx data) = false ->
  ext_constrained ctx c ->
  blank (get data (name c)) = false.
Proof.
  intros Hv Hc. destruct (blank (get data (name c))) eqn:Hb; [|reflexivity].
  rewrite (ext_validate_flags ctx data c Hc Hb) in Hv. discriminate.
Qed.

Lemma validate_modified_all ctx md :
  validate_modified ctx md = false ->
  forall rowId data, In (rowId, data) md ->
                     has_errors (validateData ctx data) = false.
Proof.
  unfold validate_modified. intros H rowId data Hin.
  destruct (has_errors (validateData ctx data)) eqn:E; [|reflexivity].
  assert (Hex : existsb (fun entry => has_errors (validateData ctx (snd entry))) md
                = true).
  { apply existsb_exists. exists (rowId, data). auto. }
  congruence.
Qed.

(** The second loop of [saveChanges] leaves no entry unchecked. *)
Lemma validate_new_all ctx els : forall md md2,
  validate_new ctx md els = (false, md2) ->
  (forall rowId data, In (rowId, data) md ->
                      has_errors (validateData ctx data) = false) ->
  forall rowId data, In (rowId, data) md2 ->
                     has_errors (validateData ctx data) = false.
Proof.
  induction els as [|el els IH]; intros md md2; cbn [validate_new].
  - intros [= <-]. auto.
  - destruct (validate_new ctx (absorb_new_row md el) els) as [bad' md'] eqn:E.
    intros [= Hb <-] Hall. apply orb_false_iff in Hb as [Hb1 ->].
    apply (IH _ _ E). intros rowId data Hin.
    unfold absorb_new_row in Hin, Hb1.
    rewrite get_set_eq in Hb1.
    apply In_set_inv in Hin as [[-> ->]|Hin]; [exact Hb1|eauto].
Qed.

(** An entry for a row id that no new row carries passes through the
    second loop as it is. *)
Lemma validate_new_keeps ctx els : forall md rowId data,
  In (rowId, data) md ->
  (forall el, In el els -> fst el <> rowId) ->
  In (rowId, data) (snd (validate_new ctx md els)).
Proof.
  induction els as [|el els IH]; intros md rowId data Hin Hne; cbn [validate_new].
  - exact Hin.
  - destruct (validate_new ctx (absorb_new_row md el) els) as [bad' md'] eqn:E.
    cbn [snd]. change md' with (snd (bad', md')). rewrite <- E.
    apply IH.
    + unfold absorb_new_row. apply In_set_other; [assumption|].
      intros Heq. apply (Hne el); [now left|now symmetry].
    + intros el' Hel. apply Hne. now right.
Qed.

Lemma saveChanges_message ctx st msg :
  saveChanges ctx st = Some msg ->
  validate_modified ctx (modifiedData st) = false /\
  fst (validate_new ctx (modifiedData st) (newRowElements st)) = false /\
  m_modifiedData msg
  = map (fun e => (fst e, as_row (snd e)))
      (snd (validate_new ctx (modifiedData st) (newRowElements st))) /\
  m_deletedRows msg = deletedRows st /\ m_newRows msg = newRows st.
Proof.
  unfold saveChanges.
  destruct (validate_new ctx (modifiedData st) (newRowElements st)) as [bad2 md].
  destruct (validate_modified ctx (modifiedData st)); [discriminate|].
  destruct bad2; [discriminate|]. intros [= <-]. simpl. auto.
Qed.

(** An edit that the handler cannot aim at a row is among the writes. *)
Lemma unidentified_update_planned ctx originalData msg rowId data :
  In (rowId, data) (m_modifiedData msg) ->
  includes (m_newRows msg) rowId = false ->
  primaryKeys ctx = [] \/ get originalData rowId = None ->
  In (if is_mongodb ctx
      then UpdateOne (tableName ctx) [] data
      else ExecuteQuery ("UPDATE " +:+ tableName ctx +:+ " SET "
                         +:+ update_set ctx data +:+ " WHERE "))
     (planned_writes ctx originalData msg).
Proof.
  intros Hin Hnew Hno.
  pose proof (build_updates_In ctx originalData msg rowId data Hin Hnew) as Hop.
  assert (Hpk : match get originalData rowId with
                | Some r => pick_keys (primaryKeys ctx) r
                | None => []
                end = []).
  { destruct Hno as [->| ->]; [|reflexivity]. now destruct (get originalData rowId). }
  rewrite Hpk in Hop. unfold planned_writes.
  destruct (is_mongodb ctx).
  - right. apply in_or_app. right. apply in_or_app. left.
    apply in_map_iff. eexists. split; [|exact Hop]. reflexivity.
  - apply in_map. apply in_or_app. right. apply in_or_app. left.
    apply in_map_iff. eexists. split; [|exact Hop]. reflexivity.
Qed.

End WebviewFacts.

(* ===================================================================== *)
(** * Further properties of the earlier editor *)
(* ===================================================================== *)

Section TrimFacts.
Import JS.

Lemma trim_start_cases s :
  trim_start s = "" \/
  exists c s', trim_start s = String c s' /\ is_space c = false.
Proof.
  induction s as [|c s IH]; simpl; [now left|].
  destruct (is_space c) eqn:E; [exact IH|]. right. eauto.
Qed.

Lemma trim_end_head c s :
  is_space c = false -> exists r, trim_end (String c s) = String c r.
Proof.
  intros Hc. simpl. destruct (trim_end s); rewrite ?Hc; eauto.
Qed.

Lemma trim_end_idem s : trim_end (trim_end s) = trim_end s.
Proof.
  induction s as [|c s IH]; [reflexivity|]. cbn [trim_end].
  destruct (trim_end s) as [|d r] eqn:E.
  - destruct (is_space c) eqn:Hc; [reflexivity|]. simpl. now rewrite Hc.
  - cbn [trim_end]. cbn [trim_end] in IH. rewrite IH. reflexivity.
Qed.

(** Trimming twice is trimming once. *)
Lemma trim_idem s : trim (trim s) = trim s.
Proof.
  unfold trim. destruct (trim_start_cases s) as [->|(c & s' & -> & Hc)];
    [reflexivity|].
  destruct (trim_end_head c s' Hc) as [r Hr]. rewrite Hr.
  assert (Hs : trim_start (String c r) = String c r) by (simpl; now rewrite Hc).
  rewrite Hs, <- Hr. apply trim_end_idem.
Qed.

End TrimFacts.

Section PrevFacts.
Import JS Backend ExtensionPrev.

Lemma has_number_texts s n : Forall is_text s -> has_number s n = false.
Proof.
  intros H. destruct n as [z|]; [|reflexivity]. simpl.
  induction H as [|v s [t ->] _ IH]; [reflexivity|]. simpl. exact IH.
Qed.

Lemma set_add_texts s t : Forall is_text s -> Forall is_text (set_add s (JStr t)).
Proof.
  intros H. unfold set_add. destruct (existsb _ s); [assumption|].
  apply Forall_app. split; [assumption|].
  apply List.Forall_cons; [now exists t|apply List.Forall_nil].
Qed.





(** The first element that a search finds after one element was
    replaced. *)
Lemma find_insert_first {A} (f : A -> bool) (d' : A) : forall (l : list A) j d,
  l !! j = Some d -> f d' = true ->
  (forall j' x, j' < j -> l !! j' = Some x -> f x = false) ->
  find f (<[j := d']> l) = Some d'.
Proof.
  induction l as [|x l IH]; intros j d Hj Hd' Hbefore; [discriminate|].
  destruct j as [|j]; simpl.
  - now rewrite Hd'.
  - rewrite (Hbefore 0 x); [|lia|reflexivity].
    apply (IH j d); [exact Hj|exact Hd'|].
    intros j' y Hlt Hy. apply (Hbefore (S j') y); [lia|exact Hy].
Qed.

Lemma find_first {A} (f : A -> bool) : forall (l : list A) j d,
  l !! j = Some d -> f d = true ->
  (forall j' x, j' < j -> l !! j' = Some x -> f x = false) ->
  find f l = Some d.
Proof.
  induction l as [|x l IH]; intros j d Hj Hd Hbefore; [discriminate|].
  destruct j as [|j]; simpl.
  - injection Hj as ->. now rewrite Hd.
  - rewrite (Hbefore 0 x); [|lia|reflexivity].
    apply (IH j d); [exact Hj|exact Hd|].
    intros j' y Hlt Hy. apply (Hbefore (S j') y); [lia|exact Hy].
Qed.

Section PrevHandler.
Context {B : backend}.

Lemma bind_issue_app {C} (a b : list call) (k : unit -> M B C) (w : world B) :
  bind (issue (a ++ b)) k w = bind (issue a) (fun _ => bind (issue b) k) w.
Proof.
  unfold bind at 1 2. rewrite issue_app. unfold bind at 1.
  destruct (issue a w) as [[e|u] w1]; reflexivity.
Qed.

(** The earlier handler of a save, step by step. *)
Lemma prev_onSaveChanges_steps ctx ch (w : world B) :
  onSaveChanges ctx ch w =
  match issue (prev_planned_writes ctx ch) w with
  | (Thrown e, w1) => postMessage (ErrorMessage e) w1
  | (Done _, w1) =>
      match invoke (ExecuteQuery (select_all ctx))
              (World (w_db w1) (w_log w1) (w_out w1 ++ [SaveSuccess])) with
      | (Thrown e, w3) => postMessage (ErrorMessage e) w3
      | (Done rows, w3) => postMessage (UpdateData rows) w3
      end
  end.
Proof.
  unfold onSaveChanges, prev_planned_writes.
  set (rest := (do _ <- postMessage SaveSuccess;
                do result <- invoke (ExecuteQuery (select_all ctx));
                postMessage (UpdateData result)) : M B unit).
  set (h := fun error : string => postMessage (B := B) (ErrorMessage error)).
  assert (E : forall w0,
    (do _ <- for_each (deletes ch)
               (fun primaryKeyData =>
                  match delete_query ctx primaryKeyData with
                  | None => ret tt
                  | Some q => do _ <- invoke (ExecuteQuery q); ret tt
                  end);
     do _ <- for_each (updates ch)
               (fun op =>
                  do _ <- invoke (ExecuteQuery (update_query ctx op)); ret tt);
     do _ <- for_each (inserts ch)
               (fun insertData =>
                  do _ <- invoke (ExecuteQuery (insert_query ctx insertData));
                  ret tt);
     rest) w0
    = bind (issue (map ExecuteQuery
                     (omap (delete_query ctx) (deletes ch)
                      ++ map (update_query ctx) (updates ch)
                      ++ map (insert_query ctx) (inserts ch))))
        (fun _ => rest) w0).
  { intros w0. rewrite !map_app. rewrite bind_issue_app. apply bind_cong.
    - intros w1.
      rewrite (for_each_issue
                 (fun pkd => option_map ExecuteQuery (delete_query ctx pkd))).
      + now rewrite omap_map_fmap.
      + intros x w2. now destruct (delete_query ctx x).
    - intros _ w1. rewrite bind_issue_app. apply bind_cong.
      + intros w2. rewrite map_map. apply for_each_calls.
      + intros _ w2. apply bind_cong; [|reflexivity].
        intros w3. rewrite map_map. apply for_each_calls. }
  unfold catch. rewrite E. unfold bind at 1.
  destruct (issue _ w) as [[e|u] w1]; [reflexivity|].
  unfold rest, bind, postMessage. simpl.
  destruct (invoke (ExecuteQuery (select_all ctx)) _) as [[e|rows] w3]; reflexivity.
Qed.

End PrevHandler.

End PrevFacts.

(* ===================================================================== *)
(** * A save as a run of calls *)
(* ===================================================================== *)

Section SaveRuns.
Import JS Backend.
Context {B : backend}.

Lemma world_eta (w : world B) : World (w_db w) (w_log w) (w_out w) = w.
Proof. now destruct w. Qed.

(** A run of [issue], told as a relation. *)
Lemma issue_until_throw (cs : list call) (w : world B) :
  exists issued d' failure,
    issued_until_throw (w_db w) cs issued d' failure /\
    issue cs w
    = (match failure with Some e => Thrown e | None => Done tt end,
       World d' (w_log w ++ issued) (w_out w)).
Proof.
  destruct (issue_cases cs w) as [Hout Hc].
  destruct (issue cs w) as [o w1] eqn:E. cbn [fst snd] in *.
  destruct Hc as [(Hd & Hl & Hdb)|(e & done & c & rest & Hd & Hp & Hl & Hdb & Hx)].
  - exists cs, (w_db w1), None. split; [now split|].
    subst o. rewrite <- Hl, <- Hout. now rewrite world_eta.
  - exists (done ++ [c]), (w_db w1), (Some e). split.
    + exists done, c, rest. auto.
    + subst o. rewrite <- Hl, <- Hout. now rewrite world_eta.
Qed.

(** The groups of the plan and their kinds. *)
Lemma planned_writes_groups ctx originalData msg :
  planned_writes ctx originalData msg
  = opening_calls ctx ++ delete_calls ctx originalData msg
    ++ update_calls ctx originalData msg ++ insert_calls ctx msg.
Proof.
  unfold planned_writes, opening_calls, delete_calls, update_calls, insert_calls.
  destruct (Extension.is_mongodb ctx); [reflexivity|].
  cbn [app]. now rewrite !map_app, !map_map.
Qed.

Lemma Forall_map_kind {A} k (f : A -> call) (l : list A) :
  (forall x, of_kind k (f x)) -> Forall (of_kind k) (map f l).
Proof.
  intros H. induction l as [|x l IH]; cbn [map];
    [apply List.Forall_nil | apply List.Forall_cons; auto].
Qed.

Lemma Forall_omap_kind {A} k (f : A -> option string) (l : list A) :
  (forall x q, f x = Some q -> of_kind k (ExecuteQuery q)) ->
  Forall (of_kind k) (map ExecuteQuery (omap f l)).
Proof.
  intros H. induction l as [|x l IH]; [apply List.Forall_nil|].
  cbn. destruct (f x) as [q|] eqn:E; cbn; [|exact IH].
  apply List.Forall_cons; eauto.
Qed.

Lemma opening_calls_reads ctx : reads (opening_calls ctx).
Proof.
  unfold opening_calls. destruct (Extension.is_mongodb ctx);
    [apply List.Forall_cons; [reflexivity|]|]; apply List.Forall_nil.
Qed.

Lemma delete_calls_kind ctx originalData msg :
  deletes_ (delete_calls ctx originalData msg).
Proof.
  unfold delete_calls. destruct (Extension.is_mongodb ctx).
  - now apply Forall_map_kind.
  - apply Forall_omap_kind. intros op q. apply ext_delete_kind.
Qed.

Lemma update_calls_kind ctx originalData msg :
  updates_ (update_calls ctx originalData msg).
Proof.
  unfold update_calls. destruct (Extension.is_mongodb ctx).
  - now apply Forall_map_kind.
  - apply Forall_map_kind. intros op. apply update_text_kind.
Qed.

Lemma insert_calls_kind ctx msg : inserts_ (insert_calls ctx msg).
Proof.
  unfold insert_calls. destruct (Extension.is_mongodb ctx).
  - now apply Forall_map_kind.
  - apply Forall_map_kind. intros d. apply ext_insert_kind.
Qed.

Lemma prev_planned_writes_groups ctx ch :
  prev_planned_writes ctx ch
  = prev_delete_calls ctx ch ++ prev_update_calls ctx ch
    ++ prev_insert_calls ctx ch.
Proof.
  unfold prev_planned_writes, prev_delete_calls, prev_update_calls,
    prev_insert_calls.
  now rewrite !map_app, !map_map.
Qed.

Lemma prev_delete_calls_kind ctx ch : deletes_ (prev_delete_calls ctx ch).
Proof. apply Forall_omap_kind. intros pkd q. apply prev_delete_kind. Qed.

Lemma prev_update_calls_kind ctx ch : updates_ (prev_update_calls ctx ch).
Proof. apply Forall_map_kind. intros op. apply update_text_kind. Qed.

Lemma prev_insert_calls_kind ctx ch : inserts_ (prev_insert_calls ctx ch).
Proof. apply Forall_map_kind. intros d. apply prev_insert_kind. Qed.

(** The handler of a save of [extension.ts] as a run: the first read, the
    plan issued until a call throws, and the refreshing read. *)
Lemma onSaveChanges_run ctx msg (w : world B) :
  match Extension.fetch_rows ctx w with
  | (Thrown e, w1) =>
      Extension.onSaveChanges ctx msg w
      = (Done tt, World (w_db w1) (w_log w1) (w_out w ++ [ErrorMessage e]))
  | (Done rows, w1) =>
      exists issued d' failure,
        issued_until_throw (w_db w1)
          (planned_writes ctx (Extension.index_rows rows) msg)
          issued d' failure /\
        Extension.onSaveChanges ctx msg w
        = match failure with
          | Some e =>
              (Done tt,
               World d' (w_log w1 ++ issued) (w_out w ++ [ErrorMessage e]))
          | None =>
              match Extension.fetch_rows ctx
                      (World d' (w_log w1 ++ issued)
                         (w_out w ++ [SaveSuccess])) with
              | (Thrown _, w4) => (Done tt, w4)
              | (Done rows', w4) =>
                  (Done tt,
                   World (w_db w4) (w_log w4) (w_out w4 ++ [UpdateData rows']))
              end
          end
  end.
Proof.
  rewrite onSaveChanges_steps.
  pose proof (fetch_silent ctx w) as Hsil.
  destruct (Extension.fetch_rows ctx w) as [[e|rows] w1]; cbn [fst snd] in *.
  - unfold postMessage. now rewrite Hsil.
  - destruct (issue_until_throw
                (planned_writes ctx (Extension.index_rows rows) msg) w1)
      as (issued & d' & failure & Hrel & ->).
    exists issued, d', failure. split; [exact Hrel|].
    rewrite Hsil. destruct failure as [e|]; [reflexivity|].
    cbn [w_db w_log w_out].
    destruct (Extension.fetch_rows ctx _) as [[e|rows'] w4]; reflexivity.
Qed.

(** The same for the earlier handler, which reads once, at the end. *)
Lemma prev_onSaveChanges_run ctx ch (w : world B) :
  exists issued d' failure,
    issued_until_throw (w_db w) (prev_planned_writes ctx ch)
      issued d' failure /\
    ExtensionPrev.onSaveChanges ctx ch w
    = match failure with
      | Some e =>
          (Done tt, World d' (w_log w ++ issued) (w_out w ++ [ErrorMessage e]))
      | None =>
          let refresh := ExecuteQuery (ExtensionPrev.select_all ctx) in
          match exec B d' refresh with
          | Throw e =>
              (Done tt,
               World d' (w_log w ++ issued ++ [refresh])
                 (w_out w ++ [SaveSuccess; ErrorMessage e]))
          | Return d2 rows =>
              (Done tt,
               World d2 (w_log w ++ issued ++ [refresh])
                 (w_out w ++ [SaveSuccess; UpdateData rows]))
          end
      end.
Proof.
  rewrite prev_onSaveChanges_steps.
  destruct (issue_until_throw (prev_planned_writes ctx ch) w)
    as (issued & d' & failure & Hrel & ->).
  exists issued, d', failure. split; [exact Hrel|].
  destruct failure as [e|]; [reflexivity|].
  cbv zeta. unfold invoke, postMessage. cbn [w_db w_log w_out].
  destruct (exec B d' (ExecuteQuery (ExtensionPrev.select_all ctx)));
    cbn [w_db w_log w_out]; now rewrite <- !app_assoc.
Qed.

(** The reads of the handler, call by call. *)
Lemma fetch_rows_cases ctx (w : world B) :
  Extension.fetch_rows ctx w
  = if Extension.is_mongodb ctx then
      match exec B (w_db w) GetMongoConnection with
      | Throw e =>
          (Thrown e, World (w_db w) (w_log w ++ [GetMongoConnection]) (w_out w))
      | Return d1 _ =>
          match exec B d1 (Find (Extension.tableName ctx)) with
          | Throw e =>
              (Thrown e,
               World d1
                 (w_log w ++ [GetMongoConnection; Find (Extension.tableName ctx)])
                 (w_out w))
          | Return d2 rows =>
              (Done rows,
               World d2
                 (w_log w ++ [GetMongoConnection; Find (Extension.tableName ctx)])
                 (w_out w))
          end
      end
    else
      match exec B (w_db w) (ExecuteQuery (Extension.select_all ctx)) with
      | Throw e =>
          (Thrown e,
           World (w_db w)
             (w_log w ++ [ExecuteQuery (Extension.select_all ctx)]) (w_out w))
      | Return d rows =>
          (Done rows,
           World d (w_log w ++ [ExecuteQuery (Extension.select_all ctx)])
             (w_out w))
      end.
Proof.
  unfold Extension.fetch_rows. destruct (Extension.is_mongodb ctx).
  - unfold bind, invoke.
    destruct (exec B (w_db w) GetMongoConnection) as [e|d1 r0]; [reflexivity|].
    cbn [w_db w_log w_out].
    destruct (exec B d1 (Find (Extension.tableName ctx)));
      now rewrite <- app_assoc.
  - unfold invoke.
    now destruct (exec B (w_db w) (ExecuteQuery (Extension.select_all ctx))).
Qed.

(** A read of the table adds calls to the log, at least one, all reads. *)
Lemma fetch_rows_log ctx (w : world B) :
  exists c cs,
    w_log (snd (Extension.fetch_rows ctx w)) = w_log w ++ c :: cs /\
    reads (c :: cs).
Proof.
  rewrite fetch_rows_cases. destruct (Extension.is_mongodb ctx).
  - destruct (exec B (w_db w) GetMongoConnection) as [e|d1 r0].
    + exists GetMongoConnection, []. split; [reflexivity|].
      now repeat apply List.Forall_cons.
    + exists GetMongoConnection, [Find (Extension.tableName ctx)].
      split; [now destruct (exec B d1 _)|].
      now repeat apply List.Forall_cons.
  - exists (ExecuteQuery (Extension.select_all ctx)), [].
    split; [now destruct (exec B (w_db w) _)|].
    apply List.Forall_cons; [reflexivity|apply List.Forall_nil].
Qed.

End SaveRuns.

(* ===================================================================== *)
(** * The statements of the specification *)
(* ===================================================================== *)

Section Claims.
Import JS Backend.



(** C2.  In every save the handler calls the backend in a fixed order:
    after its reads come all deletes, then all updates, then all inserts,
    then the refreshing read.  This holds for every backend, whatever it
    answers and wherever it throws, for the relational and the MongoDB
    branch of [extension.ts] and for the earlier variant; in particular the
    writes of the log are the deletes followed by the updates followed by
    the inserts.  The three groups are those of the batch: the writes that
    reach the backend are the calls for the deleted rows of the message,
    then those for its modified rows, then those for its added rows, each
    group in the order of the message, issued one after the other until
    one throws, so that a call is issued only when every call before it
    was issued and answered; after a throw nothing more is issued. *)
Theorem C2_deletes_then_updates_then_inserts :
  forall (B : backend),
    (forall ctx originalData msg,
       planned_writes ctx originalData msg
       = opening_calls ctx ++ delete_calls ctx originalData msg
         ++ update_calls ctx originalData msg ++ insert_calls ctx msg /\
       reads (opening_calls ctx) /\
       deletes_ (delete_calls ctx originalData msg) /\
       updates_ (update_calls ctx originalData msg) /\
       inserts_ (insert_calls ctx msg)) /\
    (forall ctx msg (w : world B),
       (exists cs,
          w_log (snd (Extension.onSaveChanges ctx msg w)) = w_log w ++ cs /\
          in_save_order cs /\
          exists ds us ins,
            List.filter is_write cs = ds ++ us ++ ins /\
            deletes_ ds /\ updates_ us /\ inserts_ ins) /\
       match Extension.fetch_rows ctx w with
       | (Thrown _, w1) =>
           w_log (snd (Extension.onSaveChanges ctx msg w)) = w_log w1
       | (Done rows, w1) =>
           exists issued d' failure after,
             issued_until_throw (w_db w1)
               (planned_writes ctx (Extension.index_rows rows) msg)
               issued d' failure /\
             w_log (snd (Extension.onSaveChanges ctx msg w))
             = w_log w1 ++ issued ++ after /\
             reads after /\ (is_Some failure -> after = [])
       end) /\
    (forall ctx ch,
       prev_planned_writes ctx ch
       = prev_delete_calls ctx ch ++ prev_update_calls ctx ch
         ++ prev_insert_calls ctx ch /\
       deletes_ (prev_delete_calls ctx ch) /\
       updates_ (prev_update_calls ctx ch) /\
       inserts_ (prev_insert_calls ctx ch)) /\
    (forall ctx ch (w : world B),
       (exists cs,
          w_log (snd (ExtensionPrev.onSaveChanges ctx ch w)) = w_log w ++ cs /\
          in_save_order cs /\
          exists ds us ins,
            List.filter is_write cs = ds ++ us ++ ins /\
            deletes_ ds /\ updates_ us /\ inserts_ ins) /\
       exists issued d' failure after,
         issued_until_throw (w_db w) (prev_planned_writes ctx ch)
           issued d' failure /\
         w_log (snd (ExtensionPrev.onSaveChanges ctx ch w))
         = w_log w ++ issued ++ after /\
         reads after /\ (is_Some failure -> after = [])).
Proof.
  intros B. split; [|split; [|split]].
  - intros ctx originalData msg.
    split; [apply planned_writes_groups|].
    split; [apply opening_calls_reads|].
    split; [apply delete_calls_kind|].
    split; [apply update_calls_kind | apply insert_calls_kind].
  - intros ctx msg w. split.
    { destruct (ext_onSaveChanges_order ctx msg w) as (cs & E & H).
      exists cs. repeat split; auto. now apply save_order_writes. }
    pose proof (onSaveChanges_run ctx msg w) as H.
    destruct (Extension.fetch_rows ctx w) as [[e|rows] w1].
    + now rewrite H.
    + destruct H as (issued & d' & failure & Hrel & ->).
      destruct failure as [e|].
      * exists issued, d', (Some e), []. split; [exact Hrel|].
        cbn [snd w_log]. rewrite app_nil_r.
        split; [reflexivity|]. split; [constructor|reflexivity].
      * set (w3 := World d' (w_log w1 ++ issued) (w_out w ++ [SaveSuccess])).
        destruct (fetch_rows_log ctx w3) as (c & after & Hlog & Hreads).
        exists issued, d', None, (c :: after). split; [exact Hrel|].
        split; [|split; [exact Hreads|intros [? ?]; discriminate]].
        destruct (Extension.fetch_rows ctx w3) as [[e|rows'] w4];
          cbn [snd w_log] in *; rewrite Hlog; unfold w3; cbn [w_log];
          now rewrite <- app_assoc.
  - intros ctx ch.
    split; [apply prev_planned_writes_groups|].
    split; [apply prev_delete_calls_kind|].
    split; [apply prev_update_calls_kind | apply prev_insert_calls_kind].
  - intros ctx ch w. split.
    { destruct (prev_onSaveChanges_order ctx ch w) as (cs & E & H).
      exists cs. repeat split; auto. now apply save_order_writes. }
    destruct (prev_onSaveChanges_run ctx ch w)
      as (issued & d' & failure & Hrel & ->).
    destruct failure as [e|].
    + exists issued, d', (Some e), []. split; [exact Hrel|].
      cbn [snd w_log]. rewrite app_nil_r.
      split; [reflexivity|]. split; [constructor|reflexivity].
    + exists issued, d', None, [ExecuteQuery (ExtensionPrev.select_all ctx)].
      split; [exact Hrel|]. cbv zeta.
      split; [now destruct (exec B d' _)|].
      split; [|intros [? ?]; discriminate].
      apply List.Forall_cons; [reflexivity|apply List.Forall_nil].
Qed.

(** C3 (the earlier editor departs from it).  In the earlier variant the
    insert loop leaves out the column called [id] and no other: a row added
    with the primary key [id] typed in as 5 passes validation and is
    inserted without it.  The handler of [extension.ts] builds the same
    insert with the key in place; in general it keeps exactly the columns
    that are not primary keys left empty ([ext_insert_columns_spec]),
    where the earlier variant keeps exactly the columns not called [id]
    ([prev_insert_columns_spec]). *)
Theorem C3_earlier_insert_drops_id :
  ExtensionPrev.saveChanges Samples.prev_users Samples.prev_added_row
  = Some {| ExtensionPrev.updates := [];
            ExtensionPrev.deletes := [];
            ExtensionPrev.inserts := [[("id", JStr "5"); ("name", JStr "x")]] |} /\
  w_log (snd (ExtensionPrev.save_cycle Samples.prev_users Samples.prev_added_row
                (Samples.start [])))
  = [ExecuteQuery "INSERT INTO users (name) VALUES ('x')";
     ExecuteQuery "SELECT * FROM users LIMIT 1000"] /\
  Extension.insert_query Samples.people_by_id [("id", JStr "5"); ("name", JStr "x")]
  = "INSERT INTO users (id, name) VALUES ('5', 'x')" /\
  Extension.insert_query Samples.people_by_id [("id", JStr ""); ("name", JStr "")]
  = "INSERT INTO users (name) VALUES (NULL)".
Proof. repeat split. Qed.

(** C4 (the update statements depart from it).  The [UPDATE] that
    [extension.ts] builds puts a text between quotes as it is: renaming
    a user to O'Brien passes validation and sends a statement whose quote
    is not doubled, as for every text ([ext_update_set_text]).  The values
    of its [INSERT] and [DELETE] are escaped; the earlier variant escapes
    nowhere. *)
Theorem C4_update_keeps_single_quote :
  w_log (snd (Extension.save_cycle Samples.people Samples.rename_edit
                (Samples.start [[("name", JStr "Smith")]])))
  = [ExecuteQuery "SELECT * FROM users LIMIT 1000";
     ExecuteQuery "UPDATE users SET name = 'O'Brien' WHERE name = 'Smith'";
     ExecuteQuery "SELECT * FROM users LIMIT 1000"] /\
  Extension.insert_query Samples.people [("name", JStr "O'Brien")]
  = "INSERT INTO users (name) VALUES ('O''Brien')" /\
  Extension.delete_where [("name", JStr "O'Brien"); ("age", JNum 41); ("note", JNull)]
  = "name = 'O''Brien' AND age = 41 AND note IS NULL" /\
  ExtensionPrev.insert_query Samples.prev_users [("name", JStr "O'Brien")]
  = "INSERT INTO users (name) VALUES ('O'Brien')".
Proof. repeat split. Qed.

(** C5 (both editors depart from it).  For a table without primary key,
    [extension.ts] marks a row deleted, sends no [DELETE] at all
    ([ext_no_key_delete_skipped]) and reports success; the earlier variant
    sends the row position tag
    [__rowid] to the backend as a column of the [WHERE] clause. *)
Theorem C5_no_key_delete :
  w_log (snd (Extension.save_cycle Samples.notes Samples.delete_first
                (Samples.start Samples.notes_rows)))
  = [ExecuteQuery "SELECT * FROM notes LIMIT 1000";
     ExecuteQuery "SELECT * FROM notes LIMIT 1000"] /\
  w_out (snd (Extension.save_cycle Samples.notes Samples.delete_first
                (Samples.start Samples.notes_rows)))
  = [SaveSuccess; UpdateData Samples.notes_rows] /\
  w_log (snd (ExtensionPrev.save_cycle Samples.prev_notes Samples.prev_delete_second
                (Samples.start [])))
  = [ExecuteQuery "DELETE FROM notes WHERE __rowid = '2' AND title = 'b'";
     ExecuteQuery "SELECT * FROM notes LIMIT 1000"].
Proof. repeat split. Qed.

(** C8.  A save with no modification, no deletion and no added row issues
    no write, whatever the backend; when the reads answer [rows] and leave
    the database as it is, the handler of [extension.ts] reports success
    and hands back exactly [rows], with the database unchanged.  The
    earlier editor returns at once: no call, no message, the table on
    screen stays. *)
Theorem C8_save_without_edits :
  (forall ctx st (B : backend) (w : world B),
     ext_no_edits st ->
     exists cs,
       w_log (snd (Extension.save_cycle ctx st w)) = w_log w ++ cs /\
       List.filter is_write cs = []) /\
  (forall ctx st (B : backend) (w : world B) rows,
     ext_no_edits st ->
     fetch_answers B ctx (w_db w) rows ->
     w_out (snd (Extension.save_cycle ctx st w))
       = w_out w ++ [SaveSuccess; UpdateData rows] /\
     w_db (snd (Extension.save_cycle ctx st w)) = w_db w) /\
  (forall ctx st (B : backend) (w : world B),
     prev_no_edits st -> ExtensionPrev.save_cycle ctx st w = (Done tt, w)).
Proof.
  split; [|split].
  - intros ctx st B w H.
    destruct (ext_no_edits_reads ctx st H w) as (cs & E & Hr).
    exists cs. split; [exact E | now apply Forall_read_writes].
  - intros ctx st B w rows H Hf.
    destruct (ext_no_edits_returns ctx st w rows H Hf) as [cs ->]. now simpl.
  - intros ctx st B w H. now apply prev_no_edits_idle.
Qed.

Lemma C8_witness :
  ext_no_edits Samples.no_edit /\
  fetch_answers (Samples.always Samples.notes_rows) Samples.notes tt Samples.notes_rows /\
  w_out (snd (Extension.save_cycle Samples.notes Samples.no_edit
                (Samples.start Samples.notes_rows)))
    = [SaveSuccess; UpdateData Samples.notes_rows] /\
  prev_no_edits Samples.prev_no_edit /\
  ExtensionPrev.save_cycle Samples.prev_notes Samples.prev_no_edit (Samples.start [])
    = (Done tt, Samples.start []).
Proof.
  assert (H1 : ext_no_edits Samples.no_edit) by (repeat split).
  assert (H2 : fetch_answers (Samples.always Samples.notes_rows) Samples.notes tt
                 Samples.notes_rows) by reflexivity.
  assert (H3 : prev_no_edits Samples.prev_no_edit) by (repeat split).
  destruct C8_save_without_edits as (_ & Hret & Hprev).
  split; [exact H1|]. split; [exact H2|]. split.
  - exact (proj1 (Hret Samples.notes Samples.no_edit _
                    (Samples.start Samples.notes_rows) Samples.notes_rows H1 H2)).
  - split; [exact H3|]. apply Hprev. exact H3.
Defined.

End Claims.

Section ClaimsService.
Import JS DatabaseServiceImpl.

(** C7 (holds of the adapter service, not of the registry).  [connect] of the service [DatabaseServiceImpl]
    tries to open the transport at most three times, numbered 1, 2, 3,
    stops at the first attempt that succeeds, and sleeps the fixed
    [retryDelay] of 1000 ms between two attempts and nowhere else; it
    answers [false] exactly when all three attempts failed, after the
    third, leaving the connections as they were.  [connect] of the
    registry [DatabaseManager], which the extension calls and which
    [ensureConnected] goes through for an id that is not connected, asks
    the driver once: when the driver throws, the error goes to the caller
    at once and both connection maps stay as they were.  [executeQuery]
    of the service hands the query to the driver once and throws the
    driver's error to the caller without a second try. *)
Theorem C7_only_service_connect_retries :
  forall (open : nat -> option nat) (id : string) (conns : gmap string nat),
    (exists n,
       1 <= n <= maxRetries /\
       opens (snd (connect open id conns)) = seq 1 n /\
       sleeps (snd (connect open id conns)) = repeat retryDelay (n - 1) /\
       (forall k, 1 <= k < n -> open k = None) /\
       (fst (fst (connect open id conns)) = true ->
        exists h, open n = Some h /\
                  snd (fst (connect open id conns)) = <[id := h]> conns) /\
       (fst (fst (connect open id conns)) = false ->
        n = maxRetries /\ open n = None /\
        snd (fst (connect open id conns)) = conns)) /\
    (open 1 = None -> open 2 = None -> open 3 = None ->
     connect open id conns
     = (false, conns,
        [Open 1; ShowWarning 1; Sleep 1000;
         Open 2; ShowWarning 2; Sleep 1000; Open 3; ShowError 3])) /\
    (forall run q,
       length (queries (snd (executeQuery run id q conns))) <= 1 /\
       (is_Some (conns !! id) -> run q = None ->
        exists msg, executeQuery run id q conns = (Thrown msg, [DriverQuery q]))) /\
    (forall configOrId now r,
       exists msg,
         fst (DatabaseManager.connect configOrId now None r) = Thrown msg /\
         DatabaseManager.connections
           (snd (DatabaseManager.connect configOrId now None r))
         = DatabaseManager.connections r /\
         DatabaseManager.connectionStatus
           (snd (DatabaseManager.connect configOrId now None r))
         = DatabaseManager.connectionStatus r) /\
    (forall now dial r,
       DatabaseManager.isConnected r id = false ->
       DatabaseManager.ensureConnected id now dial r
       = DatabaseManager.connect (inr id) now dial r).
Proof.
  intros open id conns. split; [|split; [|split; [|split]]].
  - destruct (open 1) as [h1|] eqn:H1.
    { exists 1. rewrite (connect_first_success open id conns h1 H1). simpl.
      split; [unfold maxRetries; lia|].
      split; [reflexivity|]. split; [reflexivity|].
      split; [intros k Hk; lia|].
      split; [intros _; now exists h1 | discriminate]. }
    destruct (open 2) as [h2|] eqn:H2.
    { exists 2. rewrite (connect_second_success open id conns h2 H1 H2). simpl.
      split; [unfold maxRetries; lia|].
      split; [reflexivity|]. split; [reflexivity|].
      split; [intros k Hk; assert (k = 1) as -> by lia; exact H1|].
      split; [intros _; now exists h2 | discriminate]. }
    assert (Hlow : forall k, 1 <= k < 3 -> open k = None).
    { intros k Hk. assert (k = 1 \/ k = 2) as [-> | ->] by lia; assumption. }
    destruct (open 3) as [h3|] eqn:H3.
    { exists 3. rewrite (connect_third_success open id conns h3 H1 H2 H3). simpl.
      split; [unfold maxRetries; lia|].
      split; [reflexivity|]. split; [reflexivity|].
      split; [exact Hlow|].
      split; [intros _; now exists h3 | discriminate]. }
    exists 3. rewrite (connect_all_fail open id conns H1 H2 H3). simpl.
    split; [unfold maxRetries; lia|].
    split; [reflexivity|]. split; [reflexivity|].
    split; [exact Hlow|].
    split; [discriminate | intros _; now repeat split].
  - apply connect_all_fail.
  - intros run q. unfold executeQuery. split.
    + destruct (conns !! id); [destruct (run q)|]; simpl; lia.
    + intros [h Hh] Hr. rewrite Hh, Hr. eauto.
  - intros configOrId now r. apply registry_connect_gives_up_at_once.
  - intros now dial r H. unfold DatabaseManager.ensureConnected.
    unfold DatabaseManager.isConnected in H.
    destruct (DatabaseManager.connectionStatus r !! id) as [[|]|];
      [discriminate|reflexivity|reflexivity].
Qed.

Lemma C7_witness :
  connect (fun _ => None) "mysql-localhost-shop" ∅
  = (false, ∅,
     [Open 1; ShowWarning 1; Sleep 1000;
      Open 2; ShowWarning 2; Sleep 1000; Open 3; ShowError 3]).
Proof.
  apply (proj1 (proj2 (C7_only_service_connect_retries
                         (fun _ => None) "mysql-localhost-shop" ∅)));
    reflexivity.
Defined.

(** C7, where it fails.  The registry holds
    a complete profile and the driver throws at the first attempt to open
    the transport.  [connect] of the registry throws at that attempt, and
    so does [ensureConnected]; no handle is recorded.  With a driver that
    fails once and then answers, the service makes its second attempt
    after one second and succeeds. *)
Lemma C7_registry_connect_fails_at_once :
  (exists msg,
     fst (DatabaseManager.connect (inr "mysql-localhost-shop-7") 8 None
            (DatabaseManager.run
               [DatabaseManager.NewObject ProfileSamples.shop;
                DatabaseManager.AddConfig 7 1%positive (Done tt)]
               DatabaseManager.init))
     = Thrown msg) /\
  (exists msg,
     fst (DatabaseManager.ensureConnected "mysql-localhost-shop-7" 8 None
            (DatabaseManager.run
               [DatabaseManager.NewObject ProfileSamples.shop;
                DatabaseManager.AddConfig 7 1%positive (Done tt)]
               DatabaseManager.init))
     = Thrown msg) /\
  DatabaseManager.connections
    (snd (DatabaseManager.connect (inr "mysql-localhost-shop-7") 8 None
            (DatabaseManager.run
               [DatabaseManager.NewObject ProfileSamples.shop;
                DatabaseManager.AddConfig 7 1%positive (Done tt)]
               DatabaseManager.init)))
    !! "mysql-localhost-shop-7" = None /\
  DatabaseManager.config_error ProfileSamples.shop = None /\
  DatabaseManager.connect (inr "mysql-localhost-shop-7") 8
    (Some ProfileSamples.mysql_handle)
    (DatabaseManager.run
       [DatabaseManager.NewObject ProfileSamples.shop;
        DatabaseManager.AddConfig 7 1%positive (Done tt)]
       DatabaseManager.init)
  = (Done true,
     snd (DatabaseManager.connect (inr "mysql-localhost-shop-7") 8
            (Some ProfileSamples.mysql_handle)
            (DatabaseManager.run
               [DatabaseManager.NewObject ProfileSamples.shop;
                DatabaseManager.AddConfig 7 1%positive (Done tt)]
               DatabaseManager.init))) /\
  connect (fun attempt => if Nat.eqb attempt 1 then None else Some 5)
    "mysql-localhost-shop-7" ∅
  = (true, <["mysql-localhost-shop-7" := 5]> ∅,
     [Open 1; ShowWarning 1; Sleep 1000; Open 2]).
Proof.
  split; [|split; [|split; [|split; [|split]]]].
  - vm_compute. eauto.
  - vm_compute. eauto.
  - vm_compute. reflexivity.
  - reflexivity.
  - vm_compute. reflexivity.
  - reflexivity.
Qed.

End ClaimsService.

Section ClaimsStore.
Import JS ConfigManager.

(** C9.  The profile store works on copies.  In a store whose references
    all point to objects: the object that [getConfig] returns holds the
    stored profile, and writing to it, or to any value of the map that
    [getAllConfigs] returns, leaves every stored profile as it was; after
    [addConfig] or [updateConfig] took a profile object, the profile kept
    under the id is the content the object had at the call, also after the
    caller writes to the object, and whatever becomes of the write to the
    file. *)
Theorem C9_store_keeps_private_copies :
  forall (m : manager) (h : heap),
    allocated m h ->
    (forall id l h',
       getConfig id m h = (Some l, h') ->
       h' !! l = stored m h id /\
       forall f id', stored m (mutate l f h') id' = stored m h id') /\
    (forall all h',
       getAllConfigs m h = (all, h') ->
       forall id l f id',
         In (id, l) all -> stored m (mutate l f h') id' = stored m h id') /\
    (forall write now config id m' h',
       addConfig write now config m h = Some (id, m', h') ->
       stored m' h' id = h !! config /\
       forall f, stored m' (mutate config f h') id = h !! config) /\
    (forall write id config m' h',
       updateConfig write id config m h = Some (true, m', h') ->
       stored m' h' id = h !! config /\
       forall f, stored m' (mutate config f h') id = h !! config).
Proof.
  intros m h Ha. split; [|split; [|split]].
  - intros id l h' H.
    apply getConfig_spec in H as (l0 & c & Hg & Hc & Hf & ->). split.
    + unfold stored. rewrite Hg, Hc. apply lookup_insert_eq.
    + intros f id'.
      pose proof (allocated_not_fresh m h l Ha Hf) as Hne.
      rewrite stored_mutate_other by assumption.
      now apply stored_insert_other.
  - intros all h' H id l f id' Hin.
    destruct (copy_all_spec _ _ _ _ H) as [Hnew Hkeep].
    pose proof (allocated_not_fresh m h l Ha (Hnew _ _ Hin)) as Hne.
    rewrite stored_mutate_other by assumption.
    now apply stored_heap_grows.
  - intros write now config id m' h' H.
    apply addConfig_spec in H as (c & copy & Hc & Hf & -> & Hm). split.
    + unfold stored. rewrite Hm, get_set_eq, Hc. apply lookup_insert_eq.
    + intros f. rewrite Hc. apply stored_copy_independent; auto.
      rewrite Hm. apply get_set_eq.
  - intros write id config m' h' H.
    apply updateConfig_spec in H as (c & copy & Hc & Hf & -> & Hm). split.
    + unfold stored. rewrite Hm, get_set_eq, Hc. apply lookup_insert_eq.
    + intros f. rewrite Hc. apply stored_copy_independent; auto.
      rewrite Hm. apply get_set_eq.
Qed.

Lemma C9_witness :
  allocated ConfigManager.empty ProfileSamples.caller_heap /\
  exists id m' h',
    addConfig (Done tt) 1700000000000 1%positive ConfigManager.empty
      ProfileSamples.caller_heap = Some (id, m', h') /\
    stored m' (mutate 1%positive ProfileSamples.change_password h') id
      = Some ProfileSamples.shop.
Proof.
  assert (Ha : allocated ConfigManager.empty ProfileSamples.caller_heap).
  { intros id l []. }
  split; [exact Ha|].
  destruct (addConfig (Done tt) 1700000000000 1%positive ConfigManager.empty
              ProfileSamples.caller_heap) as [[[id m'] h']|] eqn:E.
  - exists id, m', h'. split; [reflexivity|].
    destruct (C9_store_keeps_private_copies _ _ Ha) as (_ & _ & Hadd & _).
    destruct (Hadd _ _ _ _ _ _ E) as [_ Hmut].
    rewrite Hmut. reflexivity.
  - exfalso. unfold addConfig in E.
    change (ProfileSamples.caller_heap !! 1%positive) with (Some ProfileSamples.shop) in E.
    destruct (spread ProfileSamples.caller_heap ProfileSamples.shop). discriminate.
Defined.

End ClaimsStore.

Section ClaimsRegistry.
Import JS ConfigManager DatabaseManager.

(** C10.  After any sequence of registry operations, in any interleaving
    of their completions and with any answers of the drivers, a
    connection for which [isConnected] answers true has a handle in the
    connection map: [connect] records the handle together with the status,
    and the only step that removes a handle sets the status to false.
    The same holds from any state in which it already holds. *)
Theorem C10_connected_status_has_handle :
  forall (events : list event) (id : string),
    (isConnected (run events init) id = true ->
     is_Some (connections (run events init) !! id)) /\
    (forall r, status_backed r ->
       isConnected (run events r) id = true ->
       is_Some (connections (run events r) !! id)).
Proof.
  intros events id. split.
  - intros H. apply isConnected_status in H.
    now apply (status_backed_run events init status_backed_init).
  - intros r Hr H. apply isConnected_status in H.
    now apply (status_backed_run events r Hr).
Qed.

Lemma C10_witness :
  isConnected
    (run [NewObject ProfileSamples.shop;
          Connect (inl 1%positive) 1700000000000 (Some ProfileSamples.mysql_handle)]
       init)
    "mysql-localhost-shop-1700000000000" = true /\
  is_Some
    (connections
       (run [NewObject ProfileSamples.shop;
             Connect (inl 1%positive) 1700000000000 (Some ProfileSamples.mysql_handle)]
          init)
     !! "mysql-localhost-shop-1700000000000").
Proof.
  assert (H : isConnected
    (run [NewObject ProfileSamples.shop;
          Connect (inl 1%positive) 1700000000000 (Some ProfileSamples.mysql_handle)]
       init)
    "mysql-localhost-shop-1700000000000" = true) by (vm_compute; reflexivity).
  split; [exact H|].
  exact (proj1 (C10_connected_status_has_handle _ _) H).
Defined.

End ClaimsRegistry.

Section ClaimsMongo.
Import JS DatabaseManager.



End ClaimsMongo.

(* ===================================================================== *)
(** * The profile store: removing, adding, updating, listing, loading *)
(* ===================================================================== *)

Section StoreOperations.
Import JS ConfigManager.

(** X1.  [removeConfig(id)] answers false exactly when nothing is stored
    under the id, and then changes nothing.  Otherwise the entry is
    deleted and the file written: the call answers true exactly when the
    write succeeds, and the file then holds the profiles that are left; it
    throws an error of its own exactly when the write fails, and the file
    is then as it was although the entry is gone.  In every case nothing
    is stored under the id afterwards and every other id holds what it
    held. *)
Theorem removeConfig_forgets_one_profile :
  forall write id m (h : heap),
    let r := removeConfig write id m h in
    (fst r = Done false <-> get (configs m) id = None) /\
    (fst r = Done true <-> is_Some (get (configs m) id) /\ write = Done tt) /\
    (fst r = Thrown "删除配置保存失败" <->
     is_Some (get (configs m) id) /\ exists error, write = Thrown error) /\
    (fst r = Done false \/ fst r = Done true \/
     fst r = Thrown "删除配置保存失败") /\
    (fst r = Done false -> snd r = m) /\
    (fst r = Done true ->
     persisted (snd r) = omap (fun kv => h !! snd kv) (configs (snd r))) /\
    (fst r = Thrown "删除配置保存失败" -> persisted (snd r) = persisted m) /\
    stored (snd r) h id = None /\
    (forall id', id' <> id -> stored (snd r) h id' = stored m h id').
Proof.
  intros write id m h. cbv zeta.
  pose proof (removeConfig_cases write id m h) as H.
  destruct (get (configs m) id) as [l|] eqn:E.
  - assert (Hgone : forall p,
      stored {| configs := remove_key id (configs m); persisted := p |} h id
      = None).
    { intros p. unfold stored. cbn [configs]. now rewrite get_remove_key_eq. }
    assert (Hrest : forall p id', id' <> id ->
      stored {| configs := remove_key id (configs m); persisted := p |} h id'
      = stored m h id').
    { intros p id' Hne. unfold stored. cbn [configs].
      now rewrite get_remove_key_ne. }
    destruct write as [error|[]]; rewrite H; cbn [fst snd].
    + split; [split; discriminate|].
      split; [split; [discriminate|intros [_ ?]; discriminate]|].
      split; [split; eauto|]. split; [auto|]. split; [discriminate|].
      split; [discriminate|]. split; [reflexivity|]. split; auto.
    + split; [split; discriminate|].
      split; [split; eauto|].
      split; [split; [discriminate|intros [_ [? ?]]; discriminate]|].
      split; [auto|]. split; [discriminate|]. split; [reflexivity|].
      split; [discriminate|]. split; auto.
  - rewrite H. cbn [fst snd].
    split; [split; reflexivity|].
    split; [split; [discriminate|intros [[? ?] _]; discriminate]|].
    split; [split; [discriminate|intros [[? ?] _]; discriminate]|].
    split; [auto|]. split; [reflexivity|]. split; [discriminate|].
    split; [discriminate|]. split; [|reflexivity].
    unfold stored. now rewrite E.
Qed.

(** X2.  A profile that was added can be read back under the id that
    [addConfig] returned, whatever becomes of the write to the file:
    [getConfig] answers a new object with the fields the caller's object
    had.  The write is started and not awaited: when it succeeds the file
    holds the profile, when it fails the file is as it was, and the caller
    is given the id all the same. *)
Theorem addConfig_then_getConfig :
  forall write now config m (h : heap) id m' h',
    addConfig write now config m h = Some (id, m', h') ->
    exists c l h'',
      h !! config = Some c /\ id = generateConnectionId now c /\
      getConfig id m' h' = (Some l, h'') /\ h'' !! l = Some c /\
      h' !! l = None /\
      (write = Done tt -> In c (persisted m')) /\
      (forall error, write = Thrown error -> persisted m' = persisted m).
Proof.
  intros write now config m h id m' h' H.
  apply addConfig_steps in H as (c & copy & Hc & Hid & Hf & -> & ->).
  set (m1 := {| configs := set (configs m) id copy; persisted := persisted m |}).
  assert (Hg : get (configs (snd (saveConfigs write m1 (<[copy:=c]> h)))) id
               = Some copy).
  { rewrite configs_saveConfigs. apply get_set_eq. }
  unfold getConfig. rewrite Hg, lookup_insert_eq.
  destruct (spread (<[copy:=c]> h) c) as [l h''] eqn:Hs.
  apply spread_spec in Hs as [Hl ->].
  exists c, l, (<[l:=c]> (<[copy:=c]> h)).
  split; [assumption|]. split; [exact Hid|]. split; [reflexivity|].
  split; [apply lookup_insert_eq|]. split; [assumption|].
  destruct (saveConfigs_persisted write m1 (<[copy:=c]> h)) as [Hok Hfail].
  split.
  - intros Hw. rewrite (Hok Hw). apply (In_persisted _ _ id copy).
    + apply get_set_eq.
    + apply lookup_insert_eq.
  - intros error Hw. now rewrite (Hfail error Hw).
Qed.

Lemma addConfig_then_getConfig_witness :
  exists c l h'',
    ProfileSamples.caller_heap !! 1%positive = Some c /\
    "mysql-localhost-shop-1700000000000" = generateConnectionId 1700000000000 c /\
    getConfig "mysql-localhost-shop-1700000000000"
      {| configs := [("mysql-localhost-shop-1700000000000", 2%positive)];
         persisted := [] |}
      (<[2%positive := ProfileSamples.shop]> ProfileSamples.caller_heap)
      = (Some l, h'') /\
    h'' !! l = Some c /\
    <[2%positive := ProfileSamples.shop]> ProfileSamples.caller_heap !! l = None /\
    ((Thrown "EACCES" : outcome unit) = Done tt ->
     In c (persisted
             {| configs := [("mysql-localhost-shop-1700000000000", 2%positive)];
                persisted := [] |})) /\
    (forall error, (Thrown "EACCES" : outcome unit) = Thrown error ->
     persisted {| configs := [("mysql-localhost-shop-1700000000000", 2%positive)];
                  persisted := [] |}
     = persisted ConfigManager.empty).
Proof.
  apply (addConfig_then_getConfig (Thrown "EACCES") 1700000000000 1%positive
           ConfigManager.empty ProfileSamples.caller_heap).
  vm_compute. reflexivity.
Defined.

(** X3.  [getAllConfigs()] lists the ids of the store in the store's
    order, and under each id an object with the fields of the stored
    profile. *)
Theorem getAllConfigs_lists_every_profile :
  forall m (h : heap) all h',
    allocated m h ->
    getAllConfigs m h = (all, h') ->
    keys all = keys (configs m) /\
    forall id,
      match get all id with Some l => h' !! l | None => None end = stored m h id.
Proof.
  intros m h all h' Ha H. unfold getAllConfigs in H.
  pose proof (copy_all_faithful _ _ _ _ Ha H) as HF. unfold stored.
  clear H Ha. induction HF as [|[id1 l1] [id2 l2] all entries [He Hl] HF IH].
  - split; [reflexivity|]. intros id. reflexivity.
  - simpl in He, Hl. subst id2. destruct IH as [IHk IHg]. split.
    + simpl. now f_equal.
    + intros id. simpl. destruct (String.eqb id1 id); [assumption|apply IHg].
Qed.

Lemma getAllConfigs_lists_every_profile_witness :
  keys [("a", 3%positive)] = keys [("a", 2%positive)] /\
  forall id,
    match get [("a", 3%positive)] id with
    | Some l => <[3%positive := ProfileSamples.shop]>
                  (<[2%positive := ProfileSamples.shop]> ProfileSamples.caller_heap) !! l
    | None => None
    end
    = stored {| configs := [("a", 2%positive)]; persisted := [] |}
        (<[2%positive := ProfileSamples.shop]> ProfileSamples.caller_heap) id.
Proof.
  apply (getAllConfigs_lists_every_profile
           {| configs := [("a", 2%positive)]; persisted := [] |}
           (<[2%positive := ProfileSamples.shop]> ProfileSamples.caller_heap)).
  - intros id l [[= <- <-]|[]]. vm_compute. eauto.
  - vm_compute. reflexivity.
Defined.

(** X4.  The time stamp makes the id: the same profile added at two
    different times is stored twice, under two ids, and both entries stay. *)
Theorem addConfig_twice_keeps_both :
  forall write1 write2 now1 now2 config m (h : heap) id1 m1 h1 id2 m2 h2,
    now1 <> now2 ->
    addConfig write1 now1 config m h = Some (id1, m1, h1) ->
    addConfig write2 now2 config m1 h1 = Some (id2, m2, h2) ->
    (id1 = id2 -> False) /\
    stored m2 h2 id1 = h !! config /\ stored m2 h2 id2 = h !! config.
Proof.
  intros write1 write2 now1 now2 config m h id1 m1 h1 id2 m2 h2 Hne H1 H2.
  assert (Hid1 : exists c, h !! config = Some c /\ id1 = generateConnectionId now1 c).
  { unfold addConfig in H1. destruct (h !! config) as [c|]; [|discriminate].
    destruct (spread h c) as [copy hx]. inversion H1; subst. eauto. }
  assert (Hid2 : exists c, h1 !! config = Some c /\ id2 = generateConnectionId now2 c).
  { unfold addConfig in H2. destruct (h1 !! config) as [c|]; [|discriminate].
    destruct (spread h1 c) as [copy hx]. inversion H2; subst. eauto. }
  destruct Hid1 as (c & Hc & ->). destruct Hid2 as (c2 & Hc2 & ->).
  apply addConfig_spec in H1 as (c' & copy1 & Hc' & Hf1 & -> & Hm1).
  assert (c' = c) by congruence. subst c'.
  rewrite lookup_insert_ne in Hc2 by (intros ->; congruence).
  assert (c2 = c) by congruence. subst c2.
  apply addConfig_spec in H2 as (c' & copy2 & Hc'' & Hf2 & -> & Hm2).
  rewrite lookup_insert_ne in Hc'' by (intros ->; congruence).
  assert (c' = c) by congruence. subst c'.
  assert (Hids : generateConnectionId now1 c <> generateConnectionId now2 c).
  { intros E. apply Hne. eapply generateConnectionId_inj, E. }
  split; [exact Hids|]. unfold stored. rewrite Hm2, Hm1, Hc. split.
  - rewrite get_set_ne by congruence. rewrite get_set_eq.
    rewrite lookup_insert_ne; [apply lookup_insert_eq|].
    intros ->. now rewrite lookup_insert_eq in Hf2.
  - rewrite get_set_eq. apply lookup_insert_eq.
Qed.

Lemma addConfig_twice_keeps_both_witness :
  (("mysql-localhost-shop-1" : string) = "mysql-localhost-shop-2" -> False) /\
  stored
    {| configs := [("mysql-localhost-shop-1", 2%positive);
                   ("mysql-localhost-shop-2", 3%positive)];
       persisted := [ProfileSamples.shop; ProfileSamples.shop] |}
    (<[3%positive := ProfileSamples.shop]>
       (<[2%positive := ProfileSamples.shop]> ProfileSamples.caller_heap))
    "mysql-localhost-shop-1" = ProfileSamples.caller_heap !! 1%positive /\
  stored
    {| configs := [("mysql-localhost-shop-1", 2%positive);
                   ("mysql-localhost-shop-2", 3%positive)];
       persisted := [ProfileSamples.shop; ProfileSamples.shop] |}
    (<[3%positive := ProfileSamples.shop]>
       (<[2%positive := ProfileSamples.shop]> ProfileSamples.caller_heap))
    "mysql-localhost-shop-2" = ProfileSamples.caller_heap !! 1%positive.
Proof.
  apply (addConfig_twice_keeps_both (Done tt) (Done tt) 1 2 1%positive
           ConfigManager.empty
           ProfileSamples.caller_heap
           "mysql-localhost-shop-1"
           {| configs := [("mysql-localhost-shop-1", 2%positive)];
              persisted := [ProfileSamples.shop] |}
           (<[2%positive := ProfileSamples.shop]> ProfileSamples.caller_heap)).
  - lia.
  - vm_compute. reflexivity.
  - vm_compute. reflexivity.
Defined.

(** X5.  Two profiles with the same type, host (or file) and database that
    are added within the same millisecond get the same id: the second
    takes the place of the first, and the store is no larger than after
    the first. *)
Theorem addConfig_same_time_overwrites :
  forall write1 write2 now config1 config2 c1 c2 m (h : heap)
         id1 m1 h1 id2 m2 h2,
    h !! config1 = Some c1 -> h !! config2 = Some c2 ->
    type c1 = type c2 ->
    or_else (host c1) (or_else (filename c1) "")
      = or_else (host c2) (or_else (filename c2) "") ->
    or_else (database c1) "" = or_else (database c2) "" ->
    addConfig write1 now config1 m h = Some (id1, m1, h1) ->
    addConfig write2 now config2 m1 h1 = Some (id2, m2, h2) ->
    id1 = id2 /\ keys (configs m2) = keys (configs m1) /\
    stored m2 h2 id1 = Some c2.
Proof.
  intros write1 write2 now config1 config2 c1 c2 m h id1 m1 h1 id2 m2 h2
         Hc1 Hc2 Ht Hh Hd H1 H2.
  assert (Hid1 : id1 = generateConnectionId now c1).
  { unfold addConfig in H1. rewrite Hc1 in H1.
    destruct (spread h c1) as [copy hx]. now inversion H1. }
  apply addConfig_spec in H1 as (c' & copy1 & Hc' & Hf1 & -> & Hm1).
  assert (Hc2' : <[copy1:=c']> h !! config2 = Some c2).
  { rewrite lookup_insert_ne; [assumption|]. intros ->. congruence. }
  assert (Hid2 : id2 = generateConnectionId now c2).
  { unfold addConfig in H2. rewrite Hc2' in H2.
    destruct (spread (<[copy1:=c']> h) c2) as [copy hx]. now inversion H2. }
  apply addConfig_spec in H2 as (c'' & copy2 & Hc'' & Hf2 & -> & Hm2).
  assert (c'' = c2) by congruence. subst c''.
  assert (E : id1 = id2).
  { subst id1 id2. unfold generateConnectionId. now rewrite Ht, Hh, Hd. }
  split; [exact E|]. rewrite <- E in Hm2. split.
  - rewrite Hm2. apply (keys_set_present _ _ _ copy1). rewrite Hm1. apply get_set_eq.
  - unfold stored. rewrite Hm2, get_set_eq. apply lookup_insert_eq.
Qed.

Lemma addConfig_same_time_overwrites_witness :
  ("mysql-localhost-shop-5" : string) = "mysql-localhost-shop-5" /\
  keys (configs {| configs := [("mysql-localhost-shop-5", 4%positive)];
                   persisted := [ProfileSamples.change_password ProfileSamples.shop] |})
    = keys (configs {| configs := [("mysql-localhost-shop-5", 3%positive)];
                       persisted := [ProfileSamples.shop] |}) /\
  stored {| configs := [("mysql-localhost-shop-5", 4%positive)];
            persisted := [ProfileSamples.change_password ProfileSamples.shop] |}
    (<[4%positive := ProfileSamples.change_password ProfileSamples.shop]>
       (<[3%positive := ProfileSamples.shop]>
          (<[2%positive := ProfileSamples.change_password ProfileSamples.shop]>
             ProfileSamples.caller_heap)))
    "mysql-localhost-shop-5"
    = Some (ProfileSamples.change_password ProfileSamples.shop).
Proof.
  apply (addConfig_same_time_overwrites (Done tt) (Done tt) 5 1%positive
           2%positive
           ProfileSamples.shop (ProfileSamples.change_password ProfileSamples.shop)
           ConfigManager.empty
           (<[2%positive := ProfileSamples.change_password ProfileSamples.shop]>
              ProfileSamples.caller_heap)
           "mysql-localhost-shop-5"
           {| configs := [("mysql-localhost-shop-5", 3%positive)];
              persisted := [ProfileSamples.shop] |}
           (<[3%positive := ProfileSamples.shop]>
              (<[2%positive := ProfileSamples.change_password ProfileSamples.shop]>
                 ProfileSamples.caller_heap))
           "mysql-localhost-shop-5");
    vm_compute; reflexivity.
Defined.

(** X6.  [updateConfig(id, config)] on an id that is not stored answers
    false and changes nothing: it never adds.  On a stored id it answers
    true, keeps the ids and their order, puts the caller's fields under
    the id and leaves every other profile as it was, whatever becomes of
    the write to the file: when the write succeeds the file holds the new
    fields, when it fails the file is as it was. *)
Theorem updateConfig_replaces_one_profile :
  forall write id config c m (h : heap),
    allocated m h -> h !! config = Some c ->
    (get (configs m) id = None ->
     updateConfig write id config m h = Some (false, m, h)) /\
    (is_Some (get (configs m) id) ->
     exists m' h',
       updateConfig write id config m h = Some (true, m', h') /\
       keys (configs m') = keys (configs m) /\
       stored m' h' id = Some c /\
       (forall id', id' <> id -> stored m' h' id' = stored m h id') /\
       (write = Done tt -> In c (persisted m')) /\
       (forall error, write = Thrown error -> persisted m' = persisted m)).
Proof.
  intros write id config c m h Ha Hc. split.
  - intros E. unfold updateConfig. now rewrite Hc, E.
  - intros [l0 E].
    destruct (updateConfig_steps write id config c l0 m h Hc E) as (copy & Hf & ->).
    set (m1 := {| configs := set (configs m) id copy; persisted := persisted m |}).
    exists (snd (saveConfigs write m1 (<[copy:=c]> h))), (<[copy:=c]> h).
    split; [reflexivity|]. split; [|split; [|split]].
    + rewrite configs_saveConfigs. now apply (keys_set_present _ _ _ l0).
    + rewrite stored_saveConfigs. unfold stored. cbn [m1 configs].
      rewrite get_set_eq. apply lookup_insert_eq.
    + intros id' Hne. rewrite stored_saveConfigs. unfold stored. cbn [m1 configs].
      rewrite get_set_ne by congruence.
      destruct (get (configs m) id') as [l|] eqn:E'; [|reflexivity].
      apply lookup_insert_ne. intros ->.
      destruct (Ha _ _ (get_In _ _ _ E')) as [? ?]. congruence.
    + destruct (saveConfigs_persisted write m1 (<[copy:=c]> h)) as [Hok Hfail].
      split.
      * intros Hw. rewrite (Hok Hw). apply (In_persisted _ _ id copy).
        -- apply get_set_eq.
        -- apply lookup_insert_eq.
      * intros error Hw. now rewrite (Hfail error Hw).
Qed.

Lemma updateConfig_replaces_one_profile_witness :
  exists m' h',
    updateConfig (Done tt) "a" 1%positive StoreSamples.one_profile
      StoreSamples.two_objects = Some (true, m', h') /\
    keys (configs m') = keys (configs StoreSamples.one_profile) /\
    stored m' h' "a"
      = Some (ProfileSamples.change_password ProfileSamples.shop) /\
    (forall id', id' <> "a" ->
       stored m' h' id'
       = stored StoreSamples.one_profile StoreSamples.two_objects id') /\
    ((Done tt : outcome unit) = Done tt ->
     In (ProfileSamples.change_password ProfileSamples.shop) (persisted m')) /\
    (forall error, (Done tt : outcome unit) = Thrown error ->
     persisted m' = persisted StoreSamples.one_profile).
Proof.
  apply (proj2 (updateConfig_replaces_one_profile (Done tt) "a" 1%positive
                  (ProfileSamples.change_password ProfileSamples.shop)
                  StoreSamples.one_profile StoreSamples.two_objects
                  ltac:(intros id l [[= <- <-]|[]]; vm_compute; eauto)
                  ltac:(vm_compute; reflexivity))).
  vm_compute. eauto.
Defined.

(** X7.  [loadConfigs()]: when the file cannot be read or parsed the store
    is left empty; otherwise every profile of the store is a profile of
    the file, stored under an id that carries the time of the load, so an
    id handed out earlier is found again only if the clock repeats.  The
    file itself is not written. *)
Theorem loadConfigs_rebuilds_the_store :
  forall file clock m (h : heap),
    (file = None -> configs (fst (loadConfigs file clock m h)) = []) /\
    allocated (fst (loadConfigs file clock m h)) (snd (loadConfigs file clock m h)) /\
    (forall id c,
       stored (fst (loadConfigs file clock m h)) (snd (loadConfigs file clock m h)) id
         = Some c ->
       exists entries k,
         file = Some entries /\ nth_error entries k = Some c /\
         id = generateConnectionId (clock k) c) /\
    persisted (fst (loadConfigs file clock m h)) = persisted m.
Proof.
  intros file clock m h. destruct file as [entries|]; simpl.
  - destruct (load_all entries 0 clock [] h) as [cfgs h'] eqn:E. simpl.
    destruct (load_all_spec _ _ _ _ _ _ _ E) as [Hgrow Hin].
    split; [discriminate|]. split; [|split; [|reflexivity]].
    + intros id l Hil. simpl in Hil.
      destruct (Hin _ _ Hil) as [[]|(k & c & _ & _ & _ & Hl)]. eauto.
    + intros id c. unfold stored. simpl.
      destruct (get cfgs id) as [l|] eqn:G; [|discriminate].
      intros Hl. destruct (Hin _ _ (get_In _ _ _ G)) as [[]|(k & c' & Hk & -> & _ & Hl')].
      assert (c' = c) by congruence. subst c'. exists entries, k. auto.
  - split; [reflexivity|]. split; [intros id l []|]. split; [|reflexivity].
    intros id c. unfold stored. simpl. discriminate.
Qed.

End StoreOperations.

(* ===================================================================== *)
(** * The registry: disconnecting, connecting by id, removing, testing *)
(* ===================================================================== *)

Section RegistryOperations.
Import JS ConfigManager DatabaseManager.

(** X8.  [disconnect(connectionId)] does nothing for an id without a
    handle and nothing when the driver fails to close (the connection
    stays reported as connected).  When the driver closes, the handle is
    gone and [isConnected] answers false.  In every case the other
    connections and the profiles are untouched, and disconnecting again
    changes nothing more. *)
Theorem disconnect_forgets_one_connection :
  forall id closed r,
    (connections r !! id = None -> disconnect id closed r = r) /\
    (closed = false -> disconnect id closed r = r) /\
    (is_Some (connections r !! id) ->
       connections (disconnect id true r) !! id = None /\
       isConnected (disconnect id true r) id = false) /\
    (forall id', id' <> id ->
       connections (disconnect id closed r) !! id' = connections r !! id' /\
       isConnected (disconnect id closed r) id' = isConnected r id') /\
    configManager (disconnect id closed r) = configManager r /\
    objects (disconnect id closed r) = objects r /\
    (forall closed', disconnect id closed' (disconnect id true r)
                     = disconnect id true r).
Proof.
  intros id closed r. unfold disconnect.
  destruct (connections r !! id) as [h|] eqn:E.
  - split; [discriminate|]. split; [now intros ->|]. split; [|split; [|split; [|split]]].
    + intros _. unfold isConnected, forget. simpl.
      now rewrite lookup_delete_eq, lookup_insert_eq.
    + intros id' Hne. destruct closed; [|auto].
      unfold isConnected, forget. simpl.
      rewrite lookup_delete_ne, lookup_insert_ne by congruence. auto.
    + now destruct closed.
    + now destruct closed.
    + intros closed'. simpl. now rewrite lookup_delete_eq.
  - split; [reflexivity|]. split; [reflexivity|].
    split; [intros [? ?]; discriminate|].
    split; [auto|]. split; [reflexivity|]. split; [reflexivity|].
    intros closed'. now rewrite E.
Qed.

(** X9.  [connect(connectionId)] answers true exactly when a profile is
    stored under the id, the profile passes the checks of its type and the
    driver answers.  Then the id has the driver's handle and is reported
    as connected.  In every other case an error is thrown and the two
    connection maps are as before: the call never answers false.  For a
    profile of one of the four types the error is that of the failed
    check.  The profiles are never changed. *)
Theorem connect_by_id_succeeds_iff :
  forall id now dial r,
    (fst (connect (inr id) now dial r) = Done true <->
     (exists c, stored (configManager r) (objects r) id = Some c /\
                config_error c = None) /\ is_Some dial) /\
    (forall connection,
       dial = Some connection ->
       fst (connect (inr id) now dial r) = Done true ->
       connections (snd (connect (inr id) now dial r)) !! id = Some connection /\
       isConnected (snd (connect (inr id) now dial r)) id = true) /\
    (fst (connect (inr id) now dial r) = Done true \/
     exists msg,
       fst (connect (inr id) now dial r) = Thrown msg /\
       connections (snd (connect (inr id) now dial r)) = connections r /\
       connectionStatus (snd (connect (inr id) now dial r)) = connectionStatus r) /\
    (stored (configManager r) (objects r) id = None ->
     fst (connect (inr id) now dial r) = Thrown "未找到数据库配置") /\
    (forall c msg,
       stored (configManager r) (objects r) id = Some c ->
       type c <> unsupported -> config_error c = Some msg ->
       fst (connect (inr id) now dial r) = Thrown msg) /\
    (forall c,
       stored (configManager r) (objects r) id = Some c ->
       config_error c = None -> dial = None ->
       exists msg, fst (connect (inr id) now dial r) = Thrown msg) /\
    configManager (snd (connect (inr id) now dial r)) = configManager r.
Proof.
  intros id now dial r.
  pose proof (connect_by_id_outcome id now dial r) as H.
  destruct (stored (configManager r) (objects r) id) as [c|].
  - destruct H as (copy & Hf & ->).
    destruct (config_error c) as [msg|] eqn:Ec; cbn [fst snd].
    + split; [split; [discriminate|]|].
      { intros [(c' & [= <-] & Hc') _]. congruence. }
      split; [discriminate|]. split; [right; exists msg; auto|].
      split; [discriminate|]. split; [|split; [|reflexivity]].
      * intros c' msg' [= <-] _ Hm. congruence.
      * intros c' [= <-] Hm. congruence.
    + destruct dial as [h|]; cbn [fst snd].
      * split; [split; eauto|]. split.
        { intros connection [= <-] _. unfold isConnected. simpl.
          now rewrite !lookup_insert_eq. }
        split; [now left|]. split; [discriminate|].
        split; [|split; [|reflexivity]].
        -- intros c' msg' [= <-] _ Hm. congruence.
        -- intros c' _ _ Hd. discriminate.
      * split; [split; [discriminate|intros [_ [? ?]]; discriminate]|].
        split; [discriminate|]. split; [right; eauto|].
        split; [discriminate|]. split; [|split; [|reflexivity]].
        -- intros c' msg' [= <-] _ Hm. congruence.
        -- intros c' _ _ _. eauto.
  - rewrite H. cbn [fst snd]. split; [split; [discriminate|]|].
    { intros [(c' & ? & _) _]. discriminate. }
    split; [discriminate|]. split; [right; eauto|].
    split; [reflexivity|]. split; [|split; [|reflexivity]].
    + intros c' msg' ?. discriminate.
    + intros c' ?. discriminate.
Qed.

(** X10.  After a disconnect, [ensureConnected] connects again from the
    stored profile: the id gets the new handle, is reported as connected,
    and the stored profile is the one it was. *)
Theorem ensureConnected_reconnects_from_stored_profile :
  forall id now connection c r,
    status_backed r ->
    allocated (configManager r) (objects r) ->
    stored (configManager r) (objects r) id = Some c ->
    config_error c = None ->
    let r' := snd (ensureConnected id now (Some connection) (disconnect id true r)) in
    fst (ensureConnected id now (Some connection) (disconnect id true r)) = Done true /\
    connections r' !! id = Some connection /\
    isConnected r' id = true /\
    stored (configManager r') (objects r') id = Some c.
Proof.
  intros id now connection c r Hb Ha Hs Hc.
  set (r1 := disconnect id true r).
  assert (Hst : connectionStatus r1 !! id <> Some true).
  { unfold r1, disconnect. destruct (connections r !! id) as [h|] eqn:E.
    - simpl. rewrite lookup_insert_eq. discriminate.
    - intros Ht. destruct (Hb id Ht) as [? ?]. congruence. }
  assert (Hm : configManager r1 = configManager r /\ objects r1 = objects r).
  { unfold r1, disconnect. destruct (connections r !! id); auto. }
  destruct Hm as [Hm Ho].
  assert (E : ensureConnected id now (Some connection) r1
              = connect (inr id) now (Some connection) r1).
  { unfold ensureConnected. destruct (connectionStatus r1 !! id) as [[|]|];
      [congruence|reflexivity|reflexivity]. }
  simpl. rewrite E.
  pose proof (connect_by_id_outcome id now (Some connection) r1) as H.
  rewrite Hm, Ho, Hs, Hc in H. destruct H as (copy & Hf & ->). simpl.
  split; [reflexivity|]. split; [apply lookup_insert_eq|]. split.
  - unfold isConnected. simpl. now rewrite lookup_insert_eq.
  - rewrite stored_with_fresh; assumption.
Qed.

Lemma ensureConnected_reconnects_from_stored_profile_witness :
  let r := run [NewObject ProfileSamples.shop; AddConfig 7 1%positive (Done tt);
                Connect (inr "mysql-localhost-shop-7") 8
                  (Some ProfileSamples.mysql_handle)] init in
  let r' := snd (ensureConnected "mysql-localhost-shop-7" 9
                   (Some {| driver := mysql; serial := 2 |})
                   (disconnect "mysql-localhost-shop-7" true r)) in
  fst (ensureConnected "mysql-localhost-shop-7" 9
         (Some {| driver := mysql; serial := 2 |})
         (disconnect "mysql-localhost-shop-7" true r)) = Done true /\
  connections r' !! "mysql-localhost-shop-7" = Some {| driver := mysql; serial := 2 |} /\
  isConnected r' "mysql-localhost-shop-7" = true /\
  stored (configManager r') (objects r') "mysql-localhost-shop-7"
    = Some ProfileSamples.shop.
Proof.
  apply (ensureConnected_reconnects_from_stored_profile
           "mysql-localhost-shop-7" 9 {| driver := mysql; serial := 2 |}
           ProfileSamples.shop).
  - apply status_backed_run, status_backed_init.
  - intros id l Hin. vm_compute in Hin. destruct Hin as [[= <- <-]|[]].
    vm_compute. eauto.
  - vm_compute. reflexivity.
  - vm_compute. reflexivity.
Defined.

(** X11.  [removeConfig(connectionId)] takes the profile out of the
    store whether or not the connection could be closed and whether or not
    the file could be written.  It answers false exactly when no profile
    was stored, true exactly when one was and the write succeeded, and
    throws the error of the store exactly when one was and the write
    failed.  When the driver closed, the id is no longer connected.  When
    the driver failed to close, the handle and the status stay as they
    were although the profile is gone; a later [connect(connectionId)]
    throws, and so do [executeQuery] and [getMongoConnection], which ask
    for the profile as well as for the handle. *)
Theorem removeConfig_drops_profile_even_if_close_fails :
  forall id closed write r,
    let r' := snd (removeConfig id closed write r) in
    (fst (removeConfig id closed write r) = Done false <->
     get (configs (configManager r)) id = None) /\
    (fst (removeConfig id closed write r) = Done true <->
     is_Some (get (configs (configManager r)) id) /\ write = Done tt) /\
    (fst (removeConfig id closed write r) = Thrown "删除配置保存失败" <->
     is_Some (get (configs (configManager r)) id) /\
     exists error, write = Thrown error) /\
    (fst (removeConfig id closed write r) = Done false \/
     fst (removeConfig id closed write r) = Done true \/
     fst (removeConfig id closed write r) = Thrown "删除配置保存失败") /\
    stored (configManager r') (objects r') id = None /\
    (closed = true ->
     connections r' !! id = None /\
     (is_Some (connections r !! id) -> isConnected r' id = false)) /\
    (closed = false ->
     connections r' = connections r /\
     connectionStatus r' = connectionStatus r) /\
    (forall now dial,
       connect (inr id) now dial r' = (Thrown "未找到数据库配置", r')) /\
    (forall databaseName,
       lookup_connection id r' = (Thrown "未找到数据库连接", r') /\
       getMongoConnection id databaseName r' = (Thrown "未找到数据库连接", r')).
Proof.
  intros id closed write r. cbv zeta. unfold removeConfig.
  assert (Hm : configManager (disconnect id closed r) = configManager r /\
               objects (disconnect id closed r) = objects r).
  { unfold disconnect. destruct (connections r !! id); [|auto]. now destruct closed. }
  destruct Hm as [Hm Ho]. rewrite Hm, Ho.
  assert (Hgone : forall mm,
    configs mm = remove_key id (configs (configManager r)) ->
    stored mm (objects r) id = None).
  { intros mm E. unfold stored. now rewrite E, get_remove_key_eq. }
  assert (Hconn : forall r',
    stored (configManager r') (objects r') id = None ->
    forall now dial, connect (inr id) now dial r' = (Thrown "未找到数据库配置", r')).
  { intros r' Hs now dial. pose proof (connect_by_id_outcome id now dial r') as H.
    now rewrite Hs in H. }
  assert (Hlook : forall r',
    stored (configManager r') (objects r') id = None ->
    forall databaseName : option string,
      lookup_connection id r' = (Thrown "未找到数据库连接", r') /\
      getMongoConnection id databaseName r' = (Thrown "未找到数据库连接", r')).
  { intros r' Hs databaseName.
    assert (E : lookup_connection id r' = (Thrown "未找到数据库连接", r')).
    { unfold lookup_connection.
      pose proof (getConfig_stored id (configManager r') (objects r')) as H.
      rewrite Hs in H. rewrite H, registry_eta.
      now destruct (connections r' !! id). }
    split; [exact E|]. unfold getMongoConnection. now rewrite E. }
  assert (Hmaps :
    (closed = true ->
     connections (disconnect id closed r) !! id = None /\
     (is_Some (connections r !! id) ->
      connectionStatus (disconnect id closed r) !! id = Some false)) /\
    (closed = false ->
     connections (disconnect id closed r) = connections r /\
     connectionStatus (disconnect id closed r) = connectionStatus r)).
  { unfold disconnect. destruct (connections r !! id) as [h|] eqn:Eh.
    - destruct closed; simpl.
      + split; [|discriminate]. intros _.
        now rewrite lookup_delete_eq, lookup_insert_eq.
      + split; [discriminate|auto].
    - split; [|auto]. intros _. split; [assumption|]. intros [? ?]; discriminate. }
  destruct Hmaps as [Hclosed Hkept].
  assert (Hrest : forall answer m',
    stored m' (objects r) id = None ->
    (let r' := {| connections := connections (disconnect id closed r);
                  connectionStatus := connectionStatus (disconnect id closed r);
                  configManager := m'; objects := objects r |} in
     stored (configManager r') (objects r') id = None /\
     (closed = true ->
      connections r' !! id = None /\
      (is_Some (connections r !! id) -> isConnected r' id = false)) /\
     (closed = false ->
      connections r' = connections r /\
      connectionStatus r' = connectionStatus r) /\
     (forall now dial,
        connect (inr id) now dial r' = (Thrown "未找到数据库配置", r')) /\
     (forall databaseName,
        lookup_connection id r' = (Thrown "未找到数据库连接", r') /\
        getMongoConnection id databaseName r' = (Thrown "未找到数据库连接", r')))
    = answer -> answer).
  { intros answer m' Hs <-. cbv zeta. cbn [configManager objects connections
                                            connectionStatus].
    split; [exact Hs|]. split; [|split; [exact Hkept|]].
    - intros Hc. destruct (Hclosed Hc) as [H1 H2]. split; [assumption|].
      intros Hx. unfold isConnected. cbn [connectionStatus]. now rewrite (H2 Hx).
    - split; [apply Hconn; exact Hs|]. apply Hlook. exact Hs. }
  pose proof (removeConfig_cases write id (configManager r) (objects r)) as H.
  destruct (get (configs (configManager r)) id) as [l|] eqn:E.
  - destruct write as [error|[]]; rewrite H; cbn [fst snd].
    + split; [split; discriminate|].
      split; [split; [discriminate|intros [_ ?]; discriminate]|].
      split; [split; eauto|]. split; [auto|].
      eapply Hrest; [|reflexivity]. now apply Hgone.
    + split; [split; discriminate|].
      split; [split; eauto|].
      split; [split; [discriminate|intros [_ [? ?]]; discriminate]|].
      split; [auto|].
      eapply Hrest; [|reflexivity]. now apply Hgone.
  - rewrite H. cbn [fst snd].
    split; [split; reflexivity|].
    split; [split; [discriminate|intros [[? ?] _]; discriminate]|].
    split; [split; [discriminate|intros [[? ?] _]; discriminate]|].
    split; [auto|].
    eapply Hrest; [|reflexivity]. unfold stored. now rewrite E.
Qed.

(** X12.  [testConnection(config)] makes the checks that [connect] makes,
    so a profile of one of the four types that passes the test connects
    whenever the driver answers.  A profile of any other type passes the
    test without a driver being asked, and [connect] refuses it. *)
Theorem testConnection_agrees_with_connect :
  forall config c now connection r,
    objects r !! config = Some c ->
    (type c <> unsupported ->
     (testConnection config true r = Done true <->
      fst (connect (inl config) now (Some connection) r) = Done true)) /\
    (type c = unsupported ->
     (forall answers, testConnection config answers r = Done true) /\
     exists msg, fst (connect (inl config) now (Some connection) r) = Thrown msg).
Proof.
  intros config c now connection r Hc.
  unfold testConnection, connect. rewrite Hc.
  assert (Hsame : type c <> unsupported -> test_error c = config_error c).
  { unfold test_error, config_error. destruct (type c); congruence. }
  split.
  - intros Hne. rewrite (Hsame Hne).
    destruct (config_error c) as [msg|]; simpl; [split; discriminate|].
    destruct (type c); try congruence; split; reflexivity.
  - intros Hu. split.
    + intros answers. unfold test_error. now rewrite Hu.
    + unfold config_error. rewrite Hu. simpl. eauto.
Qed.

Lemma testConnection_agrees_with_connect_witness :
  (type ProfileSamples.shop <> unsupported ->
   (testConnection 1%positive true
      (run [NewObject ProfileSamples.shop] init) = Done true <->
    fst (connect (inl 1%positive) 5 (Some ProfileSamples.mysql_handle)
           (run [NewObject ProfileSamples.shop] init)) = Done true)) /\
  (type ProfileSamples.shop = unsupported ->
   (forall answers,
      testConnection 1%positive answers
        (run [NewObject ProfileSamples.shop] init) = Done true) /\
   exists msg,
     fst (connect (inl 1%positive) 5 (Some ProfileSamples.mysql_handle)
            (run [NewObject ProfileSamples.shop] init)) = Thrown msg).
Proof.
  apply (testConnection_agrees_with_connect 1%positive ProfileSamples.shop 5
           ProfileSamples.mysql_handle (run [NewObject ProfileSamples.shop] init)).
  vm_compute. reflexivity.
Defined.

End RegistryOperations.

(* ===================================================================== *)
(** * MongoDB commands: what reaches the driver and what is refused *)
(* ===================================================================== *)

Section MongoCommands.
Import JS DatabaseManager.

(** X13.  Every argument that a MongoDB command hands to the driver is
    truthy: where the parsed text is [null], [false], [0] or the empty
    string, or where an argument is missing, the empty object (for
    [insertMany] the empty array) stands in.  [find], [updateOne] and
    [updateMany] always receive two arguments, the other operations one. *)
Theorem mongo_arguments_are_never_falsy :
  forall JSON_parse q collectionName op args,
    executeMongo JSON_parse q = Call collectionName op args ->
    Forall (fun j => json_truthy j = true) args /\ length args = arity op.
Proof.
  intros JSON_parse q collectionName op args H.
  apply executeMongo_call in H as [params ->]. apply arguments_truthy.
Qed.

Lemma mongo_arguments_are_never_falsy_witness :
  Forall (fun j => json_truthy j = true) [JsObject []] /\
  length [JsObject []] = arity deleteMany.
Proof.
  apply (mongo_arguments_are_never_falsy (fun _ => Some JsNull)
           "db.users.deleteMany(null)" "users" deleteMany [JsObject []]).
  vm_compute. reflexivity.
Defined.

(** X14.  Nothing is dispatched exactly when the pattern finds no
    collection and operation in the cleaned text, or finds an operation
    that is not spelled as one of the seven names: the parse by hand that
    is tried after the pattern accepts nothing that the pattern missed. *)
Theorem mongo_fallback_never_fires :
  forall JSON_parse q,
    (manual_parse (collapse_spaces (trim q)) = None \/
     exists groups, collectionMatch (collapse_spaces (trim q)) = Some groups) /\
    (target (executeMongo JSON_parse q) = None <->
     collectionMatch (collapse_spaces (trim q)) = None \/
     exists collectionName text,
       collectionMatch (collapse_spaces (trim q)) = Some (collectionName, text) /\
       ~ In text supportedOperations).
Proof.
  intros JSON_parse q. split.
  - destruct (collectionMatch (collapse_spaces (trim q))) as [g|] eqn:E; [eauto|].
    left. now apply manual_parse_dead.
  - unfold executeMongo.
    destruct (collectionMatch (collapse_spaces (trim q))) as [[c t]|] eqn:E.
    + unfold run_command. destruct (operation_of t) as [op|] eqn:Eo; simpl.
      * split; [discriminate|]. intros [H|(c' & t' & [= <- <-] & Hn)];
          [discriminate|]. exfalso. apply Hn, operation_of_In. eauto.
      * split; [|reflexivity]. intros _. right. exists c, t.
        split; [reflexivity|]. intros Hin. apply operation_of_In in Hin as [op Ho].
        congruence.
    + rewrite (manual_parse_dead _ E). simpl. split; auto.
Qed.

(** X15.  The pattern finds the operation whatever the case of its
    letters, but the operation is carried out only when it is spelled as
    the driver spells it; otherwise the command is refused as unsupported,
    with the text as it was written. *)
Theorem mongo_operation_must_be_spelled_exactly :
  forall JSON_parse q collectionName text,
    collectionMatch (collapse_spaces (trim q)) = Some (collectionName, text) ->
    (exists op, In op supportedOperations /\ lower_text text = lower_text op) /\
    (In text supportedOperations ->
     exists op args, executeMongo JSON_parse q = Call collectionName op args) /\
    (~ In text supportedOperations ->
     executeMongo JSON_parse q = Invalid ("不支持的MongoDB操作: " +:+ text)).
Proof.
  intros JSON_parse q collectionName text H.
  split; [eapply collectionMatch_operation, H|].
  unfold executeMongo. rewrite H. unfold run_command. split.
  - intros Hin. apply operation_of_In in Hin as [op ->]. eauto.
  - intros Hn. destruct (operation_of text) as [op|] eqn:E; [|reflexivity].
    exfalso. apply Hn, operation_of_In. eauto.
Qed.

Lemma mongo_operation_must_be_spelled_exactly_witness :
  (exists op, In op supportedOperations /\ lower_text "FIND" = lower_text op) /\
  (In "FIND" supportedOperations ->
   exists op args,
     executeMongo (fun _ => None) "db.users.FIND({})" = Call "users" op args) /\
  (~ In "FIND" supportedOperations ->
   executeMongo (fun _ => None) "db.users.FIND({})"
   = Invalid ("不支持的MongoDB操作: " +:+ "FIND")).
Proof.
  apply (mongo_operation_must_be_spelled_exactly (fun _ => None)
           "db.users.FIND({})" "users" "FIND").
  vm_compute. reflexivity.
Defined.

End MongoCommands.

(* ===================================================================== *)
(** * The adapter service: transactions and the find-only MongoDB branch *)
(* ===================================================================== *)

Section ServiceOperations.
Import JS DatabaseServiceImpl.

(** X16.  A transaction is ended at most once.  Committing or rolling back
    without a transaction under way throws before the driver is asked.
    When the driver fails the transaction stays open, so it can still be
    rolled back.  When the driver succeeds the transaction is gone: a
    second commit or rollback throws and asks the driver nothing. *)
Theorem transaction_is_ended_at_most_once :
  forall (e again : ending) driver id s,
    (transactionConnections s !! id = None ->
     end_transaction e driver id s = (Thrown "未找到活动事务", s, [])) /\
    (forall transaction msg,
       transactionConnections s !! id = Some transaction ->
       exists text,
         end_transaction e (Thrown msg) id s
         = (Thrown text, s, [end_request e transaction])) /\
    (forall transaction,
       transactionConnections s !! id = Some transaction ->
       exists s',
         end_transaction e (Done tt) id s
         = (Done tt, s', [end_request e transaction]) /\
         held s' = held s /\
         end_transaction again driver id s' = (Thrown "未找到活动事务", s', [])).
Proof.
  intros e again driver id s. split; [|split].
  - intros H. destruct e; simpl; unfold commitTransaction, rollbackTransaction;
      now rewrite H.
  - intros transaction msg H.
    destruct e; simpl; unfold commitTransaction, rollbackTransaction;
      rewrite H; eauto.
  - intros transaction H.
    exists {| held := held s;
              transactionConnections := delete id (transactionConnections s) |}.
    split; [|split; [reflexivity|]].
    + destruct e; simpl; unfold commitTransaction, rollbackTransaction;
        now rewrite H.
    + destruct again; simpl; unfold commitTransaction, rollbackTransaction;
        simpl; now rewrite lookup_delete_eq.
Qed.

(** X17.  [disconnect] closes the connection and leaves its transaction in
    the map: the id is no longer connected and no new transaction can be
    begun on it, yet a commit or rollback still goes to the driver, on the
    transaction of the closed connection. *)
Theorem disconnect_leaves_transaction_open :
  forall (e : ending) id connection transaction s,
    held s !! id = Some connection ->
    let s1 := snd (fst (beginTransaction (Done transaction) id s)) in
    let s2 := fst (disconnect (Done tt) id s1) in
    isConnected s2 id = false /\
    fst (fst (beginTransaction (Done transaction) id s2))
      = Thrown "未找到数据库连接" /\
    fst (fst (end_transaction e (Done tt) id s2)) = Done tt /\
    snd (end_transaction e (Done tt) id s2) = [end_request e transaction].
Proof.
  intros e id connection transaction s H. cbv zeta.
  assert (E1 : beginTransaction (Done transaction) id s
               = (Done tt,
                  {| held := held s;
                     transactionConnections :=
                       <[id := transaction]> (transactionConnections s) |},
                  [Begin connection])).
  { unfold beginTransaction. now rewrite H. }
  rewrite E1. cbn [fst snd].
  assert (E2 : disconnect (Done tt) id
                 {| held := held s;
                    transactionConnections :=
                      <[id := transaction]> (transactionConnections s) |}
               = ({| held := delete id (held s);
                     transactionConnections :=
                       <[id := transaction]> (transactionConnections s) |},
                  [Close connection])).
  { unfold disconnect. cbn [held transactionConnections]. now rewrite H. }
  rewrite E2. cbn [fst snd].
  unfold isConnected, beginTransaction. cbn [held transactionConnections].
  rewrite lookup_delete_eq.
  split; [reflexivity|]. split; [reflexivity|].
  destruct e; cbn [end_transaction end_request];
    unfold commitTransaction, rollbackTransaction;
    cbn [held transactionConnections]; rewrite lookup_insert_eq; auto.
Qed.

Lemma disconnect_leaves_transaction_open_witness :
  let s := {| held := {[ "mysql:localhost:3306:shop" := 1 ]};
              transactionConnections := ∅ |} in
  let s1 := snd (fst (beginTransaction (Done 1) "mysql:localhost:3306:shop" s)) in
  let s2 := fst (disconnect (Done tt) "mysql:localhost:3306:shop" s1) in
  isConnected s2 "mysql:localhost:3306:shop" = false /\
  fst (fst (beginTransaction (Done 1) "mysql:localhost:3306:shop" s2))
    = Thrown "未找到数据库连接" /\
  fst (fst (end_transaction ByCommit (Done tt) "mysql:localhost:3306:shop" s2))
    = Done tt /\
  snd (end_transaction ByCommit (Done tt) "mysql:localhost:3306:shop" s2)
    = [end_request ByCommit 1].
Proof.
  apply (disconnect_leaves_transaction_open ByCommit
           "mysql:localhost:3306:shop" 1 1
           {| held := {[ "mysql:localhost:3306:shop" := 1 ]};
              transactionConnections := ∅ |}).
  vm_compute. reflexivity.
Defined.

(** X18.  The MongoDB branch of the service reads a whole collection: a
    command that names a collection and an operation whose name begins
    with [find] reads that collection whatever its argument, and no
    command is accepted that does not hold such a text. *)
Theorem service_find_ignores_the_argument :
  forall c,
    (c <> "" -> all_word c = true ->
     forall rest, mongo_find ("db." +:+ c +:+ ".find" +:+ rest) = Some c) /\
    (forall q,
       mongo_find q = Some c ->
       exists before rest,
         q = before +:+ "db." +:+ c +:+ ".find" +:+ rest /\
         c <> "" /\ all_word c = true).
Proof.
  intros c. split.
  - intros Hne Hw rest.
    assert (Hm : match_find_here ("db." +:+ c +:+ ".find" +:+ rest) = Some c).
    { unfold match_find_here. rewrite starts_with_app.
      pose proof (skip_length_app "db." (c +:+ ".find" +:+ rest)) as Hs.
      simpl String.length in Hs. rewrite Hs.
      change (".find" +:+ rest) with (String "."%char ("find" +:+ rest)).
      rewrite (span_word_stops c "."%char ("find" +:+ rest) Hw eq_refl).
      destruct c as [|c0 c]; [congruence|].
      change (String "."%char ("find" +:+ rest)) with (".find" +:+ rest).
      now rewrite starts_with_app. }
    destruct ("db." +:+ c +:+ ".find" +:+ rest); cbn [mongo_find]; now rewrite Hm.
  - intros q. induction q as [|a q IH]; cbn [mongo_find].
    + discriminate.
    + destruct (match_find_here (String a q)) as [c'|] eqn:E.
      * intros [= ->]. apply match_find_here_sound in E as (rest & Eq & H).
        exists "", rest. split; [exact Eq|exact H].
      * intros H. destruct (IH H) as (before & rest & Eq & Hc).
        exists (String a before), rest. split; [|exact Hc].
        rewrite Eq. reflexivity.
Qed.

End ServiceOperations.

(* ===================================================================== *)
(** * The save handler of [extension.ts]: outcomes and targets *)
(* ===================================================================== *)

Section HandlerOutcomes.
Import JS Backend Extension.
Context {B : backend}.

(** X19.  The handler of a save never throws, and what it posts tells how
    far it came.  When the first read fails it posts the error.  Otherwise
    the writes asked for are issued in order; when one of them throws, the
    writes before it stay applied, nothing after it is issued, no call
    takes anything back, and the error is all that is posted.  When every
    write is answered, [saveSuccess] is posted and the table is read again
    in the database that the writes left: when that read answers, the rows
    it answers are posted with [updateData]; when it throws, nothing more
    is posted. *)
Theorem save_stops_at_first_failure_without_undo :
  forall ctx msg (w : world B),
    let r := onSaveChanges ctx msg w in
    fst r = Done tt /\
    match fetch_rows ctx w with
    | (Thrown e, w1) =>
        w_out (snd r) = w_out w ++ [ErrorMessage e] /\
        w_log (snd r) = w_log w1 /\ w_db (snd r) = w_db w1
    | (Done rows, w1) =>
        let plan := planned_writes ctx (index_rows rows) msg in
        (exists e done c rest,
           plan = done ++ c :: rest /\
           w_log (snd r) = w_log w1 ++ done ++ [c] /\
           db_after done (w_db w1) = Some (w_db (snd r)) /\
           exec B (w_db (snd r)) c = Throw e /\
           w_out (snd r) = w_out w ++ [ErrorMessage e]) \/
        (exists d2,
           db_after plan (w_db w1) = Some d2 /\
           let refresh :=
             fetch_rows ctx
               (World d2 (w_log w1 ++ plan) (w_out w ++ [SaveSuccess])) in
           w_db (snd r) = w_db (snd refresh) /\
           w_log (snd r) = w_log (snd refresh) /\
           (exists c after,
              w_log (snd r) = w_log w1 ++ plan ++ c :: after /\
              reads (c :: after)) /\
           match fst refresh with
           | Done rows' =>
               w_out (snd r) = w_out w ++ [SaveSuccess; UpdateData rows']
           | Thrown _ => w_out (snd r) = w_out w ++ [SaveSuccess]
           end)
    end.
Proof.
  intros ctx msg w. cbv zeta.
  pose proof (onSaveChanges_run ctx msg w) as H.
  destruct (fetch_rows ctx w) as [[e|rows] w1].
  - rewrite H. cbn [fst snd w_out w_log w_db]. auto.
  - destruct H as (issued & d' & [e|] & Hrel & ->); cbn [fst snd].
    + split; [reflexivity|]. left.
      destruct Hrel as (done & c & rest & Hp & -> & Hdb & Hx).
      exists e, done, c, rest. cbn [w_out w_log w_db]. auto.
    + destruct Hrel as [-> Hdb].
      set (w3 := World d' (w_log w1 ++ planned_writes ctx (index_rows rows) msg)
                   (w_out w ++ [SaveSuccess])).
      split; [now destruct (fetch_rows ctx w3) as [[e|rows'] w4]|].
      right. exists d'. split; [exact Hdb|]. fold w3.
      destruct (fetch_rows_log ctx w3) as (c & after & Hlog & Hreads).
      pose proof (fetch_silent ctx w3) as Hsil.
      destruct (fetch_rows ctx w3) as [[e|rows'] w4]; cbn [fst snd] in *.
      * split; [reflexivity|]. split; [reflexivity|]. split.
        -- exists c, after. rewrite Hlog. unfold w3. cbn [w_log].
           now rewrite <- app_assoc.
        -- exact Hsil.
      * cbn [w_db w_log w_out].
        split; [reflexivity|]. split; [reflexivity|]. split.
        -- exists c, after. rewrite Hlog. unfold w3. cbn [w_log].
           now rewrite <- app_assoc.
        -- rewrite Hsil. unfold w3. cbn [w_out]. now rewrite <- app_assoc.
Qed.

(** X20.  A request to refresh never writes and never throws.  It reads
    the table, with one call for a relational table and with up to two for
    a MongoDB collection; when the read answers, the rows it answers are
    posted with [updateData], and when a call throws nothing is posted. *)
Theorem refresh_only_reads :
  forall ctx (w : world B),
    let r := onRefreshData ctx w in
    fst r = Done tt /\
    (exists c cs,
       w_log (snd r) = w_log w ++ c :: cs /\ reads (c :: cs) /\
       List.filter is_write (c :: cs) = []) /\
    w_db (snd r) = w_db (snd (fetch_rows ctx w)) /\
    w_log (snd r) = w_log (snd (fetch_rows ctx w)) /\
    match fst (fetch_rows ctx w) with
    | Done rows => w_out (snd r) = w_out w ++ [UpdateData rows]
    | Thrown _ => w_out (snd r) = w_out w
    end /\
    (is_mongodb ctx = false ->
     let read := ExecuteQuery (select_all ctx) in
     snd r
     = match exec B (w_db w) read with
       | Return d rows =>
           World d (w_log w ++ [read]) (w_out w ++ [UpdateData rows])
       | Throw _ => World (w_db w) (w_log w ++ [read]) (w_out w)
       end) /\
    (is_mongodb ctx = true ->
     let read := Find (tableName ctx) in
     snd r
     = match exec B (w_db w) GetMongoConnection with
       | Throw _ => World (w_db w) (w_log w ++ [GetMongoConnection]) (w_out w)
       | Return d1 _ =>
           match exec B d1 read with
           | Return d2 rows =>
               World d2 (w_log w ++ [GetMongoConnection; read])
                 (w_out w ++ [UpdateData rows])
           | Throw _ =>
               World d1 (w_log w ++ [GetMongoConnection; read]) (w_out w)
           end
       end).
Proof.
  intros ctx w. cbv zeta. unfold onRefreshData, catch, bind.
  destruct (fetch_rows_log ctx w) as (c & cs & Hlog & Hreads).
  pose proof (fetch_silent ctx w) as Hsil.
  pose proof (fetch_rows_cases ctx w) as Hcases.
  destruct (fetch_rows ctx w) as [[e|rows] w1]; cbn [fst snd] in *.
  - split; [reflexivity|]. split.
    { exists c, cs. split; [assumption|]. split; [assumption|].
      now apply Forall_read_writes. }
    split; [reflexivity|]. split; [reflexivity|]. split; [exact Hsil|].
    split; intros Hm; rewrite Hm in Hcases.
    + destruct (exec B (w_db w) (ExecuteQuery (select_all ctx)));
        now inversion Hcases.
    + destruct (exec B (w_db w) GetMongoConnection) as [e1|d1 r0];
        [now inversion Hcases|].
      destruct (exec B d1 (Find (tableName ctx))); now inversion Hcases.
  - unfold postMessage. cbn [fst snd w_db w_log w_out].
    split; [reflexivity|]. split.
    { exists c, cs. split; [assumption|]. split; [assumption|].
      now apply Forall_read_writes. }
    split; [reflexivity|]. split; [reflexivity|].
    split; [now rewrite Hsil|].
    split; intros Hm; rewrite Hm in Hcases.
    + destruct (exec B (w_db w) (ExecuteQuery (select_all ctx)));
        now inversion Hcases.
    + destruct (exec B (w_db w) GetMongoConnection) as [e1|d1 r0];
        [now inversion Hcases|].
      destruct (exec B d1 (Find (tableName ctx))); now inversion Hcases.
Qed.

End HandlerOutcomes.

(* ===================================================================== *)
(** * The save handler of [extension.ts]: the row a statement is aimed at *)
(* ===================================================================== *)

Section HandlerTargets.
Import JS Backend Extension.

(** X21.  When no other deleted row has a primary key column in common
    with a deleted row, the [DELETE] built for it is matched back to that
    row, and its [WHERE] clause lists every column of the row as it was
    read. *)
Theorem delete_is_aimed_at_its_row_when_keys_differ :
  forall ctx originalData msg rowId r,
    primaryKeys ctx <> [] ->
    In rowId (m_deletedRows msg) ->
    get originalData rowId = Some r ->
    (forall rowId' r' k,
       In rowId' (m_deletedRows msg) -> get originalData rowId' = Some r' ->
       In k (primaryKeys ctx) -> value_eqb (prop r' k) (prop r k) = true ->
       rowId' = rowId) ->
    find_deleted_row originalData msg
      {| d_primaryKeyData := pick_keys (primaryKeys ctx) r; d_rowData := r |}
    = Some rowId /\
    (rowId <> "" -> r <> [] ->
     delete_query ctx originalData msg
       {| d_primaryKeyData := pick_keys (primaryKeys ctx) r; d_rowData := r |}
     = Some ("DELETE FROM " +:+ tableName ctx +:+ " WHERE " +:+ delete_where r)).
Proof.
  intros ctx originalData msg rowId r Hpk Hin Hg Huniq.
  assert (Hf : find_deleted_row originalData msg
                 {| d_primaryKeyData := pick_keys (primaryKeys ctx) r;
                    d_rowData := r |} = Some rowId).
  { unfold find_deleted_row. cbn [d_primaryKeyData].
    now apply (find_deleted_row_unique ctx). }
  split; [exact Hf|]. intros Hid Hr. unfold delete_query. rewrite Hf.
  destruct (String.eqb_spec rowId "") as [->|_]; [congruence|]. rewrite Hg.
  destruct (String.eqb_spec (delete_where r) "") as [E|_]; [|reflexivity].
  exfalso. now apply (delete_where_nonempty r).
Qed.

Lemma delete_is_aimed_at_its_row_when_keys_differ_witness :
  find_deleted_row MoreSamples.two_users MoreSamples.delete_second
    {| d_primaryKeyData :=
         pick_keys (primaryKeys Samples.people_by_id)
           [("id", JNum 2); ("name", JStr "b")];
       d_rowData := [("id", JNum 2); ("name", JStr "b")] |}
  = Some "1" /\
  (("1" : string) <> "" -> [("id", JNum 2); ("name", JStr "b")] <> [] ->
   delete_query Samples.people_by_id MoreSamples.two_users MoreSamples.delete_second
     {| d_primaryKeyData :=
          pick_keys (primaryKeys Samples.people_by_id)
            [("id", JNum 2); ("name", JStr "b")];
        d_rowData := [("id", JNum 2); ("name", JStr "b")] |}
   = Some ("DELETE FROM " +:+ tableName Samples.people_by_id +:+ " WHERE "
           +:+ delete_where [("id", JNum 2); ("name", JStr "b")])).
Proof.
  apply (delete_is_aimed_at_its_row_when_keys_differ Samples.people_by_id
           MoreSamples.two_users MoreSamples.delete_second "1"
           [("id", JNum 2); ("name", JStr "b")]).
  - simpl. discriminate.
  - simpl. now left.
  - vm_compute. reflexivity.
  - intros rowId' r' k Hin _ _ _. simpl in Hin. destruct Hin as [<-|[]].
    reflexivity.
Defined.

(** X22.  The match goes by any one primary key column, and the first
    deleted row wins: when the first deleted row has a key column in
    common with another deleted row (two lines of one order, say), the
    [DELETE] built for the other row carries the [WHERE] clause of the
    first, so the first row is deleted twice and the other not at all. *)
Theorem delete_with_shared_key_column_hits_the_first_row :
  forall ctx originalData msg first rest r1 r k,
    m_deletedRows msg = first :: rest ->
    get originalData first = Some r1 ->
    In k (primaryKeys ctx) ->
    value_eqb (prop r1 k) (prop r k) = true ->
    find_deleted_row originalData msg
      {| d_primaryKeyData := pick_keys (primaryKeys ctx) r; d_rowData := r |}
    = Some first /\
    (first <> "" -> r1 <> [] ->
     delete_query ctx originalData msg
       {| d_primaryKeyData := pick_keys (primaryKeys ctx) r; d_rowData := r |}
     = Some ("DELETE FROM " +:+ tableName ctx +:+ " WHERE " +:+ delete_where r1)).
Proof.
  intros ctx originalData msg first rest r1 r k Hd Hg Hk He.
  pose proof (find_deleted_row_first ctx originalData msg r first rest r1 k
                Hd Hg Hk He) as Hf.
  split; [exact Hf|]. intros Hid Hr. unfold delete_query. rewrite Hf.
  destruct (String.eqb_spec first "") as [->|_]; [congruence|]. rewrite Hg.
  destruct (String.eqb_spec (delete_where r1) "") as [E|_]; [|reflexivity].
  exfalso. now apply (delete_where_nonempty r1).
Qed.

Lemma delete_with_shared_key_column_hits_the_first_row_witness :
  find_deleted_row MoreSamples.two_lines MoreSamples.delete_both
    {| d_primaryKeyData :=
         pick_keys (primaryKeys MoreSamples.order_lines) (MoreSamples.line 7 2 "ink");
       d_rowData := MoreSamples.line 7 2 "ink" |}
  = Some "0" /\
  (("0" : string) <> "" -> MoreSamples.line 7 1 "pen" <> [] ->
   delete_query MoreSamples.order_lines MoreSamples.two_lines MoreSamples.delete_both
     {| d_primaryKeyData :=
          pick_keys (primaryKeys MoreSamples.order_lines) (MoreSamples.line 7 2 "ink");
        d_rowData := MoreSamples.line 7 2 "ink" |}
   = Some ("DELETE FROM " +:+ tableName MoreSamples.order_lines +:+ " WHERE "
           +:+ delete_where (MoreSamples.line 7 1 "pen"))).
Proof.
  apply (delete_with_shared_key_column_hits_the_first_row MoreSamples.order_lines
           MoreSamples.two_lines MoreSamples.delete_both "0" ["1"]
           (MoreSamples.line 7 1 "pen") (MoreSamples.line 7 2 "ink") "order_id").
  - reflexivity.
  - vm_compute. reflexivity.
  - simpl. now left.
  - vm_compute. reflexivity.
Defined.

(** X23.  An edit of a row that the handler cannot identify is still sent:
    for a table without primary key, or for a row id that is not among the
    rows read (and not a new row), the [UPDATE] has nothing after [WHERE],
    and the MongoDB update has the empty filter, which matches any
    document. *)
Theorem update_of_unidentified_row_has_no_condition :
  forall ctx originalData msg rowId data,
    In (rowId, data) (m_modifiedData msg) ->
    includes (m_newRows msg) rowId = false ->
    primaryKeys ctx = [] \/ get originalData rowId = None ->
    In (if is_mongodb ctx
        then UpdateOne (tableName ctx) [] data
        else ExecuteQuery ("UPDATE " +:+ tableName ctx +:+ " SET "
                           +:+ update_set ctx data +:+ " WHERE "))
       (planned_writes ctx originalData msg).
Proof.
  intros ctx originalData msg rowId data Hin Hnew Hno.
  pose proof (build_updates_In ctx originalData msg rowId data Hin Hnew) as Hop.
  assert (Hpk : match get originalData rowId with
                | Some r => pick_keys (primaryKeys ctx) r
                | None => []
                end = []).
  { destruct Hno as [->| ->]; [|reflexivity]. now destruct (get originalData rowId). }
  rewrite Hpk in Hop. unfold planned_writes.
  destruct (is_mongodb ctx).
  - right. apply in_or_app. right. apply in_or_app. left.
    apply in_map_iff. eexists. split; [|exact Hop]. reflexivity.
  - apply in_map. apply in_or_app. right. apply in_or_app. left.
    apply in_map_iff. eexists. split; [|exact Hop]. reflexivity.
Qed.

Lemma update_of_unidentified_row_has_no_condition_witness :
  In (if is_mongodb Samples.people_by_id
      then UpdateOne (tableName Samples.people_by_id) [] [("name", JStr "x")]
      else ExecuteQuery ("UPDATE " +:+ tableName Samples.people_by_id +:+ " SET "
                         +:+ update_set Samples.people_by_id [("name", JStr "x")]
                         +:+ " WHERE "))
     (planned_writes Samples.people_by_id MoreSamples.two_users
        MoreSamples.stale_edit).
Proof.
  apply (update_of_unidentified_row_has_no_condition Samples.people_by_id
           MoreSamples.two_users MoreSamples.stale_edit
           "new-1700000000000" [("name", JStr "x")]).
  - simpl. now left.
  - reflexivity.
  - right. vm_compute. reflexivity.
Defined.

End HandlerTargets.

(* ===================================================================== *)
(** * The web view script of [extension.ts]: what a save posts *)
(* ===================================================================== *)

Section WebviewSaves.
Import JS Backend Extension.

(** X24.  Every row of a posted save carries a text that is not blank for
    every primary key and not-null column of the table.  So an edit of an
    existing row that leaves such a column untouched is never posted: the
    row's entry holds only the cells that were edited, and validation
    reads an absent column as empty. *)
Theorem posted_rows_fill_every_constrained_column :
  forall ctx st,
    (forall msg rowId data c,
       saveChanges ctx st = Some msg ->
       In (rowId, data) (m_modifiedData msg) ->
       ext_constrained ctx c ->
       exists text,
         get data (name c) = Some (JStr text) /\ blank (Some text) = false) /\
    (forall rowId data c,
       In (rowId, data) (modifiedData st) ->
       ext_constrained ctx c ->
       get data (name c) = None ->
       saveChanges ctx st = None).
Proof.
  intros ctx st. split.
  - intros msg rowId data c Hs Hin Hc.
    apply saveChanges_message in Hs as (Hv1 & Hv2 & Hmd & _ & _).
    rewrite Hmd in Hin. apply in_map_iff in Hin as ([rowId' data0] & [= <- <-] & Hin).
    destruct (validate_new ctx (modifiedData st) (newRowElements st))
      as [bad md2] eqn:E. simpl in Hv2, Hin. subst bad.
    pose proof (validate_new_all ctx _ _ _ E (validate_modified_all ctx _ Hv1)
                  _ _ Hin) as Hvalid.
    pose proof (valid_data_filled ctx data0 c Hvalid Hc) as Hb.
    rewrite get_as_row. destruct (get data0 (name c)) as [text|]; [|discriminate].
    exists text. auto.
  - intros rowId data c Hin Hc Hg.
    destruct (saveChanges ctx st) as [msg|] eqn:Hs; [|reflexivity].
    apply saveChanges_message in Hs as (Hv1 & _).
    pose proof (valid_data_filled ctx data c
                  (validate_modified_all ctx _ Hv1 _ _ Hin) Hc) as Hb.
    rewrite Hg in Hb. discriminate.
Qed.

(** X25.  Deleting a row that was added in the editor takes it out of the
    document and out of [newRows], but its cell edits stay in
    [modifiedData].  The next save that passes validation therefore posts
    them as an edit of an existing row, and the handler, which finds no
    row with that id, sends an [UPDATE] with nothing after [WHERE] (for
    MongoDB an update with the empty filter). *)
Theorem deleted_new_row_is_saved_as_an_update :
  forall ctx st i rowId cells data msg originalData,
    newRowElements st !! i = Some (rowId, cells) ->
    rowId <> "" ->
    In rowId (newRows st) ->
    includes (splice_first rowId (newRows st)) rowId = false ->
    (forall el, In el (delete i (newRowElements st)) -> fst el <> rowId) ->
    In (rowId, data) (modifiedData st) ->
    get originalData rowId = None ->
    saveChanges ctx (deleteClickNew i st) = Some msg ->
    modifiedData (deleteClickNew i st) = modifiedData st /\
    In (rowId, as_row data) (m_modifiedData msg) /\
    includes (m_newRows msg) rowId = false /\
    In (if is_mongodb ctx
        then UpdateOne (tableName ctx) [] (as_row data)
        else ExecuteQuery ("UPDATE " +:+ tableName ctx +:+ " SET "
                           +:+ update_set ctx (as_row data) +:+ " WHERE "))
       (planned_writes ctx originalData msg).
Proof.
  intros ctx st i rowId cells data msg originalData Hel Hid Hnew Honce Hother
         Hin Hod Hs.
  assert (Est : deleteClickNew i st
                = {| modifiedData := modifiedData st; deletedRows := deletedRows st;
                     newRows := splice_first rowId (newRows st);
                     newRowElements := delete i (newRowElements st) |}).
  { unfold deleteClickNew. rewrite Hel.
    destruct (String.eqb_spec rowId "") as [->|_]; [congruence|].
    now rewrite (proj2 (includes_In _ _) Hnew). }
  rewrite Est in *. cbn [modifiedData].
  apply saveChanges_message in Hs as (_ & _ & Hmd & _ & Hnr).
  cbn [modifiedData newRowElements newRows] in Hmd, Hnr.
  assert (Hm : In (rowId, as_row data) (m_modifiedData msg)).
  { rewrite Hmd. apply in_map_iff. exists (rowId, data). split; [reflexivity|].
    now apply validate_new_keeps. }
  assert (Hn : includes (m_newRows msg) rowId = false) by now rewrite Hnr.
  split; [reflexivity|]. split; [exact Hm|]. split; [exact Hn|].
  apply (unidentified_update_planned ctx originalData msg rowId); auto.
Qed.

Lemma deleted_new_row_is_saved_as_an_update_witness :
  modifiedData (deleteClickNew 0 EditSamples.typed_title)
    = modifiedData EditSamples.typed_title /\
  In ("new-1700000000000", as_row [("title", "x")])
     (m_modifiedData
        {| m_modifiedData := [("new-1700000000000", [("title", JStr "x")])];
           m_deletedRows := []; m_newRows := [] |}) /\
  includes (m_newRows
              {| m_modifiedData := [("new-1700000000000", [("title", JStr "x")])];
                 m_deletedRows := []; m_newRows := [] |})
    "new-1700000000000" = false /\
  In (if is_mongodb Samples.notes
      then UpdateOne (tableName Samples.notes) [] (as_row [("title", "x")])
      else ExecuteQuery ("UPDATE " +:+ tableName Samples.notes +:+ " SET "
                         +:+ update_set Samples.notes (as_row [("title", "x")])
                         +:+ " WHERE "))
     (planned_writes Samples.notes (index_rows Samples.notes_rows)
        {| m_modifiedData := [("new-1700000000000", [("title", JStr "x")])];
           m_deletedRows := []; m_newRows := [] |}).
Proof.
  apply (deleted_new_row_is_saved_as_an_update Samples.notes
           EditSamples.typed_title 0 "new-1700000000000"
           [("title", "x"); ("body", "")] [("title", "x")]).
  - vm_compute. reflexivity.
  - discriminate.
  - vm_compute. now left.
  - vm_compute. reflexivity.
  - intros el Hin. vm_compute in Hin. contradiction.
  - vm_compute. now left.
  - vm_compute. reflexivity.
  - vm_compute. reflexivity.
Defined.

End WebviewSaves.

(* ===================================================================== *)
(** * The earlier editor: what its web view posts and its handler does *)
(* ===================================================================== *)

Section PrevEditor.
Import JS Backend ExtensionPrev.


(** X27.  [deleteRow] stores the [data-row-id] of the row, and the save
    looks the stored text up among the [data-row-index] of the rows: the
    row that is deleted is the one shown at the position that the id
    names, whichever row the user clicked, and none when no row is shown
    there. *)
Theorem prev_delete_is_looked_up_by_row_id :
  forall st i row rid,
    query_row st (pretty i) = Some row ->
    new_has (newRows st) (parseInt (pretty i)) = false ->
    rowId row = Some rid -> rid <> "" ->
    existsb (value_eqb (JStr rid)) (deletedRows st) = false ->
    delete_rows (deleteRow i st)
    = delete_rows st ++ match query_row st rid with
                        | Some r' => [r']
                        | None => []
                        end.
Proof.
  intros st i row rid Hrow Hnew Hid Hne Hfresh.
  unfold deleteRow. rewrite Hrow, Hnew, Hid.
  destruct (String.eqb_spec rid "") as [->|_]; [congruence|].
  unfold set_add. rewrite Hfresh. unfold delete_rows. cbn [deletedRows].
  rewrite flat_map_app. f_equal. simpl. unfold query_row. cbn [rows].
  now rewrite app_nil_r.
Qed.

Lemma prev_delete_is_looked_up_by_row_id_witness :
  delete_rows (deleteRow 0 PrevSamples.two_notes)
  = delete_rows PrevSamples.two_notes
    ++ match query_row PrevSamples.two_notes "1" with
       | Some r' => [r']
       | None => []
       end.
Proof.
  apply (prev_delete_is_looked_up_by_row_id PrevSamples.two_notes 0
           (Samples.note_row "0" "1" "a") "1").
  - vm_compute. reflexivity.
  - vm_compute. reflexivity.
  - reflexivity.
  - discriminate.
  - reflexivity.
Defined.

(** X28.  Deleting a row does not take back the edits made to it:
    [deletedRows] holds texts, the update loops ask it for a number, so
    the deleted row is validated and updated like any other. *)
Theorem prev_delete_keeps_pending_edits :
  forall ctx st i row,
    Forall is_text (deletedRows st) ->
    query_row st (pretty i) = Some row ->
    new_has (newRows st) (parseInt (pretty i)) = false ->
    update_rows ctx (deleteRow i st) = update_rows ctx st /\
    Forall is_text (deletedRows (deleteRow i st)).
Proof.
  intros ctx st i row Htexts Hrow Hnew.
  unfold deleteRow. rewrite Hrow, Hnew.
  set (t := match rowId row with
            | Some id => if String.eqb id "" then pretty i else id
            | None => pretty i
            end).
  pose proof (set_add_texts (deletedRows st) t Htexts) as Htexts'.
  split; [|exact Htexts'].
  unfold update_rows. cbn [modifiedData newRows deletedRows].
  apply flat_map_ext. intros [i' columns].
  destruct (new_has (newRows st) (parseInt i')); [reflexivity|].
  unfold query_row. cbn [rows].
  destruct (find _ (rows st)); [|reflexivity].
  now rewrite !has_number_texts.
Qed.

Lemma prev_delete_keeps_pending_edits_witness :
  update_rows Samples.prev_notes (deleteRow 0 PrevSamples.two_notes)
    = update_rows Samples.prev_notes PrevSamples.two_notes /\
  Forall is_text (deletedRows (deleteRow 0 PrevSamples.two_notes)).
Proof.
  apply (prev_delete_keeps_pending_edits Samples.prev_notes PrevSamples.two_notes 0
           (Samples.note_row "0" "1" "a")).
  - apply List.Forall_nil.
  - vm_compute. reflexivity.
  - vm_compute. reflexivity.
Defined.

(** X29.  A row whose primary key cell was edited is sought under the new
    key: [finishEditing] writes the text typed in into the cell, and the
    save reads the identifier of the row from the cells, so the [UPDATE]
    sets the key to the value that its [WHERE] clause asks for. *)
Theorem prev_edited_key_is_sought_under_its_new_value :
  forall ctx st p j row cell originalValue inputValue,
    rows st !! p = Some row ->
    cells row !! j = Some cell ->
    isPk cell = true ->
    primaryKeys ctx = [column cell] ->
    (forall j' cell', j' < j -> cells row !! j' = Some cell' ->
                      String.eqb (column cell') (column cell) = false) ->
    (forall p' row', p' < p -> rows st !! p' = Some row' ->
                     String.eqb (rowIndex row') (rowIndex row) = false) ->
    trim inputValue <> "" -> trim inputValue <> "NULL" ->
    trim inputValue <> originalValue ->
    get (modifiedData st) (rowIndex row) = None ->
    new_has (newRows st) (parseInt (rowIndex row)) = false ->
    has_number (deletedRows st) (parseInt (rowIndex row)) = false ->
    exists row',
      In (row', [(column cell, JStr (trim inputValue))])
         (update_rows ctx (finishEditing ctx p j originalValue inputValue st)) /\
      getRowIdentifier ctx row' = [(column cell, JStr (trim inputValue))] /\
      update_query ctx
        {| u_primaryKeyData := getRowIdentifier ctx row';
           u_updateData := [(column cell, JStr (trim inputValue))] |}
      = "UPDATE " +:+ tableName ctx
        +:+ " SET " +:+ column cell +:+ " = '" +:+ trim inputValue +:+ "'"
        +:+ " WHERE " +:+ column cell +:+ " = '" +:+ trim inputValue +:+ "'".
Proof.
  intros ctx st p j row cell originalValue inputValue
         Hrow Hcell Hpk Hkeys Hfirst Hrowfirst Hne Hnn Hchg Hmd Hnew Hdel.
  set (v := trim inputValue) in *.
  set (k := column cell) in *.
  set (cell' := set_text cell v).
  set (row' := {| rowIndex := rowIndex row; rowId := rowId row;
                  cells := <[j := cell']> (cells row) |}).
  assert (Est : finishEditing ctx p j originalValue inputValue st
                = {| rows := <[p := row']> (rows st);
                     modifiedData := set (modifiedData st) (rowIndex row) [(k, JStr v)];
                     deletedRows := deletedRows st; newRows := newRows st |}).
  { unfold finishEditing. rewrite Hrow, Hcell, Hpk. fold v. cbn [orb andb].
    destruct (String.eqb_spec v "") as [E|_]; [congruence|].
    destruct (String.eqb_spec v "NULL") as [E|_]; [congruence|].
    cbn [orb]. destruct (String.eqb_spec v originalValue) as [E|_]; [congruence|].
    rewrite Hmd. reflexivity. }
  assert (Hq : query_cell row' k = Some cell').
  { unfold query_cell, row'. cbn [cells].
    apply (find_insert_first _ _ _ j cell Hcell).
    - unfold cell', k. simpl. apply String.eqb_refl.
    - exact Hfirst. }
  assert (Hident : getRowIdentifier ctx row' = [(k, JStr v)]).
  { unfold getRowIdentifier. rewrite Hkeys. cbn [fold_left]. fold k. rewrite Hq.
    unfold cell'. cbn [textContent set_text]. unfold v. rewrite trim_idem. fold v.
    destruct (String.eqb_spec v "NULL") as [E|_]; [congruence|]. reflexivity. }
  assert (Hdata : make_updateData ctx row' [(k, JStr v)] = [(k, JStr v)]).
  { unfold make_updateData. cbn [fold_left]. rewrite Hq.
    unfold cell'. cbn [isPk set_text]. rewrite Hpk. reflexivity. }
  exists row'. split; [|split].
  - rewrite Est. unfold update_rows. cbn [modifiedData newRows deletedRows].
    apply in_flat_map. exists (rowIndex row, [(k, JStr v)]).
    split; [apply In_set_new|]. cbn beta iota. rewrite Hnew.
    assert (Hqr : query_row
                    {| rows := <[p := row']> (rows st);
                       modifiedData := set (modifiedData st) (rowIndex row) [(k, JStr v)];
                       deletedRows := deletedRows st; newRows := newRows st |}
                    (rowIndex row) = Some row').
    { unfold query_row. cbn [rows].
      apply (find_insert_first _ _ _ p row Hrow).
      - unfold row'. simpl. apply String.eqb_refl.
      - exact Hrowfirst. }
    rewrite Hqr, Hdel. rewrite Hdata. now left.
  - exact Hident.
  - rewrite Hident. unfold update_query, update_set, update_where.
    cbn [u_primaryKeyData u_updateData map]. rewrite Hkeys.
    assert (Hinc : includes [k] k = true).
    { unfold includes. simpl. now rewrite String.eqb_refl. }
    rewrite Hinc.
    assert (Hn : nonempty (k +:+ " = " +:+ quoted_raw (JStr v)) = true).
    { unfold nonempty.
      destruct (String.eqb_spec (k +:+ " = " +:+ quoted_raw (JStr v)) "") as [E|_];
        [|reflexivity].
      exfalso. revert E. apply append_nonempty. discriminate. }
    cbn [List.filter]. rewrite Hn. cbn [join]. unfold quoted_raw.
    rewrite !string_app_assoc. reflexivity.
Qed.

Lemma prev_edited_key_is_sought_under_its_new_value_witness :
  exists row',
    In (row', [(column (Samples.data_cell "id" true "1"), JStr (trim "7"))])
       (update_rows PrevSamples.users_by_id
          (finishEditing PrevSamples.users_by_id 0 0 "1" "7" PrevSamples.one_user)) /\
    getRowIdentifier PrevSamples.users_by_id row'
      = [(column (Samples.data_cell "id" true "1"), JStr (trim "7"))] /\
    update_query PrevSamples.users_by_id
      {| u_primaryKeyData := getRowIdentifier PrevSamples.users_by_id row';
         u_updateData := [(column (Samples.data_cell "id" true "1"), JStr (trim "7"))] |}
    = "UPDATE " +:+ tableName PrevSamples.users_by_id
      +:+ " SET " +:+ column (Samples.data_cell "id" true "1") +:+ " = '"
      +:+ trim "7" +:+ "'"
      +:+ " WHERE " +:+ column (Samples.data_cell "id" true "1") +:+ " = '"
      +:+ trim "7" +:+ "'".
Proof.
  apply (prev_edited_key_is_sought_under_its_new_value PrevSamples.users_by_id
           PrevSamples.one_user 0 0
           {| rowIndex := "0"; rowId := Some "0";
              cells := [Samples.data_cell "id" true "1";
                        Samples.data_cell "name" false "a";
                        Samples.action_cell] |}
           (Samples.data_cell "id" true "1") "1" "7").
  - reflexivity.
  - reflexivity.
  - reflexivity.
  - reflexivity.
  - intros j' cell' Hlt. lia.
  - intros p' row' Hlt. lia.
  - vm_compute. discriminate.
  - vm_compute. discriminate.
  - vm_compute. discriminate.
  - reflexivity.
  - vm_compute. reflexivity.
  - vm_compute. reflexivity.
Defined.

Section PrevOutcomes.
Context {B : backend}.

(** X30.  The earlier handler never throws either, and stops at the first
    write that fails, leaving the writes before it applied.  Unlike the
    later handler it has one [try] around everything.  When every write is
    answered it posts [saveSuccess] and reads the table again, in the
    database that the writes left: when that read answers, its rows are
    posted with [updateData]; when it throws, the web view is told of the
    success and then of the error. *)
Theorem prev_save_reports_refresh_failure_after_success :
  forall ctx ch (w : world B),
    let r := onSaveChanges ctx ch w in
    let plan := prev_planned_writes ctx ch in
    let refresh := ExecuteQuery (select_all ctx) in
    fst r = Done tt /\
    ((exists e done c rest,
        plan = done ++ c :: rest /\
        w_log (snd r) = w_log w ++ done ++ [c] /\
        db_after done (w_db w) = Some (w_db (snd r)) /\
        exec B (w_db (snd r)) c = Throw e /\
        w_out (snd r) = w_out w ++ [ErrorMessage e]) \/
     (exists d1,
        db_after plan (w_db w) = Some d1 /\
        w_log (snd r) = w_log w ++ plan ++ [refresh] /\
        match exec B d1 refresh with
        | Return d2 rows =>
            w_db (snd r) = d2 /\
            w_out (snd r) = w_out w ++ [SaveSuccess; UpdateData rows]
        | Throw e =>
            w_db (snd r) = d1 /\
            w_out (snd r) = w_out w ++ [SaveSuccess; ErrorMessage e]
        end)).
Proof.
  intros ctx ch w. cbv zeta.
  destruct (prev_onSaveChanges_run ctx ch w)
    as (issued & d' & [e|] & Hrel & ->); cbn [fst snd].
  - split; [reflexivity|]. left.
    destruct Hrel as (done & c & rest & Hp & -> & Hdb & Hx).
    exists e, done, c, rest. cbn [w_out w_log w_db]. auto.
  - destruct Hrel as [-> Hdb]. cbv zeta.
    destruct (exec B d' (ExecuteQuery (select_all ctx))) as [e|d2 rows] eqn:E;
      cbn [fst snd w_out w_log w_db];
      (split; [reflexivity|]); right; exists d';
      (split; [exact Hdb|]); (split; [reflexivity|]); rewrite E; auto.
Qed.

End PrevOutcomes.

End PrevEditor.
